(** * Gemma educational assistant: OCR text extractor and generation engine

    A shallow embedding of [ocr_processor.py] (class [OCRProcessor]) and
    [ai_engine.py] (class [AIEngine]), with the properties of the pipeline
    that the specification states.

    Conventions of the embedding:
    - a Python [str] is the list of its code points ([list N]), so [len],
      slicing and [ord] are the list operations;
    - a Python call that may raise returns a [result]; [try]/[except
      Exception] is [try_except];
    - the Streamlit calls ([st.error], [st.warning]) and the entries into
      [generate_response] are recorded in a trace, so that "without
      invoking generation" is a statement about the trace;
    - the third-party libraries (PIL, numpy, OpenCV, pytesseract, the
      tokenizer and the model) are parameters: records of functions that
      return a value or raise. *)

From Stdlib Require Import List Bool ZArith NArith Lia String Ascii.
From Stdlib Require Import Floats.SpecFloat.
Import ListNotations.

(* ================================================================== *)
(** * Python strings *)
(* ================================================================== *)

Module PyStr.

Definition char := N.
Definition str := list char.

Definition chr_eqb (a b : char) : bool := N.eqb a b.

Fixpoint str_eqb (a b : str) : bool :=
  match a, b with
  | [], [] => true
  | x :: a', y :: b' => chr_eqb x y && str_eqb a' b'
  | _, _ => false
  end.

(** Decoder for the UTF-8 bytes of a literal of this file; it is only used
    to write the string constants of the source. *)
Fixpoint utf8_decode (bs : list N) : str :=
  match bs with
  | [] => []
  | b :: r =>
      if (b <? 128)%N then b :: utf8_decode r
      else if (b <? 224)%N then
        match r with
        | b1 :: r' => ((b - 192) * 64 + (b1 - 128))%N :: utf8_decode r'
        | _ => []
        end
      else if (b <? 240)%N then
        match r with
        | b1 :: b2 :: r' =>
            ((b - 224) * 4096 + (b1 - 128) * 64 + (b2 - 128))%N
              :: utf8_decode r'
        | _ => []
        end
      else
        match r with
        | b1 :: b2 :: b3 :: r' =>
            ((b - 240) * 262144 + (b1 - 128) * 4096
             + (b2 - 128) * 64 + (b3 - 128))%N :: utf8_decode r'
        | _ => []
        end
  end.

Definition u (s : string) : str :=
  utf8_decode (map N_of_ascii (list_ascii_of_string s)).

Definition nl : char := 10%N.
Definition sp : char := 32%N.

(** [str.isspace] on one character, as CPython's [_PyUnicode_IsWhitespace]:
    the characters of bidirectional type WS, B or S, or of category Zs. *)
Definition isspace (c : char) : bool :=
  ((9 <=? c) && (c <=? 13) || (28 <=? c) && (c <=? 32)
   || (c =? 133) || (c =? 160) || (c =? 5760)
   || (8192 <=? c) && (c <=? 8202)
   || (c =? 8232) || (c =? 8233) || (c =? 8239) || (c =? 8287)
   || (c =? 12288))%N.

(** [s.lstrip()], [s.rstrip()], [s.strip()] with no argument. *)
Fixpoint lstrip (s : str) : str :=
  match s with
  | [] => []
  | c :: s' => if isspace c then lstrip s' else s
  end.

Definition rstrip (s : str) : str := rev (lstrip (rev s)).

Definition strip (s : str) : str := rstrip (lstrip s).

(** [s.split()] with no argument: the maximal runs of non-whitespace
    characters.  [tok] is the current run, reversed. *)
Fixpoint split_ws_from (s tok : str) : list str :=
  match s with
  | [] => match tok with [] => [] | _ => [rev tok] end
  | c :: s' =>
      if isspace c then
        match tok with
        | [] => split_ws_from s' []
        | _ => rev tok :: split_ws_from s' []
        end
      else split_ws_from s' (c :: tok)
  end.

Definition split_ws (s : str) : list str := split_ws_from s [].

(** [s.split(sep)] for a one-character separator: every occurrence cuts,
    empty pieces are kept.  [cur] is the current piece, reversed. *)
Fixpoint split_from (sep : char) (s cur : str) : list str :=
  match s with
  | [] => [rev cur]
  | c :: s' =>
      if chr_eqb c sep then rev cur :: split_from sep s' []
      else split_from sep s' (c :: cur)
  end.

Definition split (sep : char) (s : str) : list str := split_from sep s [].

(** [sep.join(l)]. *)
Fixpoint join (sep : str) (l : list str) : str :=
  match l with
  | [] => []
  | x :: l' =>
      match l' with
      | [] => x
      | _ => x ++ sep ++ join sep l'
      end
  end.

(** Truth value of a string: [not s] is [is_empty s]. *)
Definition is_empty (s : str) : bool :=
  match s with [] => true | _ => false end.

(** [s.startswith(p)]. *)
Fixpoint startswith (p s : str) : bool :=
  match p, s with
  | [], _ => true
  | x :: p', y :: s' => chr_eqb x y && startswith p' s'
  | _, _ => false
  end.

End PyStr.
Import PyStr.

(* ================================================================== *)
(** * Python floats (binary64) *)
(* ================================================================== *)

Module PyFloat.

Definition prec : Z := 53.
Definition emax : Z := 1024.

Definition float := spec_float.

(** [float(z)] for an int; exact when [|z| < 2^53]. *)
Definition of_int (z : Z) : float := binary_normalize prec emax z 0 false.

Definition fdiv (x y : float) : float := SFdiv prec emax x y.

(** An int as the floating-point datum whose mantissa is the int itself,
    at exponent 0: nothing is rounded. *)
Definition exact_int (z : Z) : float :=
  match z with
  | 0%Z => S754_zero false
  | Zpos p => S754_finite false p 0
  | Zneg p => S754_finite true p 0
  end.

Definition is_inf (x : float) : bool :=
  match x with S754_infinity _ => true | _ => false end.

(** [a / b] on two ints with [b <> 0] (CPython's [long_true_divide]): the
    exact quotient of the two ints, of any size, rounded once to the
    nearest double, ties to even.  [SFdiv] takes the two ints as they
    are, as mantissas at exponent 0, so nothing is rounded before the
    division.  The result is an infinity for a quotient too large for a
    float, where Python raises [OverflowError]: [int_truediv] below is the
    division with its errors. *)
Definition truediv (a b : Z) : float :=
  SFdiv prec emax (exact_int a) (exact_int b).

(** [x < y], [x <= y], [x > y] on floats; every comparison with a NaN is
    false. *)
Definition ltb (x y : float) : bool := SFltb x y.
Definition leb (x y : float) : bool := SFleb x y.
Definition gtb (x y : float) : bool := SFltb y x.

(** The builtins [min(a, b)] and [max(a, b)] on two arguments: the first
    argument is kept unless the second is strictly smaller (larger). *)
Definition py_min (a b : float) : float := if ltb b a then b else a.
Definition py_max (a b : float) : float := if gtb b a then b else a.

(** The decimal literals of the source.  A literal [n/d] with small [n]
    and [d] denotes the double nearest to the fraction, which is what the
    correctly rounded quotient of [n] by [d] is. *)
Definition f0_0 : float := S754_zero false.
Definition f0_1 : float := Eval vm_compute in truediv 1 10.
Definition f0_3 : float := Eval vm_compute in truediv 3 10.
Definition f0_7 : float := Eval vm_compute in truediv 7 10.
Definition f0_9 : float := Eval vm_compute in truediv 9 10.
Definition f1_0 : float := Eval vm_compute in of_int 1.
Definition f2_0 : float := Eval vm_compute in of_int 2.
Definition f5_0 : float := Eval vm_compute in of_int 5.
Definition f100 : float := Eval vm_compute in of_int 100.

(** [m] is the integer nearest to [n / d], ties to even: what the
    rounding of a quotient selects. *)
Definition nearest_even (n d m : Z) : Prop :=
  (2 * d * m - d <= 2 * n <= 2 * d * m + d
   /\ (2 * n = 2 * d * m + d -> Z.even m = true)
   /\ (2 * n = 2 * d * m - d -> Z.even m = true))%Z.

(** The double of mantissa [m1] in [2^52, 2^53] at exponent [x - 52]. *)
Definition normal (m1 x : Z) : float :=
  if (m1 =? 2 ^ 53)%Z then S754_finite false (Z.to_pos (2 ^ 52)) (x - 51)
  else S754_finite false (Z.to_pos m1) (x - 52).

Definition inexact (l : location) : bool :=
  match l with loc_Exact => false | _ => true end.

End PyFloat.
Import PyFloat.

(* ================================================================== *)
(** * Exceptions and the trace of effects *)
(* ================================================================== *)

Module Eff.

(** A raised exception; [str(e)] is its message. *)
Inductive exn : Type := Exn (msg : str).

Definition exn_str (e : exn) : str := match e with Exn m => m end.

Inductive result (A : Type) : Type :=
| Ok (a : A)
| Raise (e : exn).
Arguments Ok {A} a.
Arguments Raise {A} e.

(** What a call leaves behind: the Streamlit messages it displayed and the
    entries into [generate_response] with their arguments. *)
Inductive event : Type :=
| StError (msg : str)
| StWarning (msg : str)
| StInfo (msg : str)
| StSuccess (msg : str)
| CallGenerate (prompt : str) (max_length : option Z).

(** A computation returns or raises, and leaves a trace. *)
Definition M (A : Type) : Type := (result A * list event)%type.

Definition ret {A} (a : A) : M A := (Ok a, []).
Definition raise {A} (e : exn) : M A := (Raise e, []).
Definition lift {A} (r : result A) : M A := (r, []).
Definition tell (ev : event) : M unit := (Ok tt, [ev]).

Definition bind {A B} (m : M A) (f : A -> M B) : M B :=
  match m with
  | (Ok a, t) => let (r, t') := f a in (r, t ++ t')
  | (Raise e, t) => (Raise e, t)
  end.

(** [try: body  except Exception as e: handler e]. *)
Definition try_except {A} (body : M A) (handler : exn -> M A) : M A :=
  match body with
  | (Ok a, t) => (Ok a, t)
  | (Raise e, t) => let (r, t') := handler e in (r, t ++ t')
  end.

Definition value {A} (m : M A) : result A := fst m.
Definition trace {A} (m : M A) : list event := snd m.

Definition returns {A} (m : M A) (a : A) : Prop := value m = Ok a.

(** No entry into [generate_response] in a trace. *)
Definition is_generate (ev : event) : bool :=
  match ev with CallGenerate _ _ => true | _ => false end.

Definition no_generation (t : list event) : Prop :=
  forallb (fun ev => negb (is_generate ev)) t = true.

End Eff.
Import Eff.

Declare Scope eff_scope.
Delimit Scope eff_scope with eff.
Notation "x <- m ;; k" := (bind m (fun x => k))
  (at level 61, m at next level, right associativity) : eff_scope.
Notation "m ;;; k" := (bind m (fun _ => k))
  (at level 61, right associativity) : eff_scope.
Open Scope eff_scope.

(** [a / b] on two ints as Python evaluates it: [ZeroDivisionError] for
    [b = 0], [OverflowError] for a quotient too large for a float. *)
Definition int_truediv (a b : Z) : result float :=
  if (b =? 0)%Z then Raise (Exn (u "division by zero"))
  else if is_inf (truediv a b)
       then Raise (Exn (u "integer division result too large for a float"))
  else Ok (truediv a b).

(** Python dictionaries with string keys, as the source writes them:
    the association list of the literal, in order. *)
Module PyDict.

Definition dict (V : Type) : Type := list (str * V).

Fixpoint lookup {V} (d : dict V) (k : str) : option V :=
  match d with
  | [] => None
  | (k', v) :: d' => if str_eqb k' k then Some v else lookup d' k
  end.

(** [d[k]]: raises [KeyError] on a missing key. *)
Definition index {V} (d : dict V) (k : str) : result V :=
  match lookup d k with
  | Some v => Ok v
  | None => Raise (Exn k)
  end.

(** [d.get(k, default)]. *)
Definition get {V} (d : dict V) (k : str) (default : V) : V :=
  match lookup d k with
  | Some v => v
  | None => default
  end.

End PyDict.

(* ================================================================== *)
(** * ocr_processor.py *)
(* ================================================================== *)

Module OCR.

(** The libraries behind [OCRProcessor]: PIL ([Image.open]), numpy
    ([np.array], [image.shape]), OpenCV and pytesseract, and the builtin
    [int] on the cells of Tesseract's table.  The constant arguments of
    the source are fixed in the field's meaning:
    [cv2.cvtColor(image, cv2.COLOR_BGR2GRAY)],
    [cv2.GaussianBlur(gray, (5, 5), 0)],
    [cv2.threshold(blurred, 0, 255, THRESH_BINARY + THRESH_OTSU)[1]],
    [cv2.morphologyEx(thresh, cv2.MORPH_CLOSE, np.ones((1, 1), np.uint8))],
    [pytesseract.image_to_data(..., output_type=Output.DICT)]. *)
Record Libs : Type := {
  upload : Type;
  pil_image : Type;
  ndarray : Type;
  cell : Type;
  Image_open : upload -> result pil_image;
  np_array : pil_image -> result ndarray;
  shape : ndarray -> list Z;
  cv2_cvtColor : ndarray -> result ndarray;
  cv2_GaussianBlur : ndarray -> result ndarray;
  cv2_threshold : ndarray -> result ndarray;
  cv2_morphologyEx : ndarray -> result ndarray;
  image_to_string : ndarray -> str -> result str;
  image_to_data : ndarray -> str -> result (PyDict.dict (list cell));
  py_int : cell -> result Z
}.

(** [self.custom_config] (a raw string: its backslashes are characters). *)
Definition custom_config : str := Eval vm_compute in
  u "--oem 3 --psm 6 -c tessedit_char_whitelist=ABCDEFGHIJKLMNOPQRSTUVWXYZabcdefghijklmnopqrstuvwxyz0123456789.,!?;:()[]{}"
  ++ [34%N] ++ u "\'-_+=/\\|@#$%^&*~`<>".

Definition lang_en : str := Eval vm_compute in u "en".
Definition lang_es : str := Eval vm_compute in u "es".

(** [clean_text]: the loop over the lines, appending to [cleaned_lines]. *)
Definition clean_text (text : str) : str :=
  let lines := split nl text in
  let cleaned_lines :=
    fold_left
      (fun (cleaned_lines : list str) (line : str) =>
         let line := join [sp] (split_ws line) in
         if negb (is_empty (strip line))
         then cleaned_lines ++ [line]
         else cleaned_lines)
      lines [] in
  join [nl] cleaned_lines.

(** [detect_language]. *)
Definition detect_language (text : str) : str :=
  let non_ascii_count :=
    Z.of_nat (List.length (filter (fun char => (127 <? char)%N) text)) in
  let total_chars := Z.of_nat (List.length text) in
  if (total_chars =? 0)%Z then lang_en
  else
    let non_ascii_ratio := truediv non_ascii_count total_chars in
    if gtb non_ascii_ratio f0_3 then lang_es else lang_en.

Section WithLibs.

Variable L : Libs.

(** [preprocess_image]. *)
Definition preprocess_image (image : ndarray L) : M (ndarray L) :=
  gray <- (if (Z.of_nat (List.length (shape L image)) =? 3)%Z
           then lift (cv2_cvtColor L image)
           else ret image) ;;
  blurred <- lift (cv2_GaussianBlur L gray) ;;
  thresh <- lift (cv2_threshold L blurred) ;;
  cleaned <- lift (cv2_morphologyEx L thresh) ;;
  ret cleaned.

(** [extract_text]. *)
Definition extract_text (image : ndarray L) : M str :=
  try_except
    (processed_image <- preprocess_image image ;;
     text <- lift (image_to_string L processed_image custom_config) ;;
     let cleaned_text := clean_text text in
     ret cleaned_text)
    (fun e =>
       tell (StError (u "Error in OCR processing: " ++ exn_str e)) ;;;
       ret []).

(** The comprehension [[int(conf) for conf in col if int(conf) > 0]]. *)
Fixpoint positive_confidences (col : list (cell L)) : result (list Z) :=
  match col with
  | [] => Ok []
  | conf :: col' =>
      match py_int L conf with
      | Raise e => Raise e
      | Ok test =>
          if (test >? 0)%Z then
            match py_int L conf with
            | Raise e => Raise e
            | Ok v =>
                match positive_confidences col' with
                | Raise e => Raise e
                | Ok vs => Ok (v :: vs)
                end
            end
          else positive_confidences col'
      end
  end.

(** The builtin [sum] on a list of ints. *)
Definition py_sum (l : list Z) : Z := fold_left Z.add l 0%Z.

(** The column [data['conf']] of Tesseract's table for the preprocessed
    image. *)
Definition conf_column (image : ndarray L) : M (list (cell L)) :=
  processed_image <- preprocess_image image ;;
  data <- lift (image_to_data L processed_image custom_config) ;;
  lift (PyDict.index data (u "conf")).

(** The body of the [try] of [get_text_confidence]. *)
Definition confidence_body (image : ndarray L) : M float :=
  col <- conf_column image ;;
  confidences <- lift (positive_confidences col) ;;
  if negb (Nat.eqb (List.length confidences) 0)
  then lift (int_truediv (py_sum confidences)
               (Z.of_nat (List.length confidences)))
  else ret f0_0.

(** [get_text_confidence]. *)
Definition get_text_confidence (image : ndarray L) : M float :=
  try_except
    (confidence_body image)
    (fun e =>
       tell (StWarning (u "Could not calculate confidence: " ++ exn_str e)) ;;;
       ret f0_0).

(** [process_uploaded_image]. *)
Definition process_uploaded_image (uploaded_file : upload L)
  : M (str * float * str) :=
  try_except
    (image <- lift (Image_open L uploaded_file) ;;
     image_array <- lift (np_array L image) ;;
     text <- extract_text image_array ;;
     confidence <- get_text_confidence image_array ;;
     let language := detect_language text in
     ret (text, confidence, language))
    (fun e =>
       tell (StError (u "Error processing uploaded image: " ++ exn_str e)) ;;;
       ret ([], f0_0, lang_en)).

End WithLibs.

End OCR.

(* ================================================================== *)
(** * ai_engine.py *)
(* ================================================================== *)

Module Engine.

(** The tokenizer and the model behind [AIEngine]:
    [AutoTokenizer.from_pretrained], [AutoModelForCausalLM.from_pretrained],
    [tokenizer.encode(prompt, return_tensors="pt", truncation=True,
    max_length=...)], [inputs.to(device)], [model.generate(inputs,
    max_length=..., temperature=..., top_p=..., do_sample=True, ...)] and
    [tokenizer.decode(outputs[0], skip_special_tokens=True)].  Sampling is
    left to the parameter: every theorem holds for all its outcomes. *)
Record Libs : Type := {
  tensor : Type;
  cuda_is_available : bool;
  tokenizer_from_pretrained : str -> result unit;
  model_from_pretrained : str -> result unit;
  encode : str -> Z -> result tensor;
  to_device : tensor -> result tensor;
  generate : tensor -> Z -> float -> float -> result (list tensor);
  decode : tensor -> result str
}.

Definition prompt_summarize_en : str := Eval vm_compute in
  u "You are a helpful educational assistant. Summarize the following textbook content in simple terms that a 12-year-old student can understand. Focus on the main concepts and explain them clearly:"
  ++ [nl; nl]
  ++ u "{text}"
  ++ [nl; nl]
  ++ u "Summary:".

Definition prompt_summarize_es : str := Eval vm_compute in
  u "Eres un asistente educativo útil. Resume el siguiente contenido del libro de texto en términos simples que un estudiante de 12 años pueda entender. Enfócate en los conceptos principales y explícalos claramente:"
  ++ [nl; nl]
  ++ u "{text}"
  ++ [nl; nl]
  ++ u "Resumen:".

Definition prompt_summarize_fr : str := Eval vm_compute in
  u "Vous êtes un assistant éducatif utile. Résumez le contenu suivant du manuel en termes simples qu'un étudiant de 12 ans peut comprendre. Concentrez-vous sur les concepts principaux et expliquez-les clairement:"
  ++ [nl; nl]
  ++ u "{text}"
  ++ [nl; nl]
  ++ u "Résumé:".

Definition prompt_summarize_de : str := Eval vm_compute in
  u "Sie sind ein hilfreicher Bildungsassistent. Fassen Sie den folgenden Lehrbuchinhalt in einfachen Begriffen zusammen, die ein 12-jähriger Schüler verstehen kann. Konzentrieren Sie sich auf die Hauptkonzepte und erklären Sie sie klar:"
  ++ [nl; nl]
  ++ u "{text}"
  ++ [nl; nl]
  ++ u "Zusammenfassung:".

Definition prompt_answer_question_en : str := Eval vm_compute in
  u "You are a helpful educational assistant. Answer the following question in a way that a school student can understand. Provide a clear, accurate, and educational response:"
  ++ [nl; nl]
  ++ u "Question: {question}"
  ++ [nl; nl]
  ++ u "Answer:".

Definition prompt_answer_question_es : str := Eval vm_compute in
  u "Eres un asistente educativo útil. Responde la siguiente pregunta de una manera que un estudiante escolar pueda entender. Proporciona una respuesta clara, precisa y educativa:"
  ++ [nl; nl]
  ++ u "Pregunta: {question}"
  ++ [nl; nl]
  ++ u "Respuesta:".

Definition prompt_answer_question_fr : str := Eval vm_compute in
  u "Vous êtes un assistant éducatif utile. Répondez à la question suivante d'une manière qu'un étudiant peut comprendre. Fournissez une réponse claire, précise et éducative:"
  ++ [nl; nl]
  ++ u "Question: {question}"
  ++ [nl; nl]
  ++ u "Réponse:".

Definition prompt_answer_question_de : str := Eval vm_compute in
  u "Sie sind ein hilfreicher Bildungsassistent. Beantworten Sie die folgende Frage so, dass ein Schüler sie verstehen kann. Geben Sie eine klare, genaue und lehrreiche Antwort:"
  ++ [nl; nl]
  ++ u "Frage: {question}"
  ++ [nl; nl]
  ++ u "Antwort:".

Definition prompt_explain_concept_en : str := Eval vm_compute in
  u "You are a helpful educational assistant. Explain the following concept in simple terms that a student can understand. Use examples and analogies if helpful:"
  ++ [nl; nl]
  ++ u "Concept: {concept}"
  ++ [nl; nl]
  ++ u "Explanation:".

Definition prompt_explain_concept_es : str := Eval vm_compute in
  u "Eres un asistente educativo útil. Explica el siguiente concepto en términos simples que un estudiante pueda entender. Usa ejemplos y analogías si es útil:"
  ++ [nl; nl]
  ++ u "Concepto: {concept}"
  ++ [nl; nl]
  ++ u "Explicación:".

Definition prompt_explain_concept_fr : str := Eval vm_compute in
  u "Vous êtes un assistant éducatif utile. Expliquez le concept suivant en termes simples qu'un étudiant peut comprendre. Utilisez des exemples et des analogies si c'est utile:"
  ++ [nl; nl]
  ++ u "Concept: {concept}"
  ++ [nl; nl]
  ++ u "Explication:".

Definition prompt_explain_concept_de : str := Eval vm_compute in
  u "Sie sind ein hilfreicher Bildungsassistent. Erklären Sie das folgende Konzept in einfachen Begriffen, die ein Schüler verstehen kann. Verwenden Sie Beispiele und Analogien, wenn es hilfreich ist:"
  ++ [nl; nl]
  ++ u "Konzept: {concept}"
  ++ [nl; nl]
  ++ u "Erklärung:".

Definition k_en : str := Eval vm_compute in u "en".
Definition k_es : str := Eval vm_compute in u "es".
Definition k_fr : str := Eval vm_compute in u "fr".
Definition k_de : str := Eval vm_compute in u "de".
Definition k_summarize : str := Eval vm_compute in u "summarize".
Definition k_answer_question : str := Eval vm_compute in u "answer_question".
Definition k_explain_concept : str := Eval vm_compute in u "explain_concept".

(** [self.prompts]. *)
Definition prompts : PyDict.dict (PyDict.dict str) :=
  [ (k_summarize,
     [ (k_en, prompt_summarize_en); (k_es, prompt_summarize_es);
       (k_fr, prompt_summarize_fr); (k_de, prompt_summarize_de) ]);
    (k_answer_question,
     [ (k_en, prompt_answer_question_en); (k_es, prompt_answer_question_es);
       (k_fr, prompt_answer_question_fr); (k_de, prompt_answer_question_de) ]);
    (k_explain_concept,
     [ (k_en, prompt_explain_concept_en); (k_es, prompt_explain_concept_es);
       (k_fr, prompt_explain_concept_fr); (k_de, prompt_explain_concept_de) ]) ].

(** The attributes of an [AIEngine] that the methods read or write; the
    tokenizer and the model objects are behind [Libs]. *)
Record AIEngine : Type := {
  model_loaded : bool;
  model_name : str;
  max_length : Z;
  temperature : float;
  top_p : float
}.

(** [AIEngine.__init__]. *)
Definition init : AIEngine :=
  {| model_loaded := false;
     model_name := u "google/gemma-2-9b-it";
     max_length := 2048;
     temperature := f0_7;
     top_p := f0_9 |}.

(** [update_settings]: an argument left at [None] keeps the attribute. *)
Definition update_settings (self : AIEngine)
    (temperature' : option float) (top_p' : option float)
    (max_length' : option Z) : AIEngine :=
  let self :=
    match temperature' with
    | Some t =>
        {| model_loaded := model_loaded self; model_name := model_name self;
           max_length := max_length self;
           temperature := py_max f0_1 (py_min f2_0 t);
           top_p := top_p self |}
    | None => self
    end in
  let self :=
    match top_p' with
    | Some p =>
        {| model_loaded := model_loaded self; model_name := model_name self;
           max_length := max_length self;
           temperature := temperature self;
           top_p := py_max f0_1 (py_min f1_0 p) |}
    | None => self
    end in
  match max_length' with
  | Some m =>
      {| model_loaded := model_loaded self; model_name := model_name self;
         max_length := Z.max 100 (Z.min 4096 m);
         temperature := temperature self;
         top_p := top_p self |}
  | None => self
  end.

(** [str.format] with keyword arguments, for the replacement fields the
    templates use: [{name}] is replaced by the argument of that name
    ([KeyError] when there is none), [{{] and [}}] are the escaped braces,
    a lone [}] or an unclosed [{] is a [ValueError].  Conversions and
    format specifications ([!r], [:>8]), attribute and index lookups and
    positional fields do not occur in the templates and are refused.
    [field] is the name being read, reversed. *)
Definition lbrace : char := 123%N.
Definition rbrace : char := 125%N.

Definition plain_name_char (c : char) : bool :=
  negb (chr_eqb c lbrace || chr_eqb c 33%N || chr_eqb c 58%N
        || chr_eqb c 46%N || chr_eqb c 91%N).

Fixpoint format_from (kwargs : PyDict.dict str) (t : str)
    (field : option str) : result str :=
  match t with
  | [] =>
      match field with
      | None => Ok []
      | Some _ => Raise (Exn (u "expected '}' before end of string"))
      end
  | c :: t' =>
      match field with
      | Some name =>
          if chr_eqb c rbrace then
            match PyDict.index kwargs (rev name) with
            | Raise e => Raise e
            | Ok v =>
                match format_from kwargs t' None with
                | Raise e => Raise e
                | Ok rest => Ok (v ++ rest)
                end
            end
          else if plain_name_char c then format_from kwargs t' (Some (c :: name))
          else Raise (Exn (u "unsupported replacement field"))
      | None =>
          if chr_eqb c lbrace then
            match t' with
            | c' :: t'' =>
                if chr_eqb c' lbrace then
                  match format_from kwargs t'' None with
                  | Raise e => Raise e
                  | Ok rest => Ok (lbrace :: rest)
                  end
                else format_from kwargs t' (Some [])
            | [] => Raise (Exn (u "Single '{' encountered in format string"))
            end
          else if chr_eqb c rbrace then
            match t' with
            | c' :: t'' =>
                if chr_eqb c' rbrace then
                  match format_from kwargs t'' None with
                  | Raise e => Raise e
                  | Ok rest => Ok (rbrace :: rest)
                  end
                else Raise (Exn (u "Single '}' encountered in format string"))
            | [] => Raise (Exn (u "Single '}' encountered in format string"))
            end
          else
            match format_from kwargs t' None with
            | Raise e => Raise e
            | Ok rest => Ok (c :: rest)
            end
      end
  end.

Definition format (template : str) (kwargs : PyDict.dict str) : result str :=
  format_from kwargs template None.

Section WithLibs.

Variable L : Libs.

Definition device : str :=
  if cuda_is_available L then u "cuda" else u "cpu".

Definition set_model_name (self : AIEngine) (name : str) : AIEngine :=
  {| model_loaded := model_loaded self; model_name := name;
     max_length := max_length self; temperature := temperature self;
     top_p := top_p self |}.

Definition set_model_loaded (self : AIEngine) (b : bool) : AIEngine :=
  {| model_loaded := b; model_name := model_name self;
     max_length := max_length self; temperature := temperature self;
     top_p := top_p self |}.

(** [load_model]: returns the engine after the call and the boolean the
    method returns. *)
Definition load_model (self : AIEngine) (model_name' : option str)
  : M (AIEngine * bool) :=
  let self :=
    match model_name' with
    | Some name => if is_empty name then self else set_model_name self name
    | None => self
    end in
  try_except
    (_ <- lift (tokenizer_from_pretrained L (model_name self)) ;;
     _ <- lift (model_from_pretrained L (model_name self)) ;;
     tell (StSuccess (u "AI model loaded successfully!")) ;;;
     ret (set_model_loaded self true, true))
    (fun e =>
       tell (StError (u "Error loading model: " ++ exn_str e)) ;;;
       tell (StInfo (u "Trying to load a smaller model...")) ;;;
       try_except
         (let fallback_model := u "microsoft/DialoGPT-medium" in
          _ <- lift (tokenizer_from_pretrained L fallback_model) ;;
          _ <- lift (model_from_pretrained L fallback_model) ;;
          tell (StSuccess (u "Fallback model loaded successfully!")) ;;;
          ret (set_model_loaded self true, true))
         (fun e2 =>
            tell (StError (u "Error loading fallback model: " ++ exn_str e2)) ;;;
            ret (self, false))).

(** [max_length or self.max_length]. *)
Definition or_default (max_length' : option Z) (default : Z) : Z :=
  match max_length' with
  | Some m => if (m =? 0)%Z then default else m
  | None => default
  end.

(** [outputs[0]]. *)
Definition first_output (outputs : list (tensor L)) : result (tensor L) :=
  match outputs with
  | o :: _ => Ok o
  | [] => Raise (Exn (u "index 0 is out of bounds"))
  end.

(** The first part of the [try] of [generate_response]: tokenize, move to
    the device, generate, decode; the decoded [response]. *)
Definition model_output (self : AIEngine) (prompt : str)
    (max_length' : option Z) : M str :=
  inputs <- lift (encode L prompt (max_length self)) ;;
  inputs <- (if cuda_is_available L then lift (to_device L inputs)
             else ret inputs) ;;
  outputs <- lift (generate L inputs (or_default max_length' (max_length self))
                     (temperature self) (top_p self)) ;;
  output <- lift (first_output outputs) ;;
  response <- lift (decode L output) ;;
  ret response.

(** The body of the [try] of [generate_response]: the decoded response
    without its first [len(prompt)] characters, stripped. *)
Definition run_model (self : AIEngine) (prompt : str)
    (max_length' : option Z) : M str :=
  response <- model_output self prompt max_length' ;;
  let generated_text := strip (skipn (List.length prompt) response) in
  ret generated_text.

(** [generate_response]; the entry is recorded in the trace. *)
Definition generate_response (self : AIEngine) (prompt : str)
    (max_length' : option Z) : M str :=
  tell (CallGenerate prompt max_length') ;;;
  if negb (model_loaded self) then
    tell (StError (u "Model not loaded. Please load the model first.")) ;;;
    ret []
  else
    try_except
      (run_model self prompt max_length')
      (fun e =>
         tell (StError (u "Error generating response: " ++ exn_str e)) ;;;
         ret []).

Definition msg_no_text : str :=
  Eval vm_compute in u "No text provided for summarization.".
Definition msg_no_question : str :=
  Eval vm_compute in u "No question provided.".
Definition msg_no_concept : str :=
  Eval vm_compute in u "No concept provided for explanation.".
Definition msg_unable_summary : str :=
  Eval vm_compute in u "Unable to generate summary at this time.".
Definition msg_unable_answer : str :=
  Eval vm_compute in u "Unable to generate answer at this time.".
Definition msg_unable_explanation : str :=
  Eval vm_compute in u "Unable to generate explanation at this time.".

(** The prompt of each task: the template of the language, the English
    one when the language has none, with the text put in its field. *)
Definition template_for (kind language : str) : result str :=
  match PyDict.index prompts kind with
  | Raise e => Raise e
  | Ok by_language =>
      match PyDict.index prompts kind with
      | Raise e => Raise e
      | Ok by_language' =>
          match PyDict.index by_language' k_en with
          | Raise e => Raise e
          | Ok english => Ok (PyDict.get by_language language english)
          end
      end
  end.

Definition summarize_prompt (text language : str) : result str :=
  match template_for k_summarize language with
  | Raise e => Raise e
  | Ok prompt_template => format prompt_template [(u "text", text)]
  end.

Definition answer_prompt (question language : str) : result str :=
  match template_for k_answer_question language with
  | Raise e => Raise e
  | Ok prompt_template => format prompt_template [(u "question", question)]
  end.

Definition explain_prompt (concept language : str) : result str :=
  match template_for k_explain_concept language with
  | Raise e => Raise e
  | Ok prompt_template => format prompt_template [(u "concept", concept)]
  end.

(** [summarize_text]. *)
Definition summarize_text (self : AIEngine) (text language : str) : M str :=
  if is_empty (strip text) then ret msg_no_text
  else
    prompt <- lift (summarize_prompt text language) ;;
    summary <- generate_response self prompt (Some 500%Z) ;;
    if is_empty summary then ret msg_unable_summary else ret summary.

(** [answer_question]. *)
Definition answer_question (self : AIEngine) (question language : str)
  : M str :=
  if is_empty (strip question) then ret msg_no_question
  else
    prompt <- lift (answer_prompt question language) ;;
    answer <- generate_response self prompt (Some 800%Z) ;;
    if is_empty answer then ret msg_unable_answer else ret answer.

(** [explain_concept]. *)
Definition explain_concept (self : AIEngine) (concept language : str)
  : M str :=
  if is_empty (strip concept) then ret msg_no_concept
  else
    prompt <- lift (explain_prompt concept language) ;;
    explanation <- generate_response self prompt (Some 600%Z) ;;
    if is_empty explanation then ret msg_unable_explanation
    else ret explanation.

(** The dictionary [translation_prompts] of [translate_text]: four
    f-strings around the text. *)
Definition translation_prompts (text : str) : PyDict.dict str :=
  [ (k_es, u "Translate the following text to Spanish:" ++ [nl; nl] ++ text
           ++ [nl; nl] ++ u "Translation:");
    (k_fr, u "Translate the following text to French:" ++ [nl; nl] ++ text
           ++ [nl; nl] ++ u "Translation:");
    (k_de, u "Translate the following text to German:" ++ [nl; nl] ++ text
           ++ [nl; nl] ++ u "Translation:");
    (k_en, u "Translate the following text to English:" ++ [nl; nl] ++ text
           ++ [nl; nl] ++ u "Translation:") ].

Definition translate_prompt (text target_language : str) : result str :=
  match PyDict.index (translation_prompts text) k_en with
  | Raise e => Raise e
  | Ok english =>
      Ok (PyDict.get (translation_prompts text) target_language english)
  end.

(** [translate_text]. *)
Definition translate_text (self : AIEngine) (text target_language : str)
  : M str :=
  if is_empty (strip text) then ret []
  else
    prompt <- lift (translate_prompt text target_language) ;;
    translation <- generate_response self prompt (Some 400%Z) ;;
    ret (if is_empty translation then text else translation).

End WithLibs.

End Engine.

(* ================================================================== *)
(** * The vocabulary of the specification *)
(* ================================================================== *)

Module Spec.

Import Engine.

(** Post-processing as the specification words it: split into lines,
    collapse the whitespace of each line, drop the blank lines, rejoin. *)
Definition collapse_whitespace (line : str) : str :=
  join [sp] (split_ws line).

Definition blank (line : str) : bool := forallb isspace line.

Definition clean_text_spec (text : str) : str :=
  join [nl]
    (filter (fun line => negb (blank line))
       (map collapse_whitespace (split nl text))).

(** The characters of code point above 127, and the position of their
    fraction with respect to 3/10, in exact arithmetic. *)
Definition non_ascii_count (text : str) : Z :=
  Z.of_nat (List.length (filter (fun c => (127 <? c)%N) text)).

Definition total_chars (text : str) : Z := Z.of_nat (List.length text).

Definition fraction_below_threshold (text : str) : bool :=
  (10 * non_ascii_count text <? 3 * total_chars text)%Z.

Definition fraction_above_threshold (text : str) : bool :=
  (3 * total_chars text <? 10 * non_ascii_count text)%Z.

(** The arithmetic mean of a non-empty list of ints, as a float. *)
Definition mean (l : list Z) : float :=
  truediv (fold_right Z.add 0%Z l) (Z.of_nat (List.length l)).

(** The values of a column of cells that are strictly positive. *)
Definition positive_values (values : list Z) : list Z :=
  filter (fun v => (0 <? v)%Z) values.

(** The mean of the values, 0.0 when there is none. *)
Definition mean_or_zero (values : list Z) : float :=
  match values with
  | [] => f0_0
  | _ => mean values
  end.

(** A float within [[lo, hi]]. *)
Definition in_range (lo hi x : float) : bool := leb lo x && leb x hi.

(** The valid ranges of the generation settings. *)
Definition settings_valid (self : AIEngine) : bool :=
  in_range f0_1 f2_0 (temperature self)
  && in_range f0_1 f1_0 (top_p self)
  && (100 <=? max_length self)%Z && (max_length self <=? 4096)%Z.

(** The calls that write to an engine. *)
Inductive call : Type :=
| UpdateSettings (temperature' top_p' : option float)
    (max_length' : option Z)
| LoadModel (model_name' : option str).

Definition run_call (L : Libs) (self : AIEngine) (c : call) : AIEngine :=
  match c with
  | UpdateSettings t p m => update_settings self t p m
  | LoadModel name =>
      match value (load_model L self name) with
      | Ok (self', _) => self'
      | Raise _ => self
      end
  end.

(** The task kinds and their output-length caps. *)
Inductive task_kind : Type := Summarize | Answer | Explain | Translate.

Definition cap (kind : task_kind) : Z :=
  match kind with
  | Summarize => 500 | Answer => 800 | Explain => 600 | Translate => 400
  end%Z.

Definition run_task (L : Libs) (self : AIEngine) (kind : task_kind)
    (text language : str) : M str :=
  match kind with
  | Summarize => summarize_text L self text language
  | Answer => answer_question L self text language
  | Explain => explain_concept L self text language
  | Translate => translate_text L self text language
  end.

Definition build_prompt (kind : task_kind) (text language : str)
  : result str :=
  match kind with
  | Summarize => summarize_prompt text language
  | Answer => answer_prompt text language
  | Explain => explain_prompt text language
  | Translate => translate_prompt text language
  end.

(** The template keyed by (task kind, language code), the English one for
    an unrecognized code.  The templates of the translation are the four
    f-strings with [{text}] in place of the text. *)
Definition recognized (language : str) : bool :=
  str_eqb k_en language || str_eqb k_es language
  || str_eqb k_fr language || str_eqb k_de language.

Definition by_language (en es fr de : str) (language : str) : str :=
  if str_eqb k_es language then es
  else if str_eqb k_fr language then fr
  else if str_eqb k_de language then de
  else en.

Definition translation_template (name : str) : str :=
  u "Translate the following text to " ++ name ++ u ":" ++ [nl; nl]
  ++ u "{text}" ++ [nl; nl] ++ u "Translation:".

Definition template (kind : task_kind) (language : str) : str :=
  match kind with
  | Summarize =>
      by_language prompt_summarize_en prompt_summarize_es
        prompt_summarize_fr prompt_summarize_de language
  | Answer =>
      by_language prompt_answer_question_en prompt_answer_question_es
        prompt_answer_question_fr prompt_answer_question_de language
  | Explain =>
      by_language prompt_explain_concept_en prompt_explain_concept_es
        prompt_explain_concept_fr prompt_explain_concept_de language
  | Translate =>
      by_language (translation_template (u "English"))
        (translation_template (u "Spanish"))
        (translation_template (u "French"))
        (translation_template (u "German")) language
  end.

Definition field_name (kind : task_kind) : str :=
  match kind with
  | Summarize => u "text"
  | Answer => u "question"
  | Explain => u "concept"
  | Translate => u "text"
  end.

(** The two parts of a template around its placeholder. *)
Fixpoint before_field (t : str) : str :=
  match t with
  | [] => []
  | c :: t' => if chr_eqb c lbrace then [] else c :: before_field t'
  end.

Fixpoint after_field (t : str) : str :=
  match t with
  | [] => []
  | c :: t' => if chr_eqb c rbrace then t' else after_field t'
  end.

(** The fixed messages of each task kind. *)
Definition msg_nothing_provided (kind : task_kind) : str :=
  match kind with
  | Summarize => msg_no_text
  | Answer => msg_no_question
  | Explain => msg_no_concept
  | Translate => []
  end.

(** What a task returns for a text that is not blank, from what
    [generate_response] returned: its own fixed message for an empty
    generation, except the translation, which gives the text back. *)
Definition task_output (kind : task_kind) (text generated : str) : str :=
  if is_empty generated then
    match kind with
    | Summarize => msg_unable_summary
    | Answer => msg_unable_answer
    | Explain => msg_unable_explanation
    | Translate => text
    end
  else generated.

(** Generation fails: the model is not loaded, or the generation call
    raises on every prompt. *)
Definition generation_fails (L : Libs) (self : AIEngine) : Prop :=
  model_loaded self = false
  \/ forall prompt max_length',
       exists e, value (model_output L self prompt max_length') = Raise e.

(** The generation call that a task makes, with its prompt and its cap,
    fails: the model is not loaded, or this call raises. *)
Definition call_fails (L : Libs) (self : AIEngine) (prompt : str)
    (max_length' : option Z) : Prop :=
  model_loaded self = false
  \/ exists e, value (model_output L self prompt max_length') = Raise e.

End Spec.

(* ================================================================== *)
(** * Concrete libraries, for the examples *)
(* ================================================================== *)

Module Examples.

(** A model that decodes to a given text, whatever the prompt. *)
Definition echo_libs (response : str) : Engine.Libs :=
  {| Engine.tensor := unit;
     Engine.cuda_is_available := false;
     Engine.tokenizer_from_pretrained := fun _ => Ok tt;
     Engine.model_from_pretrained := fun _ => Ok tt;
     Engine.encode := fun _ _ => Ok tt;
     Engine.to_device := fun t => Ok t;
     Engine.generate := fun _ _ _ _ => Ok [tt];
     Engine.decode := fun _ => Ok response |}.

(** A tokenizer that raises. *)
Definition failing_libs : Engine.Libs :=
  {| Engine.tensor := unit;
     Engine.cuda_is_available := false;
     Engine.tokenizer_from_pretrained := fun _ => Raise (Exn (u "offline"));
     Engine.model_from_pretrained := fun _ => Raise (Exn (u "offline"));
     Engine.encode := fun _ _ => Raise (Exn (u "tokenizer failure"));
     Engine.to_device := fun t => Ok t;
     Engine.generate := fun _ _ _ _ => Ok [tt];
     Engine.decode := fun _ => Ok [] |}.

(** A tokenizer that raises on the prompts of more than 100 characters,
    and on no other. *)
Definition short_prompt_libs (response : str) : Engine.Libs :=
  {| Engine.tensor := unit;
     Engine.cuda_is_available := false;
     Engine.tokenizer_from_pretrained := fun _ => Ok tt;
     Engine.model_from_pretrained := fun _ => Ok tt;
     Engine.encode := fun prompt _ =>
       if (100 <? Z.of_nat (List.length prompt))%Z
       then Raise (Exn (u "prompt too long"))
       else Ok tt;
     Engine.to_device := fun t => Ok t;
     Engine.generate := fun _ _ _ _ => Ok [tt];
     Engine.decode := fun _ => Ok response |}.

Definition loaded : Engine.AIEngine :=
  Engine.set_model_loaded Engine.init true.

(** An OCR stack over a one-pixel world: the upload is a unit, the text
    and the confidence column are given, and each stage can be made to
    raise. *)
Definition ocr_libs (open_ok text_ok data_ok : bool) (text : str)
    (confs : list Z) : OCR.Libs :=
  {| OCR.upload := unit;
     OCR.pil_image := unit;
     OCR.ndarray := unit;
     OCR.cell := Z;
     OCR.Image_open := fun _ =>
       if open_ok then Ok tt else Raise (Exn (u "cannot identify image file"));
     OCR.np_array := fun _ => Ok tt;
     OCR.shape := fun _ => [1%Z; 1%Z];
     OCR.cv2_cvtColor := fun a => Ok a;
     OCR.cv2_GaussianBlur := fun a => Ok a;
     OCR.cv2_threshold := fun a => Ok a;
     OCR.cv2_morphologyEx := fun a => Ok a;
     OCR.image_to_string := fun _ _ =>
       if text_ok then Ok text else Raise (Exn (u "tesseract failed"));
     OCR.image_to_data := fun _ _ =>
       if data_ok then Ok [(u "conf", confs)]
       else Raise (Exn (u "tesseract failed"));
     OCR.py_int := fun z => Ok z |}.

End Examples.

(* ================================================================== *)
(** * Shapes of strings *)
(* ================================================================== *)

Module Shape.

(** The string is empty or begins with a character that is no
    whitespace. *)
Definition nonspace_head (s : str) : bool :=
  match s with
  | [] => true
  | c :: _ => negb (isspace c)
  end.

(** A token: a non-empty string without whitespace. *)
Definition is_token (w : str) : bool :=
  negb (is_empty w) && forallb (fun c => negb (isspace c)) w.

Definition no_newline (s : str) : bool :=
  forallb (fun c => negb (chr_eqb c nl)) s.

(** A line as [clean_text] leaves it: its tokens joined by single spaces,
    with at least one token. *)
Definition clean_line (line : str) : Prop :=
  Spec.collapse_whitespace line = line
  /\ Spec.blank line = false
  /\ no_newline line = true
  /\ nonspace_head line = true
  /\ nonspace_head (rev line) = true.

(** The lines that [clean_text] keeps. *)
Definition kept_lines (text : str) : list str :=
  filter (fun line => negb (Spec.blank line))
    (map Spec.collapse_whitespace (split nl text)).

End Shape.

(* ================================================================== *)
(** * utils.py *)
(* ================================================================== *)

Module Utils.

(** The Python values that the dictionaries of mixed content hold. *)
#[warnings="-register-all"] Inductive pyval : Type :=
| VNone
| VBool (b : bool)
| VInt (z : Z)
| VFloat (x : float)
| VStr (s : str)
| VList (l : list pyval)
| VDict (d : list (str * pyval)).

(** [d[k] = v] on a dictionary: the value of an existing key is replaced
    in place, a new key goes last. *)
Fixpoint setitem {V : Type} (d : PyDict.dict V) (k : str) (v : V)
  : PyDict.dict V :=
  match d with
  | [] => [(k, v)]
  | (k', v') :: d' =>
      if str_eqb k' k then (k', v) :: d' else (k', v') :: setitem d' k v
  end.

(** [char in text] for a one-character string. *)
Definition contains (text : str) (char : char) : bool :=
  existsb (chr_eqb char) text.

(** The three string literals that [detect_language_simple] searches, as
    the source file holds them. *)
Definition spanish_marks : str := Eval vm_compute in u "Ă±ĂˇĂ©Ă­ĂłĂşĂĽ".
Definition french_marks : str := Eval vm_compute in u "Ă Ă˘Ă¤Ă©Ă¨ĂŞĂ«ĂŻĂ®Ă´Ă¶ĂąĂ»ĂĽĂżĂ§".
Definition german_marks : str := Eval vm_compute in u "Ă¤Ă¶ĂĽĂź".

Definition code_en : str := Eval vm_compute in u "en".
Definition code_es : str := Eval vm_compute in u "es".
Definition code_fr : str := Eval vm_compute in u "fr".
Definition code_de : str := Eval vm_compute in u "de".

(** [detect_language_simple]. *)
Definition detect_language_simple (text : str) : str :=
  if is_empty text then code_en
  else
    let non_ascii_count :=
      Z.of_nat (List.length (filter (fun char => (127 <? char)%N) text)) in
    let total_chars := Z.of_nat (List.length text) in
    if (total_chars =? 0)%Z then code_en
    else
      let non_ascii_ratio := truediv non_ascii_count total_chars in
      if gtb non_ascii_ratio f0_3 then
        if existsb (fun char => contains text char) spanish_marks then code_es
        else if existsb (fun char => contains text char) french_marks
             then code_fr
        else if existsb (fun char => contains text char) german_marks
             then code_de
        else code_es
      else code_en.

(** [get_language_name]. *)
Definition languages : PyDict.dict str :=
  [ (u "en", u "English"); (u "es", u "Spanish"); (u "fr", u "French");
    (u "de", u "German"); (u "it", u "Italian"); (u "pt", u "Portuguese");
    (u "ru", u "Russian"); (u "ja", u "Japanese"); (u "ko", u "Korean");
    (u "zh", u "Chinese") ].

Definition get_language_name (code : str) : str :=
  PyDict.get languages code (u "Unknown").

(** [st.session_state] read as the values of its keys. *)
Definition session_state : Type := PyDict.dict pyval.

(** [save_session_data] and [load_session_data], on [st.session_state]
    as a dictionary.  [V] is what the dictionary is taken to hold for a
    key: the value, or the address of the object where the identity of
    the object matters. *)
Definition save_session_data {V : Type} (key : str) (data : V)
    (state : PyDict.dict V) : PyDict.dict V :=
  setitem state key data.

Definition load_session_data {V : Type} (key : str) (default : V)
    (state : PyDict.dict V) : V :=
  PyDict.get state key default.




(** The uploaded file of Streamlit: its name, MIME type and size. *)
Record UploadedFile : Type := {
  file_name : str;
  file_type : str;
  file_size : Z
}.

Definition allowed_types : list str :=
  [ u "image/jpeg"; u "image/jpg"; u "image/png"; u "image/bmp";
    u "image/tiff" ].

Definition max_size : Z := 10 * 1024 * 1024.

(** [validate_image_file]. *)
Definition validate_image_file (uploaded_file : option UploadedFile)
  : M bool :=
  match uploaded_file with
  | None => ret false
  | Some f =>
      if negb (existsb (str_eqb (file_type f)) allowed_types) then
        tell (StError
                (u "Please upload a valid image file (JPEG, PNG, BMP, or TIFF)")) ;;;
        ret false
      else if (file_size f >? max_size)%Z then
        tell (StError
                (u "File size too large. Please upload an image smaller than 10MB")) ;;;
        ret false
      else ret true
  end.

(** [get_file_size_mb]. *)
Definition get_file_size_mb (file_size_bytes : Z) : float :=
  truediv file_size_bytes (1024 * 1024).

(** The widgets that [display_confidence_bar] shows. *)
Inductive widget : Type :=
| Progress (value : float)
| Caption (text : str).

(** [display_confidence_bar]; [format_1f] is the format [{confidence:.1f}]
    of a float. *)
Definition display_confidence_bar (format_1f : float -> str)
    (confidence : float) : list widget :=
  if gtb confidence (of_int 0) then
    [ Progress (fdiv confidence (of_int 100));
      Caption (u "Confidence: " ++ format_1f confidence ++ u "%") ]
  else [].

(** The file system that [cleanup_temp_files] works on, as the two calls
    it makes on it: [os.path.exists] and [os.unlink], over the states of
    the file system.  What a path names, which paths name the same file
    and which files may be deleted is the file system's affair. *)
Record FileSystem : Type := {
  files : Type;
  path_exists : files -> str -> bool;
  unlink : files -> str -> result files
}.

(** [cleanup_temp_files]: the file system after the loop.  A call of
    [os.unlink] that raises leaves the file system as it was. *)
Fixpoint cleanup_temp_files (F : FileSystem) (file_paths : list str)
    (fs : files F) : M (files F) :=
  match file_paths with
  | [] => ret fs
  | file_path :: file_paths' =>
      fs' <- try_except
               (if negb (is_empty file_path) && path_exists F fs file_path
                then lift (unlink F fs file_path)
                else ret fs)
               (fun e =>
                  tell (StWarning
                          (u "Could not delete temporary file " ++ file_path
                           ++ u ": " ++ exn_str e)) ;;;
                  ret fs) ;;
      cleanup_temp_files F file_paths' fs'
  end.

(** [AIEngine.get_model_info] (ai_engine.py). *)
Definition get_model_info (L : Engine.Libs) (self : Engine.AIEngine)
  : PyDict.dict pyval :=
  if negb (Engine.model_loaded self) then
    [ (u "status", VStr (u "Not loaded")) ]
  else
    [ (u "model_name", VStr (Engine.model_name self));
      (u "device", VStr (Engine.device L));
      (u "max_length", VInt (Engine.max_length self));
      (u "temperature", VFloat (Engine.temperature self));
      (u "top_p", VFloat (Engine.top_p self));
      (u "status", VStr (u "Loaded")) ].

(** The loop of [about_tab] (app.py) that counts the interactions of each
    type, in the dictionary [interaction_types].  The types that
    [log_interaction] writes are strings; another value is refused. *)
Fixpoint count_interaction_types (logs : list pyval)
    (interaction_types : PyDict.dict Z) : result (PyDict.dict Z) :=
  match logs with
  | [] => Ok interaction_types
  | log :: logs' =>
      match log with
      | VDict d =>
          match PyDict.get d (u "type") (VStr (u "unknown")) with
          | VStr interaction_type =>
              count_interaction_types logs'
                (setitem interaction_types interaction_type
                   (PyDict.get interaction_types interaction_type 0 + 1)%Z)
          | _ => Raise (Exn (u "unsupported interaction type"))
          end
      | _ => Raise (Exn (u "object has no attribute 'get'"))
      end
  end.

End Utils.

(* ================================================================== *)
(** * Vocabulary for the properties of utils.py *)
(* ================================================================== *)

Module UtilsSpec.

(** A character of ASCII, or one of the Latin-1 letters U+00C0..U+00FF
    (the accented letters of Spanish, French and German are all there). *)
Definition ascii_or_latin1_letter (c : char) : bool :=
  ((c <=? 127) || (192 <=? c) && (c <=? 255))%N.

(** The number of occurrences of a type in a list of types. *)
Definition occurrences (t : str) (types : list str) : Z :=
  Z.of_nat (List.length (filter (str_eqb t) types)).

(** The types in the order of their first occurrence. *)
Fixpoint first_occurrences (types seen : list str) : list str :=
  match types with
  | [] => []
  | t :: types' =>
      if existsb (str_eqb t) seen then first_occurrences types' seen
      else t :: first_occurrences types' (t :: seen)
  end.

(** The entry that [log_interaction] writes. *)
Definition log_entry (timestamp interaction_type : str)
    (details : Utils.pyval) : Utils.pyval :=
  Utils.VDict [ (u "timestamp", Utils.VStr timestamp);
                (u "type", Utils.VStr interaction_type);
                (u "details", details) ].






Definition entry_of (call : str * str * Utils.pyval) : Utils.pyval :=
  let '(timestamp, interaction_type, details) := call in
  log_entry timestamp interaction_type details.

Definition type_of (call : str * str * Utils.pyval) : str :=
  let '(_, interaction_type, _) := call in interaction_type.

(** The sum of the counts of a dictionary. *)
Definition total (counts : PyDict.dict Z) : Z :=
  fold_right Z.add 0%Z (map snd counts).


(** The warning that [cleanup_temp_files] shows for a path that
    [os.unlink] refused with the error [e]. *)
Definition cleanup_warning (path : str) (e : exn) : event :=
  StWarning (u "Could not delete temporary file " ++ path ++ u ": "
             ++ exn_str e).

(** Both the tokenizer and the model of a name can be loaded. *)
Definition loadable (L : Engine.Libs) (name : str) : bool :=
  match Engine.tokenizer_from_pretrained L name with
  | Raise _ => false
  | Ok _ =>
      match Engine.model_from_pretrained L name with
      | Raise _ => false
      | Ok _ => true
      end
  end.

Definition fallback_model : str := u "microsoft/DialoGPT-medium".

(** The model name that a call of [load_model] asks for. *)
Definition requested_name (self : Engine.AIEngine)
    (model_name' : option str) : str :=
  match model_name' with
  | Some name => if is_empty name then Engine.model_name self else name
  | None => Engine.model_name self
  end.

End UtilsSpec.

(* ================================================================== *)
(** * More concrete libraries, for the examples *)
(* ================================================================== *)

Module MoreExamples.

(** An OCR stack whose table holds cells that [int] may fail to read
    ([None] is such a cell). *)
Definition ocr_cells (text : str) (cells : list (option Z)) : OCR.Libs :=
  {| OCR.upload := unit;
     OCR.pil_image := unit;
     OCR.ndarray := unit;
     OCR.cell := option Z;
     OCR.Image_open := fun _ => Ok tt;
     OCR.np_array := fun _ => Ok tt;
     OCR.shape := fun _ => [1%Z; 1%Z; 3%Z];
     OCR.cv2_cvtColor := fun a => Ok a;
     OCR.cv2_GaussianBlur := fun a => Ok a;
     OCR.cv2_threshold := fun a => Ok a;
     OCR.cv2_morphologyEx := fun a => Ok a;
     OCR.image_to_string := fun _ _ => Ok text;
     OCR.image_to_data := fun _ _ => Ok [(u "conf", cells)];
     OCR.py_int := fun c =>
       match c with
       | Some z => Ok z
       | None => Raise (Exn (u "invalid literal for int() with base 10"))
       end |}.

(** A model hub where the requested model cannot be loaded and the
    fallback can. *)
Definition fallback_only_libs : Engine.Libs :=
  {| Engine.tensor := unit;
     Engine.cuda_is_available := false;
     Engine.tokenizer_from_pretrained := fun name =>
       if str_eqb name (u "microsoft/DialoGPT-medium") then Ok tt
       else Raise (Exn (u "out of memory"));
     Engine.model_from_pretrained := fun name =>
       if str_eqb name (u "microsoft/DialoGPT-medium") then Ok tt
       else Raise (Exn (u "out of memory"));
     Engine.encode := fun _ _ => Ok tt;
     Engine.to_device := fun t => Ok t;
     Engine.generate := fun _ _ _ _ => Ok [tt];
     Engine.decode := fun _ => Ok [] |}.

(** A file system with two files.  The first has the two names
    /tmp/a.txt and /tmp/./a.txt and can be deleted; the second, /tmp/b.txt,
    cannot.  The state tells whether the first file exists. *)
Definition names_a (path : str) : bool :=
  str_eqb path (u "/tmp/a.txt") || str_eqb path (u "/tmp/./a.txt").

Definition two_files : Utils.FileSystem :=
  {| Utils.files := bool;
     Utils.path_exists := fun fs path =>
       (fs && names_a path) || str_eqb path (u "/tmp/b.txt");
     Utils.unlink := fun fs path =>
       if fs && names_a path then Ok false
       else if str_eqb path (u "/tmp/b.txt")
            then Raise (Exn (u "[Errno 13] Permission denied: '/tmp/b.txt'"))
       else Raise (Exn (u "[Errno 2] No such file or directory")) |}.

End MoreExamples.

(* ================================================================== *)
(** * app.py: the session and the sidebar *)
(* ================================================================== *)

Module App.

(** The keys of [st.session_state] that [initialize_session_state] sets
    and [sidebar_settings] reads and writes.  The key [ocr_processor]
    holds an object without attributes and is left out. *)
Record Session : Type := {
  ai_engine : Engine.AIEngine;
  model_loaded : bool;
  current_language : str;
  audio_output_enabled : bool
}.

(** [initialize_session_state] on a new session.  On a later run of the
    script every key is present and the function writes nothing. *)
Definition initialize_session_state : Session :=
  {| ai_engine := Engine.init;
     model_loaded := false;
     current_language := u "en";
     audio_output_enabled := false |}.

(** What the widgets of the sidebar return in one run of the script: the
    two buttons, the two sliders, the select box and the check box. *)
Record Widgets : Type := {
  load_button : bool;
  reload_button : bool;
  temperature : float;
  top_p : float;
  selected_language : str;
  audio_checkbox : bool
}.

Definition set_ai_engine (s : Session) (engine : Engine.AIEngine) : Session :=
  {| ai_engine := engine; model_loaded := model_loaded s;
     current_language := current_language s;
     audio_output_enabled := audio_output_enabled s |}.

Definition set_session_flag (s : Session) (b : bool) : Session :=
  {| ai_engine := ai_engine s; model_loaded := b;
     current_language := current_language s;
     audio_output_enabled := audio_output_enabled s |}.

(** [sidebar_settings] from its section "Model settings" on. *)
Definition model_settings (s : Session) (w : Widgets) : M Session :=
  let s :=
    if model_loaded s then
      set_ai_engine s
        (Engine.update_settings (ai_engine s) (Some (temperature w))
           (Some (top_p w)) None)
    else s in
  ret {| ai_engine := ai_engine s; model_loaded := model_loaded s;
         current_language := selected_language w;
         audio_output_enabled := audio_checkbox w |}.

(** [sidebar_settings]: the session after the call.  [st.rerun()] ends
    the run of the script, so the function returns where it is called.
    The titles, captions and help texts are left out; the two messages
    are recorded as [st.success]. *)
Definition sidebar_settings (L : Engine.Libs) (s : Session) (w : Widgets)
  : M Session :=
  if negb (model_loaded s) then
    if load_button w then
      r <- Engine.load_model L (ai_engine s) None ;;
      let s := set_ai_engine s (fst r) in
      if snd r then
        let s := set_session_flag s true in
        tell (StSuccess (u "Model loaded!")) ;;;
        ret s
      else model_settings s w
    else model_settings s w
  else
    tell (StSuccess (u "✅ Model Loaded")) ;;;
    if reload_button w then ret (set_session_flag s false)
    else model_settings s w.

(** The runs of the script of one session, each with what its widgets
    return. *)
Fixpoint runs (L : Engine.Libs) (s : Session) (ws : list Widgets)
  : result Session :=
  match ws with
  | [] => Ok s
  | w :: ws' =>
      match value (sidebar_settings L s w) with
      | Ok s' => runs L s' ws'
      | Raise e => Raise e
      end
  end.

End App.

(* ================================================================== *)
(** * Vocabulary for the properties of app.py *)
(* ================================================================== *)

Module AppSpec.

(** The flag of the session is set only when the engine's is, and the
    settings of the engine are valid. *)
Definition consistent (s : App.Session) : Prop :=
  (App.model_loaded s = true -> Engine.model_loaded (App.ai_engine s) = true)
  /\ Spec.settings_valid (App.ai_engine s) = true.

End AppSpec.

(* ================================================================== *)
(** * Facts about strings *)
(* ================================================================== *)

Module PyStrFacts.

Lemma str_eqb_eq (a b : str) : str_eqb a b = true -> a = b.
Proof.
  revert b. induction a as [ | x a IH]; intros [ | y b]; cbn; try discriminate.
  - reflexivity.
  - intros H. apply andb_prop in H as [Hx Hab].
    apply N.eqb_eq in Hx. rewrite Hx, (IH b Hab). reflexivity.
Qed.

Lemma str_eqb_refl (a : str) : str_eqb a a = true.
Proof.
  induction a as [ | x a IH]; cbn; [reflexivity | ].
  unfold chr_eqb. rewrite N.eqb_refl. exact IH.
Qed.

Lemma is_empty_true (s : str) : is_empty s = true -> s = [].
Proof. destruct s; [reflexivity | discriminate]. Qed.

Lemma is_empty_rev (s : str) : is_empty (rev s) = is_empty s.
Proof.
  destruct s as [ | c s]; [reflexivity | ]. cbn.
  destruct (rev s); reflexivity.
Qed.

Lemma forallb_rev (p : char -> bool) (s : str) :
  forallb p (rev s) = forallb p s.
Proof.
  induction s as [ | c s IH]; [reflexivity | ]. cbn.
  rewrite forallb_app, IH. cbn. rewrite andb_true_r. apply andb_comm.
Qed.

Lemma is_empty_lstrip (s : str) : is_empty (lstrip s) = forallb isspace s.
Proof.
  induction s as [ | c s IH]; [reflexivity | ]. cbn.
  destruct (isspace c); [exact IH | reflexivity].
Qed.

Lemma forallb_lstrip (s : str) :
  forallb isspace (lstrip s) = forallb isspace s.
Proof.
  induction s as [ | c s IH]; [reflexivity | ]. cbn.
  destruct (isspace c) eqn:Hc; [exact IH | ]. cbn. rewrite Hc. reflexivity.
Qed.

(** [not s.strip()] holds exactly for the strings made of whitespace. *)
Lemma is_empty_strip (s : str) : is_empty (strip s) = forallb isspace s.
Proof.
  unfold strip, rstrip.
  rewrite is_empty_rev, is_empty_lstrip, forallb_rev. apply forallb_lstrip.
Qed.

Lemma strip_whitespace (s : str) : forallb isspace s = true -> strip s = [].
Proof.
  intros H. apply is_empty_true. rewrite is_empty_strip. exact H.
Qed.

End PyStrFacts.
Import PyStrFacts.

(* ================================================================== *)
(** * clean_text *)
(* ================================================================== *)

Module CleanText.

Import OCR Spec.

(** The loop of [clean_text] appends, in order, the collapsed lines that
    are not blank. *)
Lemma clean_loop (lines : list str) (cleaned_lines : list str) :
  fold_left
    (fun (cleaned_lines : list str) (line : str) =>
       let line := join [sp] (split_ws line) in
       if negb (is_empty (strip line))
       then cleaned_lines ++ [line]
       else cleaned_lines)
    lines cleaned_lines
  = cleaned_lines
    ++ filter (fun line => negb (blank line)) (map collapse_whitespace lines).
Proof.
  revert cleaned_lines.
  induction lines as [ | line lines IH]; intros acc; cbn [fold_left map filter].
  - symmetry. apply app_nil_r.
  - rewrite IH. unfold blank at 2. unfold collapse_whitespace at 2 3.
    rewrite is_empty_strip.
    destruct (forallb isspace (join [sp] (split_ws line))); cbn [negb].
    + reflexivity.
    + rewrite <- app_assoc. reflexivity.
Qed.

(** C9. For every string, [clean_text] is the post-processing of the
    specification: split on newlines, collapse the whitespace of each line
    by joining its whitespace-separated tokens with single spaces, drop the
    lines that are blank after collapsing, rejoin with single newlines. *)
Theorem clean_text_refines_spec (text : str) :
  clean_text text = clean_text_spec text.
Proof.
  unfold clean_text, clean_text_spec. rewrite clean_loop. reflexivity.
Qed.

Example clean_text_sample :
  clean_text (u "  a   b " ++ [nl; nl; 9%N; nl] ++ u "c") = u "a b" ++ [nl] ++ u "c".
Proof. vm_compute. reflexivity. Qed.

End CleanText.

(* ================================================================== *)
(** * Facts about binary64 division *)
(* ================================================================== *)

Module PyFloatFacts.

Local Open Scope Z_scope.

(** The number of binary digits of a positive number. *)
Lemma digits2_pos_bounds (p : positive) :
  2 ^ (Zpos (digits2_pos p) - 1) <= Zpos p < 2 ^ Zpos (digits2_pos p).
Proof.
  induction p as [p IH | p IH | ]; cbn [digits2_pos].
  - rewrite Pos2Z.inj_succ.
    replace (Z.succ (Zpos (digits2_pos p)) - 1) with (Z.succ (Zpos (digits2_pos p) - 1)) by lia.
    rewrite !Z.pow_succ_r by lia. lia.
  - rewrite Pos2Z.inj_succ.
    replace (Z.succ (Zpos (digits2_pos p)) - 1) with (Z.succ (Zpos (digits2_pos p) - 1)) by lia.
    rewrite !Z.pow_succ_r by lia. lia.
  - cbn. lia.
Qed.

Lemma digits2_pos_unique (p : positive) (k : Z) :
  2 ^ (k - 1) <= Zpos p < 2 ^ k -> Zpos (digits2_pos p) = k.
Proof.
  intros [Hlo Hhi].
  pose proof (digits2_pos_bounds p) as [Blo Bhi].
  set (d := Zpos (digits2_pos p)) in *.
  assert (0 < d) by (subst d; lia).
  destruct (Z.lt_trichotomy d k) as [Hlt | [Heq | Hgt]]; [ | assumption | ].
  - exfalso. assert (2 ^ d <= 2 ^ (k - 1)) by (apply Z.pow_le_mono_r; lia). lia.
  - exfalso.
    destruct (Z.le_gt_cases 0 k).
    + assert (2 ^ k <= 2 ^ (d - 1)) by (apply Z.pow_le_mono_r; lia). lia.
    + rewrite (Z.pow_neg_r 2 k) in Hhi by lia. lia.
Qed.

Lemma iter_xO_pow (m k : positive) :
  Zpos (Pos.iter xO m k) = Zpos m * 2 ^ Zpos k.
Proof.
  induction k as [ | k IH] using Pos.peano_ind.
  - cbn. lia.
  - rewrite Pos.iter_succ, Pos2Z.inj_succ, Z.pow_succ_r by lia.
    rewrite Pos2Z.inj_xO, IH. lia.
Qed.

Lemma shr_fexp_53 (m e : Z) (l : location) :
  Zdigits2 m = 53 -> -1074 <= e ->
  shr_fexp 53 1024 m e l = (shr_record_of_loc m l, e).
Proof.
  intros Hd He. unfold shr_fexp. rewrite Hd.
  unfold fexp, emin.
  replace (Z.max (53 + e - 53) (3 - 1024 - 53) - e) with 0 by lia.
  reflexivity.
Qed.

Lemma shr_fexp_54 (m e : Z) (l : location) :
  Zdigits2 m = 54 -> -1075 <= e ->
  shr_fexp 53 1024 m e l = (shr_1 (shr_record_of_loc m l), e + 1).
Proof.
  intros Hd He. unfold shr_fexp. rewrite Hd.
  unfold fexp, emin.
  replace (Z.max (54 + e - 53) (3 - 1024 - 53) - e) with 1 by lia.
  reflexivity.
Qed.

Lemma binary_round_aux_exact (s : bool) (m : positive) (e : Z) :
  Zpos (digits2_pos m) = 53 -> -1074 <= e <= 971 ->
  binary_round_aux 53 1024 s (Zpos m) e loc_Exact = S754_finite s m e.
Proof.
  intros Hd He. unfold binary_round_aux.
  rewrite shr_fexp_53 by (cbn [Zdigits2]; lia || assumption).
  cbn [shr_record_of_loc shr_m loc_of_shr_record round_nearest_even].
  rewrite shr_fexp_53 by (cbn [Zdigits2]; lia || assumption).
  cbn [shr_record_of_loc shr_m].
  replace (e <=? 1024 - 53) with true by (symmetry; apply Z.leb_le; lia).
  reflexivity.
Qed.

(** [float(a)] for [0 < a < 2^53] is exact: a 53-digit mantissa and the
    exponent that scales it back to [a]. *)
Lemma of_int_pos (a : Z) :
  0 < a < 2 ^ 53 ->
  exists m e, of_int a = S754_finite false m e
              /\ Zpos (digits2_pos m) = 53
              /\ -52 <= e <= 0
              /\ Zpos m = a * 2 ^ (- e).
Proof.
  intros [Ha0 Ha]. destruct a as [ | p | p]; try lia.
  pose proof (digits2_pos_bounds p) as [Blo Bhi].
  set (d := Zpos (digits2_pos p)) in *.
  assert (Hd : 1 <= d <= 53).
  { split; [subst d; lia | ].
    destruct (Z.le_gt_cases d 53) as [ | Hgt]; [assumption | exfalso].
    assert (2 ^ 53 <= 2 ^ (d - 1)) by (apply Z.pow_le_mono_r; lia). lia. }
  unfold of_int, binary_normalize, binary_round.
  fold d. unfold fexp, emin, prec, emax.
  replace (Z.max (d + 0 - 53) (3 - 1024 - 53)) with (d - 53) by lia.
  unfold shl_align.
  destruct (d - 53 - 0) as [ | k | k] eqn:Ek; try lia.
  - exists p, 0. rewrite Z.mul_1_r.
    split; [ | split; [ | split ]]; try lia.
    apply (binary_round_aux_exact false p 0); [fold d | ]; lia.
  - assert (Hm : Zpos (Pos.iter xO p k) = Zpos p * 2 ^ (53 - d)).
    { rewrite iter_xO_pow. f_equal. f_equal. lia. }
    assert (Hdig : Zpos (digits2_pos (Pos.iter xO p k)) = 53).
    { apply digits2_pos_unique. rewrite Hm.
      replace (2 ^ (53 - 1)) with (2 ^ (d - 1) * 2 ^ (53 - d))
        by (rewrite <- Z.pow_add_r by lia; f_equal; lia).
      replace (2 ^ 53) with (2 ^ d * 2 ^ (53 - d))
        by (rewrite <- Z.pow_add_r by lia; f_equal; lia).
      assert (0 < 2 ^ (53 - d)) by (apply Z.pow_pos_nonneg; lia).
      split; [apply Z.mul_le_mono_nonneg_r | apply Z.mul_lt_mono_pos_r]; lia. }
    exists (Pos.iter xO p k), (d - 53).
    split; [ | split; [ | split ]]; try lia.
    + apply (binary_round_aux_exact false); lia.
    + rewrite Hm. f_equal. f_equal. lia.
Qed.

(** The position of a remainder [r] with respect to half the divisor. *)
Lemma new_location_spec (d r : Z) :
  0 < d -> 0 <= r < d ->
  new_location d r = if r =? 0 then loc_Exact else loc_Inexact (2 * r ?= d).
Proof.
  intros Hd Hr. unfold new_location, new_location_even, new_location_odd.
  destruct (Z.even d) eqn:Ev; destruct (r =? 0) eqn:Er; try reflexivity.
  f_equal.
  assert (Hodd : Z.odd d = true) by (rewrite <- Z.negb_even, Ev; reflexivity).
  apply Z.odd_spec in Hodd. destruct Hodd as [k Hk].
  destruct (Z.compare_spec (2 * r + 1) d); destruct (Z.compare_spec (2 * r) d);
    try reflexivity; lia.
Qed.

Lemma loc_of_record_of (m : Z) (l : location) :
  loc_of_shr_record (shr_record_of_loc m l) = l.
Proof. destruct l as [ | [ | | ]]; reflexivity. Qed.

Lemma shr_m_record_of (m : Z) (l : location) :
  shr_m (shr_record_of_loc m l) = m.
Proof. destruct l as [ | [ | | ]]; reflexivity. Qed.

Lemma shr_1_record (q : positive) (l : location) :
  shr_1 (shr_record_of_loc (Zpos q) l)
  = {| shr_m := Zpos q / 2; shr_r := Z.odd (Zpos q); shr_s := inexact l |}.
Proof.
  assert (H : forall p, Zpos p~0 / 2 = Zpos p /\ Zpos p~1 / 2 = Zpos p).
  { intros p. split; symmetry.
    - apply (Z.div_unique (Zpos p~0) 2 (Zpos p) 0); lia.
    - apply (Z.div_unique (Zpos p~1) 2 (Zpos p) 1); lia. }
  destruct q as [p | p | ]; destruct l as [ | [ | | ]]; cbn [shr_record_of_loc shr_1 orb inexact Z.odd];
    try (rewrite (proj1 (H p))); try (rewrite (proj2 (H p))); reflexivity.
Qed.

Lemma div_eucl_div_mod (a b : Z) : Z.div_eucl a b = (a / b, a mod b).
Proof. unfold Z.div, Z.modulo. destruct (Z.div_eucl a b); reflexivity. Qed.

Lemma Zdigits2_unique (q k : Z) :
  0 < q -> 2 ^ (k - 1) <= q < 2 ^ k -> Zdigits2 q = k.
Proof.
  intros Hq Hb. destruct q as [ | p | p]; try lia.
  cbn [Zdigits2]. apply digits2_pos_unique. assumption.
Qed.

(** The last step of a rounding: a mantissa that reached [2^53] is
    renormalized. *)
Lemma normal_round (m1 e : Z) :
  2 ^ 52 <= m1 <= 2 ^ 53 -> -1074 <= e <= 900 ->
  (let '(mrs, e') := shr_fexp 53 1024 m1 e loc_Exact in
   match shr_m mrs with
   | 0 => S754_zero false
   | Zpos m => if e' <=? 1024 - 53 then S754_finite false m e' else S754_infinity false
   | Zneg _ => S754_nan
   end) = normal m1 (e + 52).
Proof.
  intros Hm He. unfold normal.
  destruct (Z.eqb_spec m1 (2 ^ 53)) as [-> | Hne].
  - rewrite shr_fexp_54; [ | vm_compute; reflexivity | lia ].
    change (shr_m (shr_1 (shr_record_of_loc (2 ^ 53) loc_Exact))) with (2 ^ 52).
    change (2 ^ 52) with 4503599627370496.
    replace (e + 1 <=? 1024 - 53) with true by (symmetry; apply Z.leb_le; lia).
    f_equal. lia.
  - rewrite shr_fexp_53 by (try (apply Zdigits2_unique); lia).
    cbn [shr_record_of_loc shr_m].
    destruct m1 as [ | p | p]; try lia.
    replace (e <=? 1024 - 53) with true by (symmetry; apply Z.leb_le; lia).
    cbn [Z.to_pos]. f_equal. lia.
Qed.

Ltac ne_solve Eh :=
  split; [nia | split; intros Ht;
    first [ assumption
          | rewrite Z.even_add, Eh; reflexivity
          | exfalso; nia ] ].

(** The quotient of two normal doubles: the mantissa of the result is the
    integer nearest (ties to even) to the quotient of the mantissas, scaled
    into [2^52, 2^53]. *)
Lemma SFdiv_normal (ma mb : positive) (ea eb : Z) :
  Zpos (digits2_pos ma) = 53 -> Zpos (digits2_pos mb) = 53 ->
  -52 <= ea <= 0 -> -52 <= eb <= 0 ->
  exists m1,
    2 ^ 52 <= m1 <= 2 ^ 53
    /\ nearest_even ((if Zpos mb <=? Zpos ma then Zpos ma else 2 * Zpos ma) * 2 ^ 52) (Zpos mb) m1
    /\ SFdiv prec emax (S754_finite false ma ea) (S754_finite false mb eb)
       = normal m1 (if Zpos mb <=? Zpos ma then ea - eb else ea - eb - 1).
Proof.
  intros Hda Hdb Hea Heb.
  pose proof (digits2_pos_bounds ma) as Ba. rewrite Hda in Ba.
  pose proof (digits2_pos_bounds mb) as Bb. rewrite Hdb in Bb.
  change (53 - 1) with 52 in Ba, Bb.
  unfold SFdiv, SFdiv_core_binary. cbn [Zdigits2 xorb]. rewrite Hda, Hdb.
  unfold fexp, emin, prec, emax.
  replace (Z.min (Z.max (53 + ea - (53 + eb) - 53) (3 - 1024 - 53)) (ea - eb))
    with (ea - eb - 53) by lia.
  replace (ea - eb - (ea - eb - 53)) with 53 by lia.
  cbv iota. rewrite Z.shiftl_mul_pow2 by lia.
  change IntDef.Z.div_eucl with Z.div_eucl.
  rewrite div_eucl_div_mod.
  set (a := Zpos ma) in *. set (b := Zpos mb) in *.
  set (D := a * 2 ^ 53).
  pose proof (Z.div_mod D b ltac:(lia)) as Hdm.
  pose proof (Z.mod_pos_bound D b ltac:(lia)) as Hr.
  set (q := D / b) in *. set (r := D mod b) in *.
  rewrite new_location_spec by lia.
  unfold binary_round_aux.
  destruct (Z.leb_spec b a) as [Hle | Hlt].
  - (* the quotient has 54 digits *)
    assert (Hq : 2 ^ 53 <= q < 2 ^ 54).
    { split.
      - apply Z.div_le_lower_bound; [lia | ]. unfold D. nia.
      - apply Z.div_lt_upper_bound; [lia | ]. unfold D. nia. }
    rewrite shr_fexp_54 by (try (apply Zdigits2_unique); lia).
    destruct q as [ | pq | pq ] eqn:Eq; try lia.
    rewrite shr_1_record. rewrite <- Eq in *. clear Eq.
    set (h := q / 2).
    assert (Hh : q = 2 * h + (if Z.odd q then 1 else 0)).
    { unfold h. rewrite (Z.div_mod q 2) at 1 by lia. f_equal.
      rewrite Zmod_odd. reflexivity. }
    set (m1 := round_nearest_even h
                 (loc_of_shr_record {| shr_m := h; shr_r := Z.odd q;
                     shr_s := inexact (if r =? 0 then loc_Exact else loc_Inexact (2 * r ?= b)) |})).
    exists m1.
    assert (Hm1 : 2 ^ 52 <= m1 <= 2 ^ 53 /\ nearest_even (a * 2 ^ 52) b m1).
    { unfold nearest_even. subst m1.
      assert (HD : 2 * (a * 2 ^ 52) = b * q + r) by (rewrite <- Hdm; unfold D; lia).
      revert Hh.
      destruct (Z.odd q) eqn:Eodd; destruct (Z.eqb_spec r 0) as [Hr0 | Hr0];
        cbn [inexact loc_of_shr_record round_nearest_even]; intros Hh.
      - destruct (Z.even h) eqn:Eh; (split; [lia | ]); ne_solve Eh.
      - split; [lia | ]. ne_solve Hr0.
      - split; [lia | ]. ne_solve Hr0.
      - split; [lia | ]. ne_solve Hr0. }
    destruct Hm1 as [Hb1 Hn1].
    split; [assumption | split; [assumption | ]].
    cbn [shr_m].
    rewrite (normal_round m1) by lia. f_equal. lia.
  - (* the quotient has 53 digits *)
    assert (Hq : 2 ^ 52 <= q < 2 ^ 53).
    { split.
      - apply Z.div_le_lower_bound; [lia | ]. unfold D. nia.
      - apply Z.div_lt_upper_bound; [lia | ]. unfold D. nia. }
    rewrite shr_fexp_53 by (try (apply Zdigits2_unique); lia).
    rewrite loc_of_record_of, shr_m_record_of.
    set (m1 := round_nearest_even q (if r =? 0 then loc_Exact else loc_Inexact (2 * r ?= b))).
    exists m1.
    assert (Hm1 : 2 ^ 52 <= m1 <= 2 ^ 53 /\ nearest_even (2 * a * 2 ^ 52) b m1).
    { unfold nearest_even. subst m1.
      assert (HD : 2 * a * 2 ^ 52 = b * q + r) by (rewrite <- Hdm; unfold D; lia).
      destruct (Z.eqb_spec r 0) as [Hr0 | Hr0]; cbn [round_nearest_even].
      - split; [lia | ]. ne_solve Hr0.
      - destruct (Z.compare_spec (2 * r) b) as [Hc | Hc | Hc].
        + destruct (Z.even q) eqn:Eh; (split; [lia | ]); ne_solve Eh.
        + split; [lia | ]. ne_solve Hr0.
        + split; [lia | ]. ne_solve Hr0. }
    destruct Hm1 as [Hb1 Hn1].
    split; [assumption | split; [assumption | ]].
    rewrite (normal_round m1) by lia. f_equal. lia.
Qed.

(** Rounding to nearest is monotone. *)
Lemma nearest_even_mono (n d m n' d' m' : Z) :
  0 < d -> 0 < d' ->
  nearest_even n d m -> nearest_even n' d' m' ->
  n * d' <= n' * d -> m <= m'.
Proof.
  intros Hd Hd' (Hb & Hup & Hdown) (Hb' & Hup' & Hdown') Hle.
  destruct (Z.le_gt_cases m m') as [ | Hgt]; [assumption | exfalso].
  assert (Hdd : 0 < d * d') by nia.
  assert (C1 : (2 * m - 1) * (d * d') <= 2 * n * d') by nia.
  assert (C2 : 2 * n' * d <= (2 * m' + 1) * (d * d')) by nia.
  assert (C3 : 2 * n * d' <= 2 * n' * d) by nia.
  assert (Hm : m = m' + 1) by nia.
  subst m.
  assert (T : 2 * n = 2 * d * (m' + 1) - d) by nia.
  assert (T' : 2 * n' = 2 * d' * m' + d') by nia.
  specialize (Hdown T). specialize (Hup' T').
  rewrite Z.even_add, Hup' in Hdown. discriminate.
Qed.

(** The order of normal doubles is the lexicographic order of exponent
    and mantissa. *)
Lemma normal_le (m1 x m1' x' : Z) :
  2 ^ 52 <= m1 <= 2 ^ 53 -> 2 ^ 52 <= m1' <= 2 ^ 53 ->
  x < x' \/ (x = x' /\ m1 <= m1') ->
  SFleb (normal m1 x) (normal m1' x') = true.
Proof.
  intros Hm Hm' Hx. unfold normal, SFleb, SFcompare.
  destruct (Z.eqb_spec m1 (2 ^ 53)) as [E | E];
    destruct (Z.eqb_spec m1' (2 ^ 53)) as [E' | E'].
  - destruct (Z.compare_spec (x - 51) (x' - 51)); try reflexivity; lia.
  - destruct (Z.compare_spec (x - 51) (x' - 52)); try reflexivity; try lia.
    rewrite Pos.compare_cont_spec. cbn [Pos.switch_Eq].
    destruct (Pos.compare_spec (Z.to_pos (2 ^ 52)) (Z.to_pos m1')) as [ | | Hc];
      try reflexivity.
    apply Pos2Z.pos_lt_pos in Hc. rewrite !Z2Pos.id in Hc by lia. lia.
  - destruct (Z.compare_spec (x - 52) (x' - 51)); try reflexivity; lia.
  - destruct (Z.compare_spec (x - 52) (x' - 52)); try reflexivity; try lia.
    rewrite Pos.compare_cont_spec. cbn [Pos.switch_Eq].
    destruct (Pos.compare_spec (Z.to_pos m1) (Z.to_pos m1')) as [ | | Hc];
      try reflexivity.
    apply Pos2Z.pos_lt_pos in Hc. rewrite !Z2Pos.id in Hc by lia. lia.
Qed.

Lemma pow2_ge (g h c : Z) :
  0 <= h -> 0 <= c -> h + c <= g -> 2 ^ c * 2 ^ h <= 2 ^ g.
Proof.
  intros Hh Hc Hg. rewrite <- Z.pow_add_r by lia.
  apply Z.pow_le_mono_r; lia.
Qed.

Lemma cancel_scale (P Q U V c : Z) :
  0 < V -> 0 <= P -> c * V <= U -> P * U <= Q * V -> c * P <= Q.
Proof. intros HV HP HU H. nia. Qed.

Lemma cancel_scale_r (P Q U V : Z) :
  0 < U -> V = 2 * U -> P * U <= Q * V -> P <= 2 * Q.
Proof. intros HU HV H. nia. Qed.

(** The order of two fractions, read on their normalized mantissas and
    exponents. *)
Lemma quotient_order (a b a' b' ma mb ma' mb' ea eb ea' eb' : Z) :
  0 < a -> 0 < b -> 0 < a' -> 0 < b' ->
  ma = a * 2 ^ (- ea) -> mb = b * 2 ^ (- eb) ->
  ma' = a' * 2 ^ (- ea') -> mb' = b' * 2 ^ (- eb') ->
  ea <= 0 -> eb <= 0 -> ea' <= 0 -> eb' <= 0 ->
  2 ^ 52 <= ma < 2 ^ 53 -> 2 ^ 52 <= mb < 2 ^ 53 ->
  2 ^ 52 <= ma' < 2 ^ 53 -> 2 ^ 52 <= mb' < 2 ^ 53 ->
  a * b' <= a' * b ->
  let N := if mb <=? ma then ma else 2 * ma in
  let X := if mb <=? ma then ea - eb else ea - eb - 1 in
  let N' := if mb' <=? ma' then ma' else 2 * ma' in
  let X' := if mb' <=? ma' then ea' - eb' else ea' - eb' - 1 in
  X < X' \/ (X = X' /\ (N * 2 ^ 52) * mb' <= (N' * 2 ^ 52) * mb).
Proof.
  intros Ha Hb Ha' Hb' Ema Emb Ema' Emb' Hea Heb Hea' Heb' Bma Bmb Bma' Bmb' Hle.
  set (g := - ea' - eb). set (h := - ea - eb').
  assert (HU : 2 ^ (- ea') * 2 ^ (- eb) = 2 ^ g)
    by (unfold g; rewrite <- Z.pow_add_r by lia; f_equal; lia).
  assert (HV : 2 ^ (- ea) * 2 ^ (- eb') = 2 ^ h)
    by (unfold h; rewrite <- Z.pow_add_r by lia; f_equal; lia).
  assert (Hg : 0 <= g) by (unfold g; lia).
  assert (Hh : 0 <= h) by (unfold h; lia).
  assert (PU : 0 < 2 ^ g) by (apply Z.pow_pos_nonneg; lia).
  assert (PV : 0 < 2 ^ h) by (apply Z.pow_pos_nonneg; lia).
  assert (I : (ma * mb') * 2 ^ g <= (ma' * mb) * 2 ^ h).
  { rewrite <- HU, <- HV. subst ma mb ma' mb'.
    assert (PA : 0 < 2 ^ (- ea)) by (apply Z.pow_pos_nonneg; lia).
    assert (PB : 0 < 2 ^ (- eb)) by (apply Z.pow_pos_nonneg; lia).
    assert (PA' : 0 < 2 ^ (- ea')) by (apply Z.pow_pos_nonneg; lia).
    assert (PB' : 0 < 2 ^ (- eb')) by (apply Z.pow_pos_nonneg; lia).
    set (T := 2 ^ (- ea) * 2 ^ (- eb) * (2 ^ (- ea') * 2 ^ (- eb'))).
    assert (PT : 0 <= T) by (unfold T; nia).
    replace (a * 2 ^ (- ea) * (b' * 2 ^ (- eb')) * (2 ^ (- ea') * 2 ^ (- eb)))
      with ((a * b') * T) by (unfold T; ring).
    replace (a' * 2 ^ (- ea') * (b * 2 ^ (- eb)) * (2 ^ (- ea) * 2 ^ (- eb')))
      with ((a' * b) * T) by (unfold T; ring).
    apply Z.mul_le_mono_nonneg_r; assumption. }
  set (P := ma * mb') in *. set (Q := ma' * mb) in *.
  assert (HP : 0 <= P) by (unfold P; nia).
  cbv zeta.
  destruct (Z.leb_spec mb ma) as [K | K]; destruct (Z.leb_spec mb' ma') as [K' | K'].
  - destruct (Z.lt_trichotomy (ea - eb) (ea' - eb')) as [Hlt | [Heq | Hgt]];
      [left; assumption | right; split; [assumption | ] | exfalso].
    + assert (Egh : g = h) by (unfold g, h; lia).
      assert (Hp : 2 ^ g = 2 ^ h) by (f_equal; assumption).
      assert (1 * P <= Q) by (apply (cancel_scale P Q (2 ^ g) (2 ^ h) 1); lia).
      unfold P, Q in *. lia.
    + pose proof (pow2_ge g h 1 ltac:(lia) ltac:(lia) ltac:(unfold g, h; lia)) as Hp.
      change (2 ^ 1) with 2 in Hp.
      assert (2 * P <= Q) by (apply (cancel_scale P Q (2 ^ g) (2 ^ h) 2); lia).
      assert (mb * mb' <= ma * mb') by (apply Z.mul_le_mono_nonneg_r; lia).
      assert (ma' * mb < (2 * mb') * mb) by (apply Z.mul_lt_mono_pos_r; lia).
      unfold P, Q in *. lia.
  - destruct (Z.lt_trichotomy (ea - eb) (ea' - eb' - 1)) as [Hlt | [Heq | Hgt]];
      [left; assumption | right; split; [assumption | ] | exfalso].
    + assert (Egh : h = g + 1) by (unfold g, h; lia).
      assert (Hp : 2 ^ h = 2 * 2 ^ g) by (rewrite Egh, Z.pow_add_r by lia; change (2 ^ 1) with 2; lia).
      assert (P <= 2 * Q) by (apply (cancel_scale_r P Q (2 ^ g) (2 ^ h)); lia).
      unfold P, Q in *. lia.
    + pose proof (pow2_ge g h 0 ltac:(lia) ltac:(lia) ltac:(unfold g, h; lia)) as Hp.
      change (2 ^ 0) with 1 in Hp.
      assert (1 * P <= Q) by (apply (cancel_scale P Q (2 ^ g) (2 ^ h) 1); lia).
      assert (mb * mb' <= ma * mb') by (apply Z.mul_le_mono_nonneg_r; lia).
      assert (ma' * mb < mb' * mb) by (apply Z.mul_lt_mono_pos_r; lia).
      unfold P, Q in *. lia.
  - destruct (Z.lt_trichotomy (ea - eb - 1) (ea' - eb')) as [Hlt | [Heq | Hgt]];
      [left; assumption | right; split; [assumption | ] | exfalso].
    + assert (Egh : g = h + 1) by (unfold g, h; lia).
      assert (Hp : 2 ^ g = 2 * 2 ^ h) by (rewrite Egh, Z.pow_add_r by lia; change (2 ^ 1) with 2; lia).
      assert (2 * P <= Q) by (apply (cancel_scale P Q (2 ^ g) (2 ^ h) 2); lia).
      unfold P, Q in *. lia.
    + pose proof (pow2_ge g h 2 ltac:(lia) ltac:(lia) ltac:(unfold g, h; lia)) as Hp.
      change (2 ^ 2) with 4 in Hp.
      assert (4 * P <= Q) by (apply (cancel_scale P Q (2 ^ g) (2 ^ h) 4); lia).
      assert (2 ^ 52 * 2 ^ 52 <= ma * mb') by (apply Z.mul_le_mono_nonneg; lia).
      assert (ma' * mb < 2 ^ 53 * 2 ^ 53) by (apply Z.mul_lt_mono_nonneg; lia).
      unfold P, Q in *. lia.
  - destruct (Z.lt_trichotomy (ea - eb - 1) (ea' - eb' - 1)) as [Hlt | [Heq | Hgt]];
      [left; assumption | right; split; [assumption | ] | exfalso].
    + assert (Egh : g = h) by (unfold g, h; lia).
      assert (Hp : 2 ^ g = 2 ^ h) by (f_equal; assumption).
      assert (1 * P <= Q) by (apply (cancel_scale P Q (2 ^ g) (2 ^ h) 1); lia).
      unfold P, Q in *. lia.
    + pose proof (pow2_ge g h 1 ltac:(lia) ltac:(lia) ltac:(unfold g, h; lia)) as Hp.
      change (2 ^ 1) with 2 in Hp.
      assert (2 * P <= Q) by (apply (cancel_scale P Q (2 ^ g) (2 ^ h) 2); lia).
      assert (mb * mb' < (2 * ma) * mb') by (apply Z.mul_lt_mono_pos_r; lia).
      assert (ma' * mb < mb' * mb) by (apply Z.mul_lt_mono_pos_r; lia).
      unfold P, Q in *. lia.
Qed.

(** Scaling a mantissa to 53 digits does not change what the division
    computes. *)
Lemma digits_of_scaled (p m : positive) (e : Z) :
  Zpos (digits2_pos m) = 53 -> -52 <= e <= 0 ->
  Zpos m = Zpos p * 2 ^ (- e) ->
  Zpos (digits2_pos p) = 53 + e.
Proof.
  intros Dm He Hm.
  pose proof (digits2_pos_bounds m) as Bm. rewrite Dm, Hm in Bm.
  change (53 - 1) with 52 in Bm.
  apply digits2_pos_unique.
  assert (Hc : 0 < 2 ^ (- e)) by (apply Z.pow_pos_nonneg; lia).
  assert (H53 : 2 ^ 53 = 2 ^ (53 + e) * 2 ^ (- e))
    by (rewrite <- Z.pow_add_r by lia; f_equal; lia).
  assert (H52 : 2 ^ 52 = 2 ^ (53 + e - 1) * 2 ^ (- e))
    by (rewrite <- Z.pow_add_r by lia; f_equal; lia).
  rewrite H53, H52 in Bm. destruct Bm as [Blo Bhi].
  split.
  - apply Z.mul_le_mono_pos_r in Blo; assumption.
  - apply Z.mul_lt_mono_pos_r in Bhi; assumption.
Qed.

Lemma new_location_scale (d r c : Z) :
  0 < d -> 0 <= r < d -> 0 < c ->
  new_location (d * c) (r * c) = new_location d r.
Proof.
  intros Hd Hr Hc.
  rewrite (new_location_spec d r Hd Hr).
  rewrite new_location_spec.
  - replace (r * c =? 0) with (r =? 0).
    + destruct (r =? 0); [reflexivity | ].
      f_equal. rewrite Z.mul_assoc.
      destruct (Z.compare_spec (2 * r) d) as [E | E | E].
      * rewrite E. apply Z.compare_refl.
      * apply Z.compare_lt_iff, Z.mul_lt_mono_pos_r; assumption.
      * apply Z.compare_gt_iff, Z.mul_lt_mono_pos_r; assumption.
    + destruct (Z.eqb_spec r 0) as [-> | Hne]; [reflexivity | ].
      symmetry. apply Z.eqb_neq. intros H.
      apply Z.mul_eq_0 in H. lia.
  - apply Z.mul_pos_pos; assumption.
  - split; [apply Z.mul_nonneg_nonneg; lia | ].
    apply Z.mul_lt_mono_pos_r; lia.
Qed.

Lemma div_core_scale (pa pb ma mb : positive) (ea eb : Z) :
  Zpos (digits2_pos ma) = 53 -> Zpos (digits2_pos mb) = 53 ->
  -52 <= ea <= 0 -> -52 <= eb <= 0 ->
  Zpos ma = Zpos pa * 2 ^ (- ea) -> Zpos mb = Zpos pb * 2 ^ (- eb) ->
  SFdiv_core_binary 53 1024 (Zpos pa) 0 (Zpos pb) 0
  = SFdiv_core_binary 53 1024 (Zpos ma) ea (Zpos mb) eb.
Proof.
  intros Da Db Bea Beb Va Vb.
  pose proof (digits_of_scaled pa ma ea Da Bea Va) as Dpa.
  pose proof (digits_of_scaled pb mb eb Db Beb Vb) as Dpb.
  unfold SFdiv_core_binary. cbn [Zdigits2]. rewrite Da, Db, Dpa, Dpb.
  unfold fexp, emin.
  replace (Z.min (Z.max (53 + ea + 0 - (53 + eb + 0) - 53) (3 - 1024 - 53)) (0 - 0))
    with (ea - eb - 53) by lia.
  replace (Z.min (Z.max (53 + ea - (53 + eb) - 53) (3 - 1024 - 53)) (ea - eb))
    with (ea - eb - 53) by lia.
  replace (0 - 0 - (ea - eb - 53)) with (53 - ea + eb) by lia.
  replace (ea - eb - (ea - eb - 53)) with 53 by lia.
  destruct (53 - ea + eb) as [ | s | s] eqn:Es; try lia.
  rewrite <- Es. clear s Es.
  rewrite !Z.shiftl_mul_pow2 by lia.
  rewrite !div_eucl_div_mod.
  set (c := 2 ^ (- eb)).
  assert (Hc : 0 < c) by (apply Z.pow_pos_nonneg; lia).
  assert (HN : Zpos ma * 2 ^ 53 = (Zpos pa * 2 ^ (53 - ea + eb)) * c).
  { rewrite Va. unfold c. rewrite <- !Z.mul_assoc, <- !Z.pow_add_r by lia.
    do 2 f_equal. lia. }
  rewrite HN, Vb. fold c.
  rewrite Z.div_mul_cancel_r by lia.
  rewrite Z.mul_mod_distr_r by lia.
  rewrite new_location_scale; [reflexivity | lia | | exact Hc].
  apply Z.mod_pos_bound. lia.
Qed.

(** Below [2^53] the quotient of two ints is the IEEE quotient of the two
    ints as floats. *)
Lemma truediv_of_int (a b : Z) :
  0 < a < 2 ^ 53 -> 0 < b < 2 ^ 53 ->
  truediv a b = fdiv (of_int a) (of_int b).
Proof.
  intros Ha Hb.
  destruct (of_int_pos a Ha) as (ma & ea & Ea & Da & Bea & Va).
  destruct (of_int_pos b Hb) as (mb & eb & Eb & Db & Beb & Vb).
  unfold truediv, fdiv. rewrite Ea, Eb.
  destruct a as [ | pa | pa]; try lia. destruct b as [ | pb | pb]; try lia.
  cbn [exact_int]. unfold SFdiv, prec, emax.
  rewrite (div_core_scale pa pb ma mb ea eb Da Db Bea Beb Va Vb).
  reflexivity.
Qed.

(** On ints of any size the quotient is rounded once, ties to even; a
    quotient below the smallest double is a subnormal or a zero, one above
    the largest is an infinity. *)
Example truediv_any_size :
  truediv 9007199254740993 1 = S754_finite false 4503599627370496 1
  /\ truediv 9007199254740995 1 = S754_finite false 4503599627370498 1
  /\ truediv 3 (2 ^ 1075) = S754_finite false 2 (-1074)
  /\ truediv 1 (2 ^ 1076) = S754_zero false
  /\ truediv (-7) 2 = S754_finite true 7881299347898368 (-51)
  /\ truediv (10 ^ 30) (10 ^ 7) = S754_finite false 5960464477539062 24
  /\ truediv (10 ^ 400) 1 = S754_infinity false.
Proof. repeat split; vm_compute; reflexivity. Qed.

Lemma truediv_normal (a b : Z) :
  0 < a < 2 ^ 53 -> 0 < b < 2 ^ 53 ->
  exists ma mb ea eb m1,
    ma = a * 2 ^ (- ea) /\ mb = b * 2 ^ (- eb)
    /\ -52 <= ea <= 0 /\ -52 <= eb <= 0
    /\ 2 ^ 52 <= ma < 2 ^ 53 /\ 2 ^ 52 <= mb < 2 ^ 53
    /\ 2 ^ 52 <= m1 <= 2 ^ 53
    /\ nearest_even ((if mb <=? ma then ma else 2 * ma) * 2 ^ 52) mb m1
    /\ truediv a b = normal m1 (if mb <=? ma then ea - eb else ea - eb - 1).
Proof.
  intros Ha Hb.
  destruct (of_int_pos a Ha) as (ma & ea & Ea & Da & Bea & Va).
  destruct (of_int_pos b Hb) as (mb & eb & Eb & Db & Beb & Vb).
  destruct (SFdiv_normal ma mb ea eb Da Db Bea Beb) as (m1 & Bm1 & Nm1 & R).
  pose proof (digits2_pos_bounds ma) as Ba. rewrite Da in Ba.
  pose proof (digits2_pos_bounds mb) as Bb. rewrite Db in Bb.
  change (53 - 1) with 52 in Ba, Bb.
  exists (Zpos ma), (Zpos mb), ea, eb, m1.
  rewrite (truediv_of_int a b Ha Hb). unfold fdiv. rewrite Ea, Eb.
  repeat (split; [first [assumption | lia] | ]). exact R.
Qed.

Lemma truediv_finite (a b : Z) :
  0 < a < 2 ^ 53 -> 0 < b < 2 ^ 53 ->
  exists m e, truediv a b = S754_finite false m e.
Proof.
  intros Ha Hb.
  destruct (truediv_normal a b Ha Hb) as (ma & mb & ea & eb & m1 & H).
  destruct H as (_ & _ & _ & _ & _ & _ & _ & _ & R).
  rewrite R. unfold normal. destruct (m1 =? 2 ^ 53); eauto.
Qed.

(** True division of positive ints below [2^53] is monotone: the rounded
    quotients are ordered as the exact fractions are. *)
Lemma truediv_mono (a b a' b' : Z) :
  0 < a < 2 ^ 53 -> 0 < b < 2 ^ 53 ->
  0 < a' < 2 ^ 53 -> 0 < b' < 2 ^ 53 ->
  a * b' <= a' * b ->
  SFleb (truediv a b) (truediv a' b') = true.
Proof.
  intros Ha Hb Ha' Hb' Hle.
  destruct (truediv_normal a b Ha Hb)
    as (ma & mb & ea & eb & m1 & Va & Vb & Bea & Beb & Ba & Bb & Bm1 & N1 & R).
  destruct (truediv_normal a' b' Ha' Hb')
    as (ma' & mb' & ea' & eb' & m1' & Va' & Vb' & Bea' & Beb' & Ba' & Bb' & Bm1' & N1' & R').
  rewrite R, R'. apply normal_le; try assumption.
  assert (Ho := quotient_order a b a' b' ma mb ma' mb' ea eb ea' eb'
                  ltac:(lia) ltac:(lia) ltac:(lia) ltac:(lia) Va Vb Va' Vb'
                  ltac:(lia) ltac:(lia) ltac:(lia) ltac:(lia) Ba Bb Ba' Bb' Hle).
  cbv zeta in Ho. destruct Ho as [Hlt | [Heq Hn]].
  - left. exact Hlt.
  - right. split; [exact Heq | ].
    eapply nearest_even_mono; [ | | exact N1 | exact N1' | exact Hn]; lia.
Qed.

Lemma SFleb_not_lt (x y : float) : SFleb x y = true -> SFltb y x = false.
Proof.
  unfold SFleb, SFltb, SFcompare.
  destruct x as [[ | ] | [ | ] | | [ | ] mx ex]; destruct y as [[ | ] | [ | ] | | [ | ] my ey];
    try reflexivity; try discriminate.
  - rewrite (Z.compare_antisym ex ey).
    destruct (Z.compare ex ey); cbn [CompOpp]; try reflexivity; try discriminate.
    rewrite !Pos.compare_cont_spec. cbn [Pos.switch_Eq].
    rewrite (Pos.compare_antisym mx my).
    destruct (Pos.compare mx my); cbn [CompOpp]; try reflexivity; discriminate.
  - rewrite (Z.compare_antisym ex ey).
    destruct (Z.compare ex ey); cbn [CompOpp]; try reflexivity; try discriminate.
    rewrite !Pos.compare_cont_spec. cbn [Pos.switch_Eq].
    rewrite (Pos.compare_antisym mx my).
    destruct (Pos.compare mx my); cbn [CompOpp]; try reflexivity; discriminate.
Qed.

Lemma SFltb_leb_trans (mx my mz : positive) (ex ey ez : Z) :
  SFltb (S754_finite false mx ex) (S754_finite false my ey) = true ->
  SFleb (S754_finite false my ey) (S754_finite false mz ez) = true ->
  SFltb (S754_finite false mx ex) (S754_finite false mz ez) = true.
Proof.
  unfold SFleb, SFltb, SFcompare.
  rewrite !Pos.compare_cont_spec. cbn [Pos.switch_Eq].
  destruct (Z.compare_spec ex ey); destruct (Z.compare_spec ey ez);
    destruct (Z.compare_spec ex ez);
    destruct (Pos.compare_spec mx my); destruct (Pos.compare_spec my mz);
    destruct (Pos.compare_spec mx mz);
    intros; try reflexivity; try discriminate; lia.
Qed.

End PyFloatFacts.
Import PyFloatFacts.

(* ================================================================== *)
(** * Facts about computations *)
(* ================================================================== *)

Module EffFacts.

Section Laws.

Context {A B : Type}.

Lemma value_ret (a : A) : value (ret a) = Ok a.
Proof. reflexivity. Qed.

Lemma value_lift (r : result A) : value (lift r) = r.
Proof. reflexivity. Qed.

Lemma value_bind_ok {m : M A} (f : A -> M B) {a : A} :
  value m = Ok a -> value (bind m f) = value (f a).
Proof.
  destruct m as [r t]. cbn. intros ->. cbn. destruct (f a); reflexivity.
Qed.

Lemma value_bind_raise {m : M A} (f : A -> M B) {e : exn} :
  value m = Raise e -> value (bind m f) = Raise e.
Proof. destruct m as [r t]. cbn. intros ->. reflexivity. Qed.

Lemma value_bind_lift {r : result A} (f : A -> M B) {a : A} :
  r = Ok a -> value (bind (lift r) f) = value (f a).
Proof. intros ->. cbn. destruct (f a); reflexivity. Qed.

Lemma value_bind_lift_raise {r : result A} (f : A -> M B) {e : exn} :
  r = Raise e -> value (bind (lift r) f) = Raise e.
Proof. intros ->. reflexivity. Qed.

Lemma trace_bind_ok {m : M A} (f : A -> M B) {a : A} :
  value m = Ok a -> trace (bind m f) = trace m ++ trace (f a).
Proof.
  destruct m as [r t]. cbn. intros ->. cbn. destruct (f a); reflexivity.
Qed.

Lemma value_try_ok {body : M A} (handler : exn -> M A) {a : A} :
  value body = Ok a -> value (try_except body handler) = Ok a.
Proof. destruct body as [r t]. cbn. intros ->. reflexivity. Qed.

Lemma value_try_raise {body : M A} (handler : exn -> M A) {e : exn} :
  value body = Raise e -> value (try_except body handler) = value (handler e).
Proof.
  destruct body as [r t]. cbn. intros ->. cbn. destruct (handler e); reflexivity.
Qed.

(** A [try] whose handler returns never raises. *)
Lemma value_try_total (body : M A) (handler : exn -> M A) (d : A) :
  (forall e, value (handler e) = Ok d) ->
  exists a, value (try_except body handler) = Ok a.
Proof.
  intros H. destruct (value body) as [a | e] eqn:E.
  - exists a. apply value_try_ok, E.
  - exists d. rewrite (value_try_raise _ E). apply H.
Qed.

End Laws.

Lemma value_tell_then {A} (ev : event) (k : M A) :
  value (bind (tell ev) (fun _ => k)) = value k.
Proof. cbn. destruct k; reflexivity. Qed.

Lemma trace_tell_then {A} (ev : event) (k : M A) :
  trace (bind (tell ev) (fun _ => k)) = ev :: trace k.
Proof. cbn. destruct k; reflexivity. Qed.

Lemma bind_lift_ok {A B} (a : A) (f : A -> M B) : bind (lift (Ok a)) f = f a.
Proof. unfold bind, lift. destruct (f a); reflexivity. Qed.

Lemma bind_ext {A B} (m : M A) (f g : A -> M B) :
  (forall a, f a = g a) -> bind m f = bind m g.
Proof.
  intros H. destruct m as [[a | e] t]; cbn; [rewrite H | ]; reflexivity.
Qed.

Lemma value_bind_ret {A B} (m : M A) (f : A -> B) :
  value (bind m (fun a => ret (f a)))
  = match value m with Ok a => Ok (f a) | Raise e => Raise e end.
Proof. destruct m as [[a | e] t]; reflexivity. Qed.

Lemma trace_bind_head {A B} (m : M A) (f : A -> M B) (ev : event)
    (t : list event) :
  trace m = ev :: t -> exists t', trace (bind m f) = ev :: t'.
Proof.
  destruct m as [[a | e] t0]; cbn; intros ->.
  - destruct (f a) as [r t']. exists (t ++ t'). reflexivity.
  - exists t. reflexivity.
Qed.

End EffFacts.
Import EffFacts.

(* ================================================================== *)
(** * detect_language *)
(* ================================================================== *)

Module DetectLanguage.

Import OCR Spec.

Local Open Scope Z_scope.

Lemma truediv_zero (n : Z) : 0 < n < 2 ^ 53 -> truediv 0 n = S754_zero false.
Proof.
  intros Hn. destruct n as [ | p | p]; try lia. reflexivity.
Qed.

(** The float comparison [k / n > 0.3] decides the exact one, [k/n > 3/10],
    for every count [k] of a text of [n <= 2^51] characters. *)
Lemma ratio_gt_threshold (k n : Z) :
  0 <= k <= n -> 0 < n <= 2 ^ 51 ->
  gtb (truediv k n) f0_3 = (3 * n <? 10 * k).
Proof.
  intros Hk Hn. unfold gtb.
  destruct (Z.eq_dec k 0) as [-> | Hk0].
  - rewrite truediv_zero by lia.
    symmetry. apply Z.ltb_ge. lia.
  - destruct (Z.ltb_spec (3 * n) (10 * k)) as [Hgt | Hle].
    + (* above: the quotient reaches the double that follows 0.3 *)
      assert (Hm : SFleb (truediv 1351079888211149 (2 ^ 52)) (truediv k n) = true)
        by (apply truediv_mono; lia).
      destruct (truediv_finite k n ltac:(lia) ltac:(lia)) as (m & e & E).
      rewrite E in *.
      apply (SFltb_leb_trans 5404319552844595 5404319552844596 m (-54) (-54) e);
        [reflexivity | exact Hm].
    + (* at most 3/10: the quotient is at most the rounding of 3/10 *)
      apply SFleb_not_lt.
      change f0_3 with (truediv 3 10).
      apply truediv_mono; lia.
Qed.

Lemma filter_length_le {A} (p : A -> bool) (l : list A) :
  (List.length (filter p l) <= List.length l)%nat.
Proof.
  induction l as [ | x l IH]; cbn; [lia | ]. destruct (p x); cbn; lia.
Qed.

Lemma detect_language_decides (text : str) :
  total_chars text <= 2 ^ 51 ->
  detect_language text
  = if fraction_above_threshold text then lang_es else lang_en.
Proof.
  intros Hlen. unfold detect_language, fraction_above_threshold.
  fold (non_ascii_count text). fold (total_chars text).
  assert (Hc : 0 <= non_ascii_count text <= total_chars text).
  { unfold non_ascii_count, total_chars. split; [lia | ].
    apply Nat2Z.inj_le, filter_length_le. }
  destruct (Z.eqb_spec (total_chars text) 0) as [H0 | H0].
  - replace (3 * total_chars text <? 10 * non_ascii_count text) with false
      by (symmetry; apply Z.ltb_ge; lia).
    reflexivity.
  - rewrite ratio_gt_threshold by lia. reflexivity.
Qed.

Lemma ascii_count_zero (text : str) :
  forallb (fun c => (c <=? 127)%N) text = true -> non_ascii_count text = 0.
Proof.
  unfold non_ascii_count. intros H.
  induction text as [ | c text IH]; [reflexivity | ].
  cbn in H. apply andb_prop in H as [Hc Ht].
  cbn [filter]. apply N.leb_le in Hc.
  replace (127 <? c)%N with false by (symmetry; apply N.ltb_ge; exact Hc).
  apply IH, Ht.
Qed.

(** C4, as the code has it.  For every text (of at most 2^51 characters,
    where the float quotient decides the exact fraction), [detect_language]
    answers "es" when the fraction of characters of code point above 127 is
    strictly greater than 0.3 and "en" otherwise, in particular when the
    fraction is exactly 0.3; the empty string and every pure-ASCII string
    are "en", the string of five A-grave and " hello" is "es", and no other
    code is returned. *)
Theorem detect_language_threshold (text : str)
    (Hlen : total_chars text <= 2 ^ 51) :
  detect_language text
  = (if fraction_above_threshold text then lang_es else lang_en)
  /\ detect_language [] = lang_en
  /\ (forallb (fun c => (c <=? 127)%N) text = true ->
      detect_language text = lang_en)
  /\ detect_language (u "ÀÀÀÀÀ hello") = lang_es
  /\ (detect_language text = lang_en \/ detect_language text = lang_es).
Proof.
  pose proof (detect_language_decides text Hlen) as Hd.
  split; [exact Hd | ].
  split; [reflexivity | ].
  split.
  - intros Hascii. rewrite Hd. unfold fraction_above_threshold.
    rewrite (ascii_count_zero text Hascii).
    replace (3 * total_chars text <? 10 * 0) with false; [reflexivity | ].
    symmetry. apply Z.ltb_ge. unfold total_chars. lia.
  - split; [vm_compute; reflexivity | ].
    rewrite Hd. destruct (fraction_above_threshold text); [right | left]; reflexivity.
Qed.

Lemma detect_language_threshold_witness :
  detect_language (u "señora ñandú")
  = (if fraction_above_threshold (u "señora ñandú") then lang_es else lang_en)
  /\ detect_language [] = lang_en
  /\ (forallb (fun c => (c <=? 127)%N) (u "señora ñandú") = true ->
      detect_language (u "señora ñandú") = lang_en)
  /\ detect_language (u "ÀÀÀÀÀ hello") = lang_es
  /\ (detect_language (u "señora ñandú") = lang_en
      \/ detect_language (u "señora ñandú") = lang_es).
Proof.
  apply (detect_language_threshold (u "señora ñandú")).
  vm_compute. discriminate.
Defined.

(** The claim of C4 as it is stated fails where the fraction is exactly
    0.3: three characters above 127 out of ten are not below the threshold,
    and the code answers "en". *)
Lemma detect_language_boundary_counterexample :
  ~ (forall text : str,
       detect_language text
       = if fraction_below_threshold text then lang_en else lang_es).
Proof.
  intros H. specialize (H (u "ÀÀÀabcdefg")).
  vm_compute in H. discriminate H.
Qed.

End DetectLanguage.

(* ================================================================== *)
(** * get_text_confidence and process_uploaded_image *)
(* ================================================================== *)

Module Extractor.

Import OCR Spec.

Local Open Scope Z_scope.

Section WithLibs.

Variable L : Libs.

(** The comprehension keeps the strictly positive values, in order. *)
Lemma positive_confidences_values (col : list (cell L)) (values : list Z) :
  Forall2 (fun c v => py_int L c = Ok v) col values ->
  positive_confidences L col = Ok (positive_values values).
Proof.
  induction 1 as [ | c v col values Hc _ IH]; [reflexivity | ].
  cbn [positive_confidences positive_values filter]. rewrite Hc.
  rewrite Z.gtb_ltb. destruct (0 <? v).
  - fold (positive_values values). rewrite IH. reflexivity.
  - exact IH.
Qed.

Lemma py_sum_fold_right (l : list Z) : py_sum l = fold_right Z.add 0 l.
Proof.
  unfold py_sum. apply fold_symmetric; intros; lia.
Qed.

(** The body computes the mean of the positive values, and raises when
    the mean is too large for a float. *)
Lemma confidence_body_mean (image : ndarray L) (col : list (cell L))
    (values : list Z) :
  value (conf_column L image) = Ok col ->
  Forall2 (fun c v => py_int L c = Ok v) col values ->
  value (confidence_body L image)
  = if is_inf (mean_or_zero (positive_values values))
    then Raise (Exn (u "integer division result too large for a float"))
    else Ok (mean_or_zero (positive_values values)).
Proof.
  intros Hcol Hint. unfold confidence_body.
  rewrite (value_bind_ok _ Hcol).
  rewrite (value_bind_lift _ (positive_confidences_values col values Hint)).
  destruct (positive_values values) as [ | v vs] eqn:E; [reflexivity | ].
  cbn [List.length Nat.eqb negb]. rewrite value_lift.
  unfold mean_or_zero, mean, int_truediv. rewrite py_sum_fold_right.
  replace (Z.of_nat (S (List.length vs)) =? 0) with false
    by (symmetry; apply Z.eqb_neq; lia).
  reflexivity.
Qed.

Lemma get_text_confidence_value (image : ndarray L) (col : list (cell L))
    (values : list Z) :
  value (conf_column L image) = Ok col ->
  Forall2 (fun c v => py_int L c = Ok v) col values ->
  value (get_text_confidence L image)
  = Ok (if is_inf (mean_or_zero (positive_values values)) then f0_0
        else mean_or_zero (positive_values values)).
Proof.
  intros Hcol Hint. unfold get_text_confidence.
  pose proof (confidence_body_mean image col values Hcol Hint) as H.
  destruct (is_inf (mean_or_zero (positive_values values))).
  - rewrite (value_try_raise _ H). reflexivity.
  - apply value_try_ok, H.
Qed.

Lemma get_text_confidence_raise (image : ndarray L) (e : exn) :
  value (confidence_body L image) = Raise e ->
  value (get_text_confidence L image) = Ok f0_0.
Proof.
  intros H. unfold get_text_confidence. rewrite (value_try_raise _ H).
  reflexivity.
Qed.

Lemma get_text_confidence_total (image : ndarray L) :
  exists c, value (get_text_confidence L image) = Ok c.
Proof.
  unfold get_text_confidence. apply value_try_total with (d := f0_0).
  intros e. reflexivity.
Qed.

Lemma extract_text_total (image : ndarray L) :
  exists t, value (extract_text L image) = Ok t.
Proof.
  unfold extract_text. apply value_try_total with (d := []).
  intros e. reflexivity.
Qed.

End WithLibs.

(** Sums of values in (0, 100]. *)
Lemma sum_bounds (vs : list Z) :
  Forall (fun v => 0 < v <= 100) vs ->
  Z.of_nat (List.length vs) <= fold_right Z.add 0 vs
  <= 100 * Z.of_nat (List.length vs).
Proof.
  induction 1 as [ | v vs Hv _ IH]; [cbn; lia | ].
  cbn [fold_right List.length]. rewrite Nat2Z.inj_succ. lia.
Qed.

Lemma positive_values_bounds (values : list Z) :
  Forall (fun v => v <= 100) values ->
  Forall (fun v => 0 < v <= 100) (positive_values values).
Proof.
  intros H. unfold positive_values. apply Forall_forall. intros v Hin.
  apply filter_In in Hin as [Hin Hpos]. apply Z.ltb_lt in Hpos.
  rewrite Forall_forall in H. specialize (H v Hin). lia.
Qed.

Lemma positive_values_length (values : list Z) :
  (List.length (positive_values values) <= List.length values)%nat.
Proof.
  unfold positive_values. induction values as [ | v values IH]; cbn; [lia | ].
  destruct (0 <? v); cbn; lia.
Qed.

(** The mean of values in (0, 100] is a float in [0, 100]. *)
Lemma mean_or_zero_range (vs : list Z) :
  Forall (fun v => 0 < v <= 100) vs ->
  Z.of_nat (List.length vs) < 2 ^ 46 ->
  in_range f0_0 f100 (mean_or_zero vs) = true.
Proof.
  intros Hv Hlen. destruct vs as [ | v vs]; [reflexivity | ].
  unfold mean_or_zero, mean.
  pose proof (sum_bounds (v :: vs) Hv) as Hs.
  set (s := fold_right Z.add 0 (v :: vs)) in *.
  set (n := Z.of_nat (List.length (v :: vs))) in *.
  assert (Hn : 0 < n) by (unfold n; cbn [List.length]; lia).
  unfold in_range. apply andb_true_intro. split.
  - destruct (truediv_finite s n ltac:(lia) ltac:(lia)) as (m & e & E).
    rewrite E. reflexivity.
  - change f100 with (truediv 100 1). apply truediv_mono; lia.
Qed.

(** The mean of values in (0, 100] is no infinity. *)
Lemma mean_or_zero_finite (vs : list Z) :
  Forall (fun v => 0 < v <= 100) vs ->
  Z.of_nat (List.length vs) < 2 ^ 46 ->
  is_inf (mean_or_zero vs) = false.
Proof.
  intros Hv Hlen. destruct vs as [ | v vs]; [reflexivity | ].
  unfold mean_or_zero, mean.
  pose proof (sum_bounds (v :: vs) Hv) as Hs.
  set (s := fold_right Z.add 0 (v :: vs)) in *.
  set (n := Z.of_nat (List.length (v :: vs))) in *.
  assert (Hn : 0 < n) by (unfold n; cbn [List.length]; lia).
  destruct (truediv_finite s n ltac:(lia) ltac:(lia)) as (m & e & E).
  rewrite E. reflexivity.
Qed.

(** C8. [get_text_confidence] never raises, and returns 0.0 when an
    exception occurs in its body.  When [int] reads every cell of the
    confidence column, it returns the arithmetic mean, rounded once to a
    float, of exactly the values that are strictly greater than zero, and
    0.0 when there is none or when the mean is too large for a float
    (an [OverflowError] in the body).  With confidences of at most 100,
    as Tesseract's are, the result is that mean and lies in [0, 100]. *)
Theorem get_text_confidence_mean (L : Libs) (image : ndarray L) :
  (exists c, returns (get_text_confidence L image) c)
  /\ (forall e, value (confidence_body L image) = Raise e ->
      returns (get_text_confidence L image) f0_0)
  /\ (forall col values,
        value (conf_column L image) = Ok col ->
        Forall2 (fun c v => py_int L c = Ok v) col values ->
        returns (get_text_confidence L image)
          (if is_inf (mean_or_zero (positive_values values)) then f0_0
           else mean_or_zero (positive_values values))
        /\ (Forall (fun v => v <= 100) values ->
            Z.of_nat (List.length values) < 2 ^ 46 ->
            returns (get_text_confidence L image)
              (mean_or_zero (positive_values values))
            /\ in_range f0_0 f100 (mean_or_zero (positive_values values))
               = true)).
Proof.
  split; [apply get_text_confidence_total | ].
  split; [intros e He; exact (get_text_confidence_raise L image e He) | ].
  intros col values Hcol Hint.
  pose proof (get_text_confidence_value L image col values Hcol Hint) as Hv.
  split; [exact Hv | ].
  intros Hmax Hlen.
  assert (Hpos : Forall (fun v => 0 < v <= 100) (positive_values values))
    by (apply positive_values_bounds, Hmax).
  assert (Hn : Z.of_nat (List.length (positive_values values)) < 2 ^ 46)
    by (pose proof (positive_values_length values); lia).
  split.
  - unfold returns. rewrite Hv.
    rewrite (mean_or_zero_finite _ Hpos Hn). reflexivity.
  - apply mean_or_zero_range; assumption.
Qed.

Lemma get_text_confidence_mean_witness :
  returns
    (get_text_confidence
       (Examples.ocr_libs true true true (u "hello") [96; -1; 88; 0]) tt)
    (of_int 92)
  /\ in_range f0_0 f100 (of_int 92) = true.
Proof.
  destruct (get_text_confidence_mean
              (Examples.ocr_libs true true true (u "hello") [96; -1; 88; 0]) tt)
    as (_ & _ & H).
  destruct (H [96; -1; 88; 0] [96; -1; 88; 0]) as [_ Hb].
  - reflexivity.
  - repeat constructor.
  - apply Hb.
    + repeat constructor; lia.
    + cbn. lia.
Defined.

(** The bound is Tesseract's, not the function's: the mean of the cells
    250 and 101 is 175.5. *)
Lemma get_text_confidence_range_counterexample :
  ~ (forall (L : Libs) (image : ndarray L) (c : float),
       returns (get_text_confidence L image) c ->
       in_range f0_0 f100 c = true).
Proof.
  intros H.
  specialize (H (Examples.ocr_libs true true true (u "hello") [250; 101]) tt
                (truediv 351 2) eq_refl).
  vm_compute in H. discriminate H.
Qed.

(** A mean too large for a float is an [OverflowError], and the
    confidence is 0.0. *)
Example get_text_confidence_overflow :
  value
    (get_text_confidence
       (Examples.ocr_libs true true true (u "hello") [10 ^ 400]) tt)
  = Ok f0_0.
Proof. vm_compute. reflexivity. Qed.

(** The sum is exact and the quotient is rounded once. *)
Example get_text_confidence_large_cells :
  value
    (get_text_confidence
       (Examples.ocr_libs true true true (u "hello")
          [9007199254740991; 1; 1]) tt)
  = Ok (of_int 3002399751580331).
Proof. vm_compute. reflexivity. Qed.

Section Upload.

Variable L : Libs.

Lemma extract_text_preprocess_raise (image : ndarray L) (e : exn) :
  value (preprocess_image L image) = Raise e ->
  value (extract_text L image) = Ok [].
Proof.
  intros H. unfold extract_text.
  rewrite (value_try_raise _ (e := e)); [reflexivity | ].
  apply value_bind_raise, H.
Qed.

Lemma extract_text_ocr_raise (image processed : ndarray L) (e : exn) :
  value (preprocess_image L image) = Ok processed ->
  image_to_string L processed custom_config = Raise e ->
  value (extract_text L image) = Ok [].
Proof.
  intros Hp H. unfold extract_text.
  rewrite (value_try_raise _ (e := e)); [reflexivity | ].
  rewrite (value_bind_ok _ Hp). apply value_bind_lift_raise, H.
Qed.

Lemma confidence_body_preprocess_raise (image : ndarray L) (e : exn) :
  value (preprocess_image L image) = Raise e ->
  value (confidence_body L image) = Raise e.
Proof.
  intros H. unfold confidence_body, conf_column.
  apply value_bind_raise, value_bind_raise, H.
Qed.

(** After the image is read, the result is the triple of the three stages,
    each of which is total. *)
Lemma process_uploaded_image_stages (file : upload L) (img : pil_image L)
    (arr : ndarray L) (text : str) (c : float) :
  Image_open L file = Ok img -> np_array L img = Ok arr ->
  value (extract_text L arr) = Ok text ->
  value (get_text_confidence L arr) = Ok c ->
  value (process_uploaded_image L file) = Ok (text, c, detect_language text).
Proof.
  intros Ho Ha Ht Hc. unfold process_uploaded_image.
  apply value_try_ok.
  rewrite (value_bind_lift _ Ho), (value_bind_lift _ Ha).
  rewrite (value_bind_ok _ Ht), (value_bind_ok _ Hc). reflexivity.
Qed.

Lemma process_uploaded_image_total (file : upload L) :
  exists r, value (process_uploaded_image L file) = Ok r.
Proof.
  unfold process_uploaded_image.
  apply value_try_total with (d := ([], f0_0, lang_en)).
  intros e. reflexivity.
Qed.

End Upload.

(** C3, as the code has it.  [process_uploaded_image] never raises.  When
    the image cannot be opened or converted it returns exactly ("", 0.0,
    "en").  Otherwise each stage fails soft on its own: the result is the
    text of [extract_text], the confidence of [get_text_confidence] and the
    language detected in the text, so that a failure of the preprocessing,
    which both stages share (an empty image), gives exactly ("", 0.0,
    "en"), a failure of the text recognition gives the empty text and "en",
    and a failure in the confidence stage gives the confidence 0.0. *)
Theorem process_uploaded_image_soft_fail (L : Libs) (file : upload L) :
  (exists r, returns (process_uploaded_image L file) r)
  /\ (forall e, Image_open L file = Raise e ->
      returns (process_uploaded_image L file) ([], f0_0, lang_en))
  /\ (forall img e, Image_open L file = Ok img -> np_array L img = Raise e ->
      returns (process_uploaded_image L file) ([], f0_0, lang_en))
  /\ (forall img arr,
        Image_open L file = Ok img -> np_array L img = Ok arr ->
        (forall text c,
           value (extract_text L arr) = Ok text ->
           value (get_text_confidence L arr) = Ok c ->
           returns (process_uploaded_image L file)
             (text, c, detect_language text))
        /\ (forall e, value (preprocess_image L arr) = Raise e ->
            returns (process_uploaded_image L file) ([], f0_0, lang_en))
        /\ (forall processed e,
              value (preprocess_image L arr) = Ok processed ->
              image_to_string L processed custom_config = Raise e ->
              exists c,
                returns (process_uploaded_image L file) ([], c, lang_en))
        /\ (forall e, value (confidence_body L arr) = Raise e ->
            exists text,
              returns (process_uploaded_image L file)
                (text, f0_0, detect_language text))).
Proof.
  split; [apply process_uploaded_image_total | ].
  split.
  { intros e He. unfold returns, process_uploaded_image.
    rewrite (value_try_raise _ (e := e)); [reflexivity | ].
    apply value_bind_lift_raise, He. }
  split.
  { intros img e Ho He. unfold returns, process_uploaded_image.
    rewrite (value_try_raise _ (e := e)); [reflexivity | ].
    rewrite (value_bind_lift _ Ho). apply value_bind_lift_raise, He. }
  intros img arr Ho Ha.
  split.
  { intros text c Ht Hc.
    exact (process_uploaded_image_stages L file img arr text c Ho Ha Ht Hc). }
  split.
  { intros e He.
    apply (process_uploaded_image_stages L file img arr [] f0_0 Ho Ha).
    - exact (extract_text_preprocess_raise L arr e He).
    - apply (get_text_confidence_raise L arr e).
      exact (confidence_body_preprocess_raise L arr e He). }
  split.
  { intros processed e Hp He.
    destruct (get_text_confidence_total L arr) as [c Hc]. exists c.
    apply (process_uploaded_image_stages L file img arr [] c Ho Ha).
    - exact (extract_text_ocr_raise L arr processed e Hp He).
    - exact Hc. }
  intros e He.
  destruct (extract_text_total L arr) as [text Ht]. exists text.
  apply (process_uploaded_image_stages L file img arr text f0_0 Ho Ha Ht).
  exact (get_text_confidence_raise L arr e He).
Qed.

Lemma process_uploaded_image_soft_fail_witness :
  returns
    (process_uploaded_image
       (Examples.ocr_libs false true true (u "hello") [96]) tt)
    ([], f0_0, lang_en)
  /\ (exists c,
        returns
          (process_uploaded_image
             (Examples.ocr_libs true false true (u "hello") [96]) tt)
          ([], c, lang_en)).
Proof.
  split.
  - destruct (process_uploaded_image_soft_fail
                (Examples.ocr_libs false true true (u "hello") [96]) tt)
      as (_ & H & _).
    apply (H (Exn (u "cannot identify image file"))). reflexivity.
  - destruct (process_uploaded_image_soft_fail
                (Examples.ocr_libs true false true (u "hello") [96]) tt)
      as (_ & _ & _ & H).
    destruct (H tt tt eq_refl eq_refl) as (_ & _ & Hocr & _).
    apply (Hocr tt (Exn (u "tesseract failed"))); reflexivity.
Defined.

(** The claim of C3 as it is stated fails: an exception of the OCR
    library in the confidence stage alone leaves the recognized text in the
    result, which is then not the triple ("", 0.0, "en"). *)
Lemma process_uploaded_image_partial_counterexample :
  ~ (forall (L : Libs) (file : upload L),
       (exists arr e, image_to_string L arr custom_config = Raise e
                      \/ image_to_data L arr custom_config = Raise e) ->
       returns (process_uploaded_image L file) ([], f0_0, lang_en)).
Proof.
  intros H.
  specialize (H (Examples.ocr_libs true true false (u "hello") []) tt).
  assert (Hexn : exists arr e,
             image_to_string (Examples.ocr_libs true true false (u "hello") [])
               arr custom_config = Raise e
             \/ image_to_data (Examples.ocr_libs true true false (u "hello") [])
                  arr custom_config = Raise e).
  { exists tt, (Exn (u "tesseract failed")). right. reflexivity. }
  specialize (H Hexn). vm_compute in H. discriminate H.
Qed.

Example process_uploaded_image_keeps_text :
  returns
    (process_uploaded_image
       (Examples.ocr_libs true true false (u "hello") []) tt)
    (u "hello", f0_0, lang_en).
Proof. vm_compute. reflexivity. Qed.

Example process_uploaded_image_keeps_confidence :
  returns
    (process_uploaded_image
       (Examples.ocr_libs true false true (u "hello") [90; 80]) tt)
    ([], of_int 85, lang_en).
Proof. vm_compute. reflexivity. Qed.

End Extractor.

(* ================================================================== *)
(** * update_settings *)
(* ================================================================== *)

Module Settings.

Import Engine Spec.

Lemma SFltb_SFleb (x y : float) : SFltb x y = true -> SFleb x y = true.
Proof.
  unfold SFltb, SFleb. destruct (SFcompare x y) as [[ | | ] | ];
    intros H; try reflexivity; discriminate H.
Qed.

(** [max(lo, min(hi, t))] lies in [[lo, hi]] for every float [t], the
    infinities and NaN included (NaN is sent to [hi]). *)
Lemma clamp_in_range (lo hi t : float) :
  leb lo lo = true -> leb hi hi = true -> leb lo hi = true ->
  in_range lo hi (py_max lo (py_min hi t)) = true.
Proof.
  intros Hlo Hhi Hlh. unfold in_range, py_max, py_min, gtb, ltb, leb in *.
  destruct (SFltb t hi) eqn:Eth.
  - destruct (SFltb lo t) eqn:Elt.
    + rewrite (SFltb_SFleb lo t Elt), (SFltb_SFleb t hi Eth). reflexivity.
    + rewrite Hlo, Hlh. reflexivity.
  - destruct (SFltb lo hi) eqn:Elh.
    + rewrite Hlh, Hhi. reflexivity.
    + rewrite Hlo, Hlh. reflexivity.
Qed.

Lemma update_settings_valid (self : AIEngine)
    (t p : option float) (m : option Z) :
  settings_valid self = true ->
  settings_valid (update_settings self t p m) = true.
Proof.
  unfold settings_valid. intros H.
  apply andb_prop in H as [H Hmax]. apply andb_prop in H as [H Hmin].
  apply andb_prop in H as [Ht Hp].
  unfold update_settings.
  destruct t as [t | ]; destruct p as [p | ]; destruct m as [m | ];
    cbn [temperature top_p max_length];
    rewrite ?clamp_in_range by reflexivity;
    rewrite ?Ht, ?Hp, ?Hmin, ?Hmax; cbn [andb];
    try reflexivity;
    (apply andb_true_intro; split; apply Z.leb_le; lia).
Qed.

(** [load_model] writes the model name and the loaded flag only. *)
Lemma load_model_shape (L : Libs) (self : AIEngine) (name : option str) :
  let self0 := match name with
               | Some n => if is_empty n then self else set_model_name self n
               | None => self
               end in
  value (load_model L self name) = Ok (set_model_loaded self0 true, true)
  \/ value (load_model L self name) = Ok (self0, false).
Proof.
  intros self0. unfold load_model. fold self0.
  unfold try_except, bind, lift, tell, ret, value.
  destruct (tokenizer_from_pretrained L (model_name self0)) as [[] | e1];
    [destruct (model_from_pretrained L (model_name self0)) as [[] | e2] | ];
    try (left; reflexivity);
    (destruct (tokenizer_from_pretrained L (u "microsoft/DialoGPT-medium"))
       as [[] | e3];
     [destruct (model_from_pretrained L (u "microsoft/DialoGPT-medium"))
        as [[] | e4] | ];
     first [left; reflexivity | right; reflexivity]).
Qed.

Lemma load_model_settings (L : Libs) (self self' : AIEngine)
    (name : option str) (b : bool) :
  value (load_model L self name) = Ok (self', b) ->
  temperature self' = temperature self
  /\ top_p self' = top_p self /\ max_length self' = max_length self.
Proof.
  intros E.
  assert (H0 : forall s : AIEngine,
             s = match name with
                 | Some n => if is_empty n then self else set_model_name self n
                 | None => self
                 end ->
             temperature s = temperature self
             /\ top_p s = top_p self /\ max_length s = max_length self).
  { intros s ->. destruct name as [n | ]; [destruct (is_empty n) | ];
      repeat split; reflexivity. }
  destruct (load_model_shape L self name) as [H | H];
    rewrite H in E; injection E as <- _; apply (H0 _ eq_refl).
Qed.

Lemma run_call_valid (L : Libs) (self : AIEngine) (c : call) :
  settings_valid self = true -> settings_valid (run_call L self c) = true.
Proof.
  intros H. destruct c as [t p m | name]; cbn [run_call].
  - apply update_settings_valid, H.
  - destruct (value (load_model L self name)) as [[self' b] | e] eqn:E;
      [ | exact H].
    destruct (load_model_settings L self self' name b E) as (Ht & Hp & Hm).
    unfold settings_valid in *. rewrite Ht, Hp, Hm. exact H.
Qed.

(** C2. The generation settings are always in their valid ranges: at
    initialization and after every sequence of calls to [update_settings]
    (with any arguments) and [load_model], temperature is in [0.1, 2.0],
    top_p in [0.1, 1.0] and max_length in [100, 4096]; a temperature of 5.0
    is stored as 2.0 and one of 0.0 as 0.1. *)
Theorem settings_always_valid (L : Libs) (calls : list call) :
  settings_valid (fold_left (run_call L) calls init) = true
  /\ temperature (update_settings init (Some f5_0) None None) = f2_0
  /\ temperature (update_settings init (Some f0_0) None None) = f0_1.
Proof.
  split; [ | split; reflexivity].
  assert (H : forall self, settings_valid self = true ->
                           settings_valid (fold_left (run_call L) calls self) = true).
  { induction calls as [ | c calls' IH]; intros self Hs; [exact Hs | ].
    cbn [fold_left]. apply IH, run_call_valid, Hs. }
  apply H. reflexivity.
Qed.

Example update_settings_nan :
  temperature (update_settings init (Some S754_nan) None None) = f2_0.
Proof. reflexivity. Qed.

End Settings.

(* ================================================================== *)
(** * Prompt construction *)
(* ================================================================== *)

Module Prompts.

Import Engine Spec.

(** A language code is looked up in a dictionary of the four languages. *)
Lemma lookup_languages {V : Type} (en es fr de : V) (language : str) :
  PyDict.lookup [(k_en, en); (k_es, es); (k_fr, fr); (k_de, de)] language
  = if str_eqb k_es language then Some es
    else if str_eqb k_fr language then Some fr
    else if str_eqb k_de language then Some de
    else if str_eqb k_en language then Some en
    else None.
Proof.
  cbn [PyDict.lookup].
  destruct (str_eqb k_en language) eqn:E; [ | reflexivity].
  apply str_eqb_eq in E. subst language. reflexivity.
Qed.

Lemma get_languages (en es fr de : str) (language : str) :
  PyDict.get [(k_en, en); (k_es, es); (k_fr, fr); (k_de, de)] language en
  = by_language en es fr de language.
Proof.
  unfold PyDict.get, by_language. rewrite lookup_languages.
  destruct (str_eqb k_es language); [reflexivity | ].
  destruct (str_eqb k_fr language); [reflexivity | ].
  destruct (str_eqb k_de language); [reflexivity | ].
  destruct (str_eqb k_en language); reflexivity.
Qed.

Lemma template_for_summarize (language : str) :
  template_for k_summarize language = Ok (template Summarize language).
Proof.
  unfold template_for.
  change (PyDict.index prompts k_summarize)
    with (Ok [(k_en, prompt_summarize_en); (k_es, prompt_summarize_es);
              (k_fr, prompt_summarize_fr); (k_de, prompt_summarize_de)]).
  cbv beta iota.
  change (PyDict.index _ k_en) with (Ok prompt_summarize_en).
  cbv beta iota. rewrite get_languages. reflexivity.
Qed.

Lemma template_for_answer (language : str) :
  template_for k_answer_question language = Ok (template Answer language).
Proof.
  unfold template_for.
  change (PyDict.index prompts k_answer_question)
    with (Ok [(k_en, prompt_answer_question_en); (k_es, prompt_answer_question_es);
              (k_fr, prompt_answer_question_fr); (k_de, prompt_answer_question_de)]).
  cbv beta iota.
  change (PyDict.index _ k_en) with (Ok prompt_answer_question_en).
  cbv beta iota. rewrite get_languages. reflexivity.
Qed.

Lemma template_for_explain (language : str) :
  template_for k_explain_concept language = Ok (template Explain language).
Proof.
  unfold template_for.
  change (PyDict.index prompts k_explain_concept)
    with (Ok [(k_en, prompt_explain_concept_en); (k_es, prompt_explain_concept_es);
              (k_fr, prompt_explain_concept_fr); (k_de, prompt_explain_concept_de)]).
  cbv beta iota.
  change (PyDict.index _ k_en) with (Ok prompt_explain_concept_en).
  cbv beta iota. rewrite get_languages. reflexivity.
Qed.

(** The case analysis on a language code: one of the four, or none. *)
Ltac by_cases language :=
  unfold by_language;
  destruct (str_eqb k_es language) eqn:Ees;
    [ | destruct (str_eqb k_fr language) eqn:Efr;
        [ | destruct (str_eqb k_de language) eqn:Ede ] ].

(** The prompt of each task is the chosen template with the text in the
    place of its field. *)
Lemma build_prompt_interpolates (kind : task_kind) (text language : str) :
  build_prompt kind text language
  = Ok (before_field (template kind language) ++ text
        ++ after_field (template kind language)).
Proof.
  destruct kind; cbn [build_prompt].
  - unfold summarize_prompt. rewrite template_for_summarize.
    cbn [template]. by_cases language; vm_compute; reflexivity.
  - unfold answer_prompt. rewrite template_for_answer.
    cbn [template]. by_cases language; vm_compute; reflexivity.
  - unfold explain_prompt. rewrite template_for_explain.
    cbn [template]. by_cases language; vm_compute; reflexivity.
  - unfold translate_prompt.
    change (PyDict.index (translation_prompts text) k_en)
      with (Ok (u "Translate the following text to English:" ++ [nl; nl]
                ++ text ++ [nl; nl] ++ u "Translation:")).
    cbv beta iota. unfold PyDict.get, translation_prompts.
    cbn [PyDict.lookup template]. by_cases language;
      try (vm_compute; reflexivity).
    destruct (str_eqb k_en language); vm_compute; reflexivity.
Qed.

(** Every template is its two parts around the one field. *)
Lemma template_parts (kind : task_kind) (language : str) :
  template kind language
  = before_field (template kind language)
    ++ [lbrace] ++ field_name kind ++ [rbrace]
    ++ after_field (template kind language).
Proof.
  destruct kind; cbn [template]; by_cases language; vm_compute; reflexivity.
Qed.

(** An unrecognized language code selects the English template. *)
Lemma template_fallback (kind : task_kind) (language : str) :
  template kind language
  = template kind (if recognized language then language else k_en).
Proof.
  unfold recognized.
  destruct (str_eqb k_en language) eqn:Een; cbn [orb]; [reflexivity | ].
  destruct (str_eqb k_es language) eqn:Ees; cbn [orb]; [reflexivity | ].
  destruct (str_eqb k_fr language) eqn:Efr; cbn [orb]; [reflexivity | ].
  destruct (str_eqb k_de language) eqn:Ede; cbn [orb]; [reflexivity | ].
  destruct kind; cbn [template]; unfold by_language;
    rewrite Ees, Efr, Ede; vm_compute; reflexivity.
Qed.

End Prompts.

(* ================================================================== *)
(** * generate_response and the tasks *)
(* ================================================================== *)

Module Tasks.

Import Engine Spec Prompts.

Section WithLibs.

Variable L : Libs.

Lemma generate_response_trace (self : AIEngine) (prompt : str)
    (max_length' : option Z) :
  exists t,
    trace (generate_response L self prompt max_length')
    = CallGenerate prompt max_length' :: t.
Proof.
  unfold generate_response. rewrite trace_tell_then. eauto.
Qed.

Lemma generate_response_unloaded (self : AIEngine) (prompt : str)
    (max_length' : option Z) :
  model_loaded self = false ->
  value (generate_response L self prompt max_length') = Ok [].
Proof.
  intros H. unfold generate_response. rewrite value_tell_then, H.
  reflexivity.
Qed.

Lemma generate_response_raise (self : AIEngine) (prompt : str)
    (max_length' : option Z) (e : exn) :
  value (model_output L self prompt max_length') = Raise e ->
  value (generate_response L self prompt max_length') = Ok [].
Proof.
  intros H. unfold generate_response. rewrite value_tell_then.
  destruct (model_loaded self); [ | reflexivity]. cbn [negb].
  rewrite (value_try_raise _ (e := e)); [reflexivity | ].
  unfold run_model. apply value_bind_raise, H.
Qed.

Lemma generate_response_fails (self : AIEngine) (prompt : str)
    (max_length' : option Z) :
  generation_fails L self ->
  value (generate_response L self prompt max_length') = Ok [].
Proof.
  intros [H | H].
  - apply generate_response_unloaded, H.
  - destruct (H prompt max_length') as [e He].
    exact (generate_response_raise self prompt max_length' e He).
Qed.

Lemma generate_response_decoded (self : AIEngine) (prompt : str)
    (max_length' : option Z) (response : str) :
  model_loaded self = true ->
  value (model_output L self prompt max_length') = Ok response ->
  value (generate_response L self prompt max_length')
  = Ok (strip (skipn (List.length prompt) response)).
Proof.
  intros Hl H. unfold generate_response. rewrite value_tell_then, Hl.
  cbn [negb]. apply value_try_ok. unfold run_model.
  rewrite (value_bind_ok _ H). reflexivity.
Qed.

(** A blank text is answered at once, with an empty trace. *)
Lemma run_task_blank (self : AIEngine) (kind : task_kind)
    (text language : str) :
  is_empty (strip text) = true ->
  run_task L self kind text language = ret (msg_nothing_provided kind).
Proof.
  intros H. destruct kind; cbn [run_task];
    unfold summarize_text, answer_question, explain_concept, translate_text;
    rewrite H; reflexivity.
Qed.

(** Any other text goes through [generate_response], with the prompt of
    the task and its cap. *)
Lemma run_task_generates (self : AIEngine) (kind : task_kind)
    (text language : str) :
  is_empty (strip text) = false ->
  run_task L self kind text language
  = bind (generate_response L self
            (before_field (template kind language) ++ text
             ++ after_field (template kind language))
            (Some (cap kind)))
      (fun generated => ret (task_output kind text generated)).
Proof.
  intros H.
  pose proof (build_prompt_interpolates kind text language) as Hp.
  destruct kind; cbn [run_task build_prompt cap] in *;
    unfold summarize_text, answer_question, explain_concept, translate_text;
    rewrite H, Hp, bind_lift_ok; apply bind_ext; intros generated;
    unfold task_output; destruct (is_empty generated); reflexivity.
Qed.

End WithLibs.

Lemma skipn_length_app {A} (p c : list A) : skipn (List.length p) (p ++ c) = c.
Proof. induction p as [ | x p IH]; [reflexivity | exact IH]. Qed.

(** C6. For every task kind and language code, the prompt is built from
    the template keyed by (task kind, language code), the English template
    when the code is not recognized, and the text is put losslessly in the
    place of the template's single field: the prompt is the part of the
    template before the field, the text verbatim, and the part after it;
    this prompt is what a text that is not blank is generated from, with
    the cap of the task. *)
Theorem prompt_construction (kind : task_kind) (text language : str) :
  template kind language
  = template kind (if recognized language then language else k_en)
  /\ template kind language
     = before_field (template kind language)
       ++ [lbrace] ++ field_name kind ++ [rbrace]
       ++ after_field (template kind language)
  /\ build_prompt kind text language
     = Ok (before_field (template kind language) ++ text
           ++ after_field (template kind language))
  /\ forall L self,
       hd_error (trace (run_task L self kind text language))
       = if is_empty (strip text) then None
         else Some (CallGenerate
                      (before_field (template kind language) ++ text
                       ++ after_field (template kind language))
                      (Some (cap kind))).
Proof.
  split; [apply template_fallback | ].
  split; [apply template_parts | ].
  split; [apply build_prompt_interpolates | ].
  intros L self. destruct (is_empty (strip text)) eqn:H.
  - rewrite (run_task_blank L self kind text language H). reflexivity.
  - rewrite (run_task_generates L self kind text language H).
    destruct (generate_response_trace L self
                (before_field (template kind language) ++ text
                 ++ after_field (template kind language))
                (Some (cap kind))) as [t Ht].
    destruct (trace_bind_head _
                (fun generated => ret (task_output kind text generated))
                _ _ Ht) as [t' Ht'].
    rewrite Ht'. reflexivity.
Qed.

Example summarize_prompt_german :
  build_prompt Summarize (u "Zellen") (u "de")
  = Ok (u "Sie sind ein hilfreicher Bildungsassistent. Fassen Sie den folgenden Lehrbuchinhalt in einfachen Begriffen zusammen, die ein 12-jähriger Schüler verstehen kann. Konzentrieren Sie sich auf die Hauptkonzepte und erklären Sie sie klar:"
        ++ [nl; nl] ++ u "Zellen" ++ [nl; nl] ++ u "Zusammenfassung:").
Proof. vm_compute. reflexivity. Qed.

Example answer_prompt_unknown_language :
  build_prompt Answer (u "Why?") (u "it")
  = build_prompt Answer (u "Why?") (u "en").
Proof. vm_compute. reflexivity. Qed.

(** C7. For the empty string, [summarize_text], [answer_question] and
    [explain_concept] return their fixed messages, and nothing is
    generated: the trace of the call is empty. *)
Theorem empty_input_messages (L : Libs) (self : AIEngine) (language : str) :
  (returns (summarize_text L self [] language)
     (u "No text provided for summarization.")
   /\ trace (summarize_text L self [] language) = [])
  /\ (returns (answer_question L self [] language)
        (u "No question provided.")
      /\ trace (answer_question L self [] language) = [])
  /\ (returns (explain_concept L self [] language)
        (u "No concept provided for explanation.")
      /\ trace (explain_concept L self [] language) = [])
  /\ no_generation (trace (summarize_text L self [] language))
  /\ no_generation (trace (answer_question L self [] language))
  /\ no_generation (trace (explain_concept L self [] language)).
Proof.
  rewrite (run_task_blank L self Summarize [] language eq_refl
           : summarize_text L self [] language = _).
  rewrite (run_task_blank L self Answer [] language eq_refl
           : answer_question L self [] language = _).
  rewrite (run_task_blank L self Explain [] language eq_refl
           : explain_concept L self [] language = _).
  repeat split.
Qed.

(** C10. For every text made of whitespace only, [summarize_text],
    [answer_question] and [explain_concept] return their fixed messages
    and [translate_text] returns the empty string, and the model is not
    invoked: the trace of the call is empty. *)
Theorem whitespace_input_messages (L : Libs) (self : AIEngine)
    (text language : str) (Hws : forallb isspace text = true) :
  (returns (summarize_text L self text language)
     (u "No text provided for summarization.")
   /\ trace (summarize_text L self text language) = [])
  /\ (returns (answer_question L self text language)
        (u "No question provided.")
      /\ trace (answer_question L self text language) = [])
  /\ (returns (explain_concept L self text language)
        (u "No concept provided for explanation.")
      /\ trace (explain_concept L self text language) = [])
  /\ (returns (translate_text L self text language) []
      /\ trace (translate_text L self text language) = []).
Proof.
  assert (H : is_empty (strip text) = true)
    by (rewrite is_empty_strip; exact Hws).
  rewrite (run_task_blank L self Summarize text language H
           : summarize_text L self text language = _).
  rewrite (run_task_blank L self Answer text language H
           : answer_question L self text language = _).
  rewrite (run_task_blank L self Explain text language H
           : explain_concept L self text language = _).
  rewrite (run_task_blank L self Translate text language H
           : translate_text L self text language = _).
  repeat split.
Qed.

Lemma whitespace_input_messages_witness :
  returns
    (summarize_text (Examples.echo_libs (u "never used")) Examples.loaded
       [32%N; 9%N; 10%N; 160%N; 8195%N] k_en)
    (u "No text provided for summarization.")
  /\ trace
       (translate_text (Examples.echo_libs (u "never used")) Examples.loaded
          [32%N; 9%N; 10%N; 160%N; 8195%N] k_es) = [].
Proof.
  destruct (whitespace_input_messages
              (Examples.echo_libs (u "never used")) Examples.loaded
              [32%N; 9%N; 10%N; 160%N; 8195%N] k_en eq_refl)
    as ((Hs & _) & _).
  destruct (whitespace_input_messages
              (Examples.echo_libs (u "never used")) Examples.loaded
              [32%N; 9%N; 10%N; 160%N; 8195%N] k_es eq_refl)
    as (_ & _ & _ & (_ & Ht)).
  split; [exact Hs | exact Ht].
Defined.

(** C1, as the code has it.  When the text is not blank and the model is
    not loaded or the generation call that the task makes (the prompt it
    builds, its cap) raises, [summarize_text], [answer_question] and
    [explain_concept] return the fixed message of their kind, and
    [translate_text] returns the text it was given. *)
Theorem tasks_fail_soft (L : Libs) (self : AIEngine) (text language : str)
    (Htext : is_empty (strip text) = false) :
  (forall prompt,
     summarize_prompt text language = Ok prompt ->
     call_fails L self prompt (Some 500%Z) ->
     returns (summarize_text L self text language)
       (u "Unable to generate summary at this time."))
  /\ (forall prompt,
        answer_prompt text language = Ok prompt ->
        call_fails L self prompt (Some 800%Z) ->
        returns (answer_question L self text language)
          (u "Unable to generate answer at this time."))
  /\ (forall prompt,
        explain_prompt text language = Ok prompt ->
        call_fails L self prompt (Some 600%Z) ->
        returns (explain_concept L self text language)
          (u "Unable to generate explanation at this time."))
  /\ (forall prompt,
        translate_prompt text language = Ok prompt ->
        call_fails L self prompt (Some 400%Z) ->
        returns (translate_text L self text language) text).
Proof.
  assert (H : forall kind prompt,
             build_prompt kind text language = Ok prompt ->
             call_fails L self prompt (Some (cap kind)) ->
             value (run_task L self kind text language)
             = Ok (task_output kind text [])).
  { intros kind prompt Hprompt Hfail.
    rewrite build_prompt_interpolates in Hprompt.
    injection Hprompt as Hprompt.
    rewrite (run_task_generates L self kind text language Htext).
    rewrite value_bind_ret, Hprompt.
    destruct Hfail as [Hl | [e He]].
    - rewrite (generate_response_unloaded L self _ _ Hl). reflexivity.
    - rewrite (generate_response_raise L self _ _ e He). reflexivity. }
  split; [exact (H Summarize) | ].
  split; [exact (H Answer) | ].
  split; [exact (H Explain) | exact (H Translate)].
Qed.

Lemma tasks_fail_soft_witness :
  returns
    (summarize_text (Examples.short_prompt_libs (u "never decoded"))
       Examples.loaded (u "photosynthesis") k_fr)
    (u "Unable to generate summary at this time.")
  /\ returns
       (translate_text (Examples.short_prompt_libs (u "never decoded"))
          init (u "photosynthesis") k_fr)
       (u "photosynthesis").
Proof.
  split.
  - destruct (tasks_fail_soft (Examples.short_prompt_libs (u "never decoded"))
                Examples.loaded (u "photosynthesis") k_fr eq_refl)
      as (Hs & _).
    eapply Hs.
    + vm_compute. reflexivity.
    + right. exists (Exn (u "prompt too long")). vm_compute. reflexivity.
  - destruct (tasks_fail_soft (Examples.short_prompt_libs (u "never decoded"))
                init (u "photosynthesis") k_fr eq_refl)
      as (_ & _ & _ & Ht).
    eapply Ht.
    + vm_compute. reflexivity.
    + left. reflexivity.
Defined.

(** The library of the example raises on long prompts only: a short
    prompt is answered. *)
Example short_prompt_is_answered :
  value
    (generate_response (Examples.short_prompt_libs (u "Hi there"))
       Examples.loaded (u "Hi") None)
  = Ok (u "there").
Proof. vm_compute. reflexivity. Qed.

(** The claim of C1 as it is stated fails for the translation: with the
    model not loaded, [translate_text] returns its input, which is no
    fixed message. *)
Lemma translate_text_no_fixed_message_counterexample :
  ~ (forall kind : task_kind,
       exists message : str,
         forall (L : Libs) (self : AIEngine) (text language : str),
           generation_fails L self ->
           returns (run_task L self kind text language) message).
Proof.
  intros H. destruct (H Translate) as [message Hm].
  assert (Hfail : generation_fails Examples.failing_libs init)
    by (left; reflexivity).
  pose proof (Hm Examples.failing_libs init (u "a") k_es Hfail) as Ha.
  pose proof (Hm Examples.failing_libs init (u "b") k_es Hfail) as Hb.
  vm_compute in Ha. vm_compute in Hb.
  injection Ha as Ha. injection Hb as Hb.
  rewrite <- Ha in Hb. discriminate Hb.
Qed.

(** C5, as the code has it.  With the model loaded, when the decoded
    output is the prompt followed by a continuation, [generate_response]
    returns the continuation alone, stripped of surrounding whitespace:
    the echoed prompt is cut off. *)
Theorem generate_response_cuts_prompt (L : Libs) (self : AIEngine)
    (prompt : str) (max_length' : option Z) (continuation : str)
    (Hloaded : model_loaded self = true)
    (Hout : value (model_output L self prompt max_length')
            = Ok (prompt ++ continuation)) :
  returns (generate_response L self prompt max_length') (strip continuation).
Proof.
  pose proof (generate_response_decoded L self prompt max_length'
                (prompt ++ continuation) Hloaded Hout) as H.
  rewrite skipn_length_app in H. exact H.
Qed.

Lemma generate_response_cuts_prompt_witness :
  returns
    (generate_response (Examples.echo_libs (u "Hi there")) Examples.loaded
       (u "Hi") None)
    (u "there").
Proof.
  exact (generate_response_cuts_prompt
           (Examples.echo_libs (u "Hi there")) Examples.loaded
           (u "Hi") None (u " there") eq_refl eq_refl).
Defined.

(** The claim of C5 as it is stated fails: a continuation that begins
    with the text of the prompt is returned as it is, so the result has
    the prompt as a prefix. *)
Lemma generate_response_prefix_counterexample :
  ~ (forall (L : Libs) (self : AIEngine) (prompt : str)
            (max_length' : option Z) (out : str),
       prompt <> [] ->
       returns (generate_response L self prompt max_length') out ->
       startswith prompt out = false).
Proof.
  intros H.
  specialize (H (Examples.echo_libs (u "HiHi there")) Examples.loaded
                (u "Hi") None (u "Hi there")).
  assert (Hne : u "Hi" <> []) by (vm_compute; discriminate).
  specialize (H Hne eq_refl). vm_compute in H. discriminate H.
Qed.

End Tasks.

(* ================================================================== *)
(** * More facts about strings *)
(* ================================================================== *)

Module ShapeFacts.

Import Shape Spec.

Lemma lstrip_fix (s : str) : nonspace_head s = true -> lstrip s = s.
Proof.
  destruct s as [ | c s]; [reflexivity | ]. cbn.
  destruct (isspace c); [discriminate | reflexivity].
Qed.

Lemma nonspace_head_lstrip (s : str) : nonspace_head (lstrip s) = true.
Proof.
  induction s as [ | c s IH]; [reflexivity | ]. cbn.
  destruct (isspace c) eqn:E; [exact IH | ]. cbn. rewrite E. reflexivity.
Qed.

Lemma lstrip_app_keep (l : str) (c : char) :
  isspace c = false -> exists l', lstrip (l ++ [c]) = l' ++ [c].
Proof.
  intros Hc. induction l as [ | x l IH]; cbn.
  - rewrite Hc. exists []. reflexivity.
  - destruct (isspace x); [exact IH | ]. exists (x :: l). reflexivity.
Qed.

Lemma strip_fix (s : str) :
  nonspace_head s = true -> nonspace_head (rev s) = true -> strip s = s.
Proof.
  intros H1 H2. unfold strip, rstrip.
  rewrite (lstrip_fix s H1), (lstrip_fix (rev s) H2). apply rev_involutive.
Qed.

Lemma nonspace_head_strip (s : str) : nonspace_head (strip s) = true.
Proof.
  unfold strip, rstrip.
  pose proof (nonspace_head_lstrip s) as H.
  destruct (lstrip s) as [ | c a]; [reflexivity | ].
  cbn in H. apply negb_true_iff in H.
  cbn [rev]. destruct (lstrip_app_keep (rev a) c H) as [l' ->].
  rewrite rev_app_distr. cbn. rewrite H. reflexivity.
Qed.

Lemma nonspace_head_rev_strip (s : str) :
  nonspace_head (rev (strip s)) = true.
Proof.
  unfold strip, rstrip. rewrite rev_involutive. apply nonspace_head_lstrip.
Qed.

Lemma strip_idempotent (s : str) : strip (strip s) = strip s.
Proof.
  apply strip_fix; [apply nonspace_head_strip | apply nonspace_head_rev_strip].
Qed.

(** ** Tokens *)

Lemma is_token_rev (w : str) : is_token (rev w) = is_token w.
Proof.
  unfold is_token. rewrite is_empty_rev, forallb_rev. reflexivity.
Qed.

Lemma split_ws_from_tokens (s tok : str) :
  forallb (fun c => negb (isspace c)) tok = true ->
  Forall (fun w => is_token w = true) (split_ws_from s tok).
Proof.
  revert tok. induction s as [ | c s IH]; intros tok Htok; cbn.
  - destruct tok as [ | x tok]; [constructor | ].
    constructor; [ | constructor].
    rewrite is_token_rev. unfold is_token. rewrite Htok. reflexivity.
  - destruct (isspace c) eqn:Ec.
    + destruct tok as [ | x tok]; [apply IH; reflexivity | ].
      constructor; [ | apply IH; reflexivity].
      rewrite is_token_rev. unfold is_token. rewrite Htok. reflexivity.
    + apply IH. cbn. rewrite Ec, Htok. reflexivity.
Qed.

Lemma split_ws_tokens (s : str) :
  Forall (fun w => is_token w = true) (split_ws s).
Proof. apply split_ws_from_tokens. reflexivity. Qed.

(** Reading a run of non-whitespace characters pushes it on the current
    token. *)
Lemma split_ws_from_run (w rest tok : str) :
  forallb (fun c => negb (isspace c)) w = true ->
  split_ws_from (w ++ rest) tok = split_ws_from rest (rev w ++ tok).
Proof.
  revert tok. induction w as [ | c w IH]; intros tok Hw; [reflexivity | ].
  cbn in Hw. apply andb_prop in Hw as [Hc Hw]. apply negb_true_iff in Hc.
  cbn. rewrite Hc, (IH (c :: tok) Hw), <- app_assoc. reflexivity.
Qed.

Lemma split_ws_join (toks : list str) :
  Forall (fun w => is_token w = true) toks ->
  split_ws (join [sp] toks) = toks.
Proof.
  unfold split_ws. induction 1 as [ | w toks Hw _ IH]; [reflexivity | ].
  unfold is_token in Hw. apply andb_prop in Hw as [Hne Hns].
  cbn [join]. destruct toks as [ | w' toks].
  - rewrite <- (app_nil_r w) at 1. rewrite (split_ws_from_run w [] [] Hns).
    rewrite app_nil_r. cbn. destruct (rev w) as [ | x r] eqn:E.
    + rewrite <- is_empty_rev, E in Hne. discriminate.
    + rewrite <- E, rev_involutive. reflexivity.
  - rewrite (split_ws_from_run w _ [] Hns), app_nil_r.
    cbn [app split_ws_from]. change (isspace sp) with true. cbv iota.
    destruct (rev w) as [ | x r] eqn:E.
    + rewrite <- is_empty_rev, E in Hne. discriminate.
    + rewrite <- E, rev_involutive. f_equal. exact IH.
Qed.

Lemma collapse_idempotent (line : str) :
  collapse_whitespace (collapse_whitespace line) = collapse_whitespace line.
Proof.
  unfold collapse_whitespace. rewrite split_ws_join; [reflexivity | ].
  apply split_ws_tokens.
Qed.

Lemma split_ws_from_nonempty (s tok : str) :
  tok <> [] -> split_ws_from s tok <> [].
Proof.
  revert tok. induction s as [ | c s IH]; intros tok Htok; cbn.
  - destruct tok; [contradiction | discriminate].
  - destruct (isspace c).
    + destruct tok; [contradiction | discriminate].
    + apply IH. discriminate.
Qed.

(** A string has no token exactly when it is made of whitespace. *)
Lemma split_ws_nil (s : str) :
  match split_ws s with [] => true | _ => false end = forallb isspace s.
Proof.
  unfold split_ws. induction s as [ | c s IH]; [reflexivity | ]. cbn.
  destruct (isspace c); [exact IH | ].
  pose proof (split_ws_from_nonempty s [c]) as H.
  destruct (split_ws_from s [c]); [exfalso; apply H; [discriminate | reflexivity] | reflexivity].
Qed.

Lemma token_head (w : str) :
  is_token w = true -> exists c w', w = c :: w' /\ isspace c = false.
Proof.
  unfold is_token. destruct w as [ | c w]; [discriminate | ]. cbn.
  intros H. apply andb_prop in H as [H _]. apply negb_true_iff in H.
  exists c, w. split; [reflexivity | exact H].
Qed.

Lemma blank_join_tokens (toks : list str) :
  Forall (fun w => is_token w = true) toks ->
  blank (join [sp] toks) = match toks with [] => true | _ => false end.
Proof.
  intros H. destruct H as [ | w toks Hw _]; [reflexivity | ].
  destruct (token_head w Hw) as (c & w' & -> & Hc).
  unfold blank. cbn [join]. destruct toks; cbn; rewrite Hc; reflexivity.
Qed.

Lemma blank_collapse (line : str) :
  blank (collapse_whitespace line) = blank line.
Proof.
  unfold collapse_whitespace. rewrite blank_join_tokens by apply split_ws_tokens.
  unfold blank. apply split_ws_nil.
Qed.

Lemma no_newline_token (w : str) : is_token w = true -> no_newline w = true.
Proof.
  unfold is_token, no_newline. intros H. apply andb_prop in H as [_ H].
  rewrite forallb_forall in *. intros c Hin. specialize (H c Hin).
  destruct (chr_eqb c nl) eqn:E; [ | reflexivity].
  apply N.eqb_eq in E. subst c. discriminate H.
Qed.

Lemma no_newline_join_tokens (toks : list str) :
  Forall (fun w => is_token w = true) toks ->
  no_newline (join [sp] toks) = true.
Proof.
  induction 1 as [ | w toks Hw _ IH]; [reflexivity | ].
  cbn [join]. destruct toks as [ | w' toks]; [apply no_newline_token, Hw | ].
  pose proof (no_newline_token w Hw) as Hn.
  unfold no_newline in *. rewrite !forallb_app, IH, Hn. reflexivity.
Qed.

Lemma nonspace_head_app (a b : str) :
  a <> [] -> nonspace_head (a ++ b) = nonspace_head a.
Proof. destruct a; [contradiction | reflexivity]. Qed.

Lemma nonspace_head_rev_token (w : str) :
  is_token w = true -> rev w <> [] /\ nonspace_head (rev w) = true.
Proof.
  intros H. rewrite <- is_token_rev in H.
  destruct (token_head (rev w) H) as (c & w' & E & Hc).
  rewrite E. split; [discriminate | ]. cbn. rewrite Hc. reflexivity.
Qed.

Lemma nonspace_head_rev_join_tokens (toks : list str) :
  Forall (fun w => is_token w = true) toks ->
  toks <> [] ->
  rev (join [sp] toks) <> [] /\ nonspace_head (rev (join [sp] toks)) = true.
Proof.
  induction 1 as [ | w toks Hw Htoks IH]; [contradiction | ]. intros _.
  cbn [join]. destruct toks as [ | w' toks]; [apply nonspace_head_rev_token, Hw | ].
  destruct (IH ltac:(discriminate)) as [Hne Hh].
  rewrite rev_app_distr. cbn [app rev]. rewrite <- !app_assoc.
  split.
  - intros E. apply app_eq_nil in E as [E _]. contradiction.
  - rewrite nonspace_head_app by exact Hne. exact Hh.
Qed.

(** What [clean_text] keeps of a line is a clean line. *)
Lemma collapse_clean_line (line : str) :
  blank (collapse_whitespace line) = false ->
  clean_line (collapse_whitespace line).
Proof.
  intros Hb. pose proof (split_ws_tokens line) as Ht.
  split; [apply collapse_idempotent | ].
  split; [exact Hb | ].
  split; [apply no_newline_join_tokens, Ht | ].
  unfold collapse_whitespace in *.
  rewrite (blank_join_tokens _ Ht) in Hb.
  destruct (split_ws line) as [ | w toks] eqn:E; [discriminate | ].
  split.
  - inversion Ht as [ | ? ? Hw _]; subst.
    destruct (token_head w Hw) as (c & w' & -> & Hc).
    cbn [join]. destruct toks; cbn; rewrite Hc; reflexivity.
  - apply nonspace_head_rev_join_tokens; [exact Ht | discriminate].
Qed.

End ShapeFacts.

(* ================================================================== *)
(** * The text that clean_text and extract_text return *)
(* ================================================================== *)

Module CleanShape.

Import OCR Spec Shape ShapeFacts.

Lemma clean_text_kept (text : str) :
  clean_text text = join [nl] (kept_lines text).
Proof. unfold clean_text. rewrite CleanText.clean_loop. reflexivity. Qed.

Lemma kept_lines_clean (text : str) : Forall clean_line (kept_lines text).
Proof.
  unfold kept_lines. apply Forall_forall. intros k Hin.
  apply filter_In in Hin as [Hin Hb]. apply negb_true_iff in Hb.
  apply in_map_iff in Hin as (line & <- & _).
  apply collapse_clean_line, Hb.
Qed.

Lemma split_from_run (w rest cur : str) :
  no_newline w = true ->
  split_from nl (w ++ rest) cur = split_from nl rest (rev w ++ cur).
Proof.
  revert cur. induction w as [ | c w IH]; intros cur Hw; [reflexivity | ].
  cbn in Hw. apply andb_prop in Hw as [Hc Hw]. apply negb_true_iff in Hc.
  cbn. rewrite Hc, (IH (c :: cur) Hw), <- app_assoc. reflexivity.
Qed.

(** Lines without newline are found again when their join is split. *)
Lemma split_join_lines (lines : list str) :
  lines <> [] -> Forall (fun l => no_newline l = true) lines ->
  split nl (join [nl] lines) = lines.
Proof.
  unfold split. intros Hne H. induction H as [ | l lines Hl _ IH]; [contradiction | ].
  cbn [join]. destruct lines as [ | l' lines].
  - rewrite <- (app_nil_r l) at 1. rewrite (split_from_run l [] [] Hl).
    cbn. rewrite app_nil_r, rev_involutive. reflexivity.
  - rewrite (split_from_run l _ [] Hl), app_nil_r.
    cbn [app split_from]. change (chr_eqb nl nl) with true. cbv iota.
    rewrite rev_involutive. f_equal. apply IH. discriminate.
Qed.

Lemma forallb_isspace_split_from (s cur : str) :
  forallb (forallb isspace) (split_from nl s cur)
  = forallb isspace cur && forallb isspace s.
Proof.
  revert cur. induction s as [ | c s IH]; intros cur; cbn.
  - rewrite forallb_rev, !andb_true_r. reflexivity.
  - destruct (chr_eqb c nl) eqn:E.
    + apply N.eqb_eq in E. subst c. cbn. rewrite forallb_rev, IH. reflexivity.
    + rewrite IH. cbn. destruct (isspace c); cbn; [reflexivity | ].
      rewrite !andb_false_r. reflexivity.
Qed.

Lemma filter_nil_forallb {A} (p : A -> bool) (l : list A) :
  match filter (fun x => negb (p x)) l with [] => true | _ => false end
  = forallb p l.
Proof.
  induction l as [ | x l IH]; [reflexivity | ]. cbn.
  destruct (p x); cbn; [exact IH | reflexivity].
Qed.

Lemma forallb_map_ext {A B} (p : B -> bool) (q : A -> bool) (f : A -> B)
    (l : list A) :
  (forall x, p (f x) = q x) -> forallb p (map f l) = forallb q l.
Proof.
  intros H. induction l as [ | x l IH]; [reflexivity | ]. cbn.
  rewrite H, IH. reflexivity.
Qed.

Lemma kept_lines_nil (text : str) :
  match kept_lines text with [] => true | _ => false end
  = forallb isspace text.
Proof.
  unfold kept_lines. rewrite filter_nil_forallb.
  rewrite (forallb_map_ext blank (forallb isspace) collapse_whitespace)
    by (intros l; apply blank_collapse).
  unfold split. rewrite forallb_isspace_split_from. reflexivity.
Qed.

Lemma clean_line_nonempty (line : str) : clean_line line -> line <> [].
Proof. intros (_ & Hb & _) ->. discriminate Hb. Qed.

Lemma is_empty_join_lines (lines : list str) :
  Forall clean_line lines ->
  is_empty (join [nl] lines) = match lines with [] => true | _ => false end.
Proof.
  intros H. destruct H as [ | l lines Hl _]; [reflexivity | ].
  pose proof (clean_line_nonempty l Hl) as Hne.
  cbn [join]. destruct l as [ | c l]; [contradiction | ].
  destruct lines; reflexivity.
Qed.

Lemma nonspace_head_rev_join_lines (lines : list str) :
  Forall clean_line lines -> lines <> [] ->
  rev (join [nl] lines) <> []
  /\ nonspace_head (rev (join [nl] lines)) = true.
Proof.
  induction 1 as [ | l lines Hl _ IH]; [contradiction | ]. intros _.
  cbn [join]. destruct lines as [ | l' lines].
  - pose proof (clean_line_nonempty l Hl) as Hne.
    destruct Hl as (_ & _ & _ & _ & Hr). split; [ | exact Hr].
    intros E. apply Hne. rewrite <- (rev_involutive l), E. reflexivity.
  - destruct (IH ltac:(discriminate)) as [Hne Hh].
    rewrite rev_app_distr. cbn [app rev]. rewrite <- !app_assoc.
    split.
    + intros E. apply app_eq_nil in E as [E _]. contradiction.
    + rewrite nonspace_head_app by exact Hne. exact Hh.
Qed.

Lemma map_fix {A} (f : A -> A) (l : list A) :
  Forall (fun x => f x = x) l -> map f l = l.
Proof.
  induction 1 as [ | x l Hx _ IH]; [reflexivity | ]. cbn. rewrite Hx, IH.
  reflexivity.
Qed.

Lemma filter_all {A} (p : A -> bool) (l : list A) :
  Forall (fun x => p x = true) l -> filter p l = l.
Proof.
  induction 1 as [ | x l Hx _ IH]; [reflexivity | ]. cbn. rewrite Hx, IH.
  reflexivity.
Qed.

(** [clean_text] leaves its own output unchanged. *)
Lemma clean_text_fixpoint (text : str) :
  clean_text (clean_text text) = clean_text text.
Proof.
  rewrite (clean_text_kept text).
  pose proof (kept_lines_clean text) as Hk.
  destruct (kept_lines text) as [ | l lines] eqn:E; [reflexivity | ].
  rewrite clean_text_kept. unfold kept_lines at 1.
  rewrite split_join_lines.
  - rewrite map_fix, filter_all; [reflexivity | | ].
    + eapply Forall_impl; [ | exact Hk]. intros k (_ & Hb & _).
      cbv beta. rewrite Hb. reflexivity.
    + eapply Forall_impl; [ | exact Hk]. intros k (Hc & _). exact Hc.
  - discriminate.
  - eapply Forall_impl; [ | exact Hk]. intros k (_ & _ & Hn & _). exact Hn.
Qed.

Lemma clean_text_is_empty (text : str) :
  is_empty (clean_text text) = forallb isspace text.
Proof.
  rewrite clean_text_kept, is_empty_join_lines by apply kept_lines_clean.
  apply kept_lines_nil.
Qed.

Lemma clean_text_strip (text : str) :
  strip (clean_text text) = clean_text text.
Proof.
  rewrite clean_text_kept.
  pose proof (kept_lines_clean text) as Hk.
  destruct (kept_lines text) as [ | l lines] eqn:E; [reflexivity | ].
  apply strip_fix.
  - inversion Hk as [ | ? ? Hl _]; subst.
    pose proof (clean_line_nonempty l Hl) as Hne.
    destruct Hl as (_ & _ & _ & Hh & _).
    cbn [join]. destruct lines; [exact Hh | ].
    rewrite nonspace_head_app by exact Hne. exact Hh.
  - apply nonspace_head_rev_join_lines; [exact Hk | discriminate].
Qed.

(** X1. [clean_text] is idempotent: cleaning a text that was cleaned
    changes nothing. *)
Theorem clean_text_idempotent (text : str) :
  clean_text (clean_text text) = clean_text text.
Proof. exact (clean_text_fixpoint text). Qed.

(** X2. [clean_text] returns the empty string exactly for the texts made
    of whitespace only (the empty text among them). *)
Theorem clean_text_empty_iff_blank (text : str) :
  is_empty (clean_text text) = forallb isspace text.
Proof. exact (clean_text_is_empty text). Qed.

(** X3. The output of [clean_text] has no whitespace at either end:
    [strip] leaves it unchanged. *)
Theorem clean_text_stripped (text : str) :
  strip (clean_text text) = clean_text text.
Proof. exact (clean_text_strip text). Qed.

End CleanShape.

(* ================================================================== *)
(** * What the extractor hands to its callers *)
(* ================================================================== *)

Module ExtractorShape.

Import OCR Spec Shape CleanShape Utils.

Section WithLibs.

Variable L : Libs.

Lemma extract_text_value (image : ndarray L) :
  value (extract_text L image) = Ok []
  \/ exists raw, value (extract_text L image) = Ok (clean_text raw).
Proof.
  unfold extract_text.
  destruct (value (preprocess_image L image)) as [processed | e] eqn:Hp.
  - destruct (image_to_string L processed custom_config) as [raw | e] eqn:Hs.
    + right. exists raw. apply value_try_ok.
      rewrite (value_bind_ok _ Hp), (value_bind_lift _ Hs). reflexivity.
    + left. rewrite (value_try_raise _ (e := e)); [reflexivity | ].
      rewrite (value_bind_ok _ Hp). apply value_bind_lift_raise, Hs.
  - left. rewrite (value_try_raise _ (e := e)); [reflexivity | ].
    apply value_bind_raise, Hp.
Qed.

(** One cell that [int] cannot read makes the comprehension raise. *)
Lemma positive_confidences_raise (col : list (cell L)) (c : cell L)
    (e : exn) :
  In c col -> py_int L c = Raise e ->
  exists e', positive_confidences L col = Raise e'.
Proof.
  intros Hin Hc. induction col as [ | x col IH]; [contradiction | ].
  cbn [positive_confidences].
  destruct (py_int L x) as [v | ex] eqn:Ex; [ | eauto].
  destruct Hin as [-> | Hin]; [rewrite Hc in Ex; discriminate | ].
  destruct (IH Hin) as [e' He'].
  destruct (v >? 0)%Z; rewrite He'; eauto.
Qed.

End WithLibs.

Lemma detect_language_codes (text : str) :
  detect_language text = lang_en \/ detect_language text = lang_es.
Proof.
  unfold detect_language.
  destruct (Z.of_nat (List.length text) =? 0)%Z; [left; reflexivity | ].
  destruct (gtb _ f0_3); [right | left]; reflexivity.
Qed.

Lemma extract_text_returns_clean_text_aux (L : Libs) (image : ndarray L) :
  exists text,
    value (extract_text L image) = Ok text /\ clean_text text = text.
Proof.
  destruct (extract_text_value L image) as [H | [raw H]].
  - exists []. split; [exact H | reflexivity].
  - exists (clean_text raw). split; [exact H | apply clean_text_fixpoint].
Qed.

(** X4. [extract_text] never raises, and what it returns is already
    clean: [clean_text] leaves it unchanged, it has no whitespace at
    either end, and it is empty or holds a character that is no
    whitespace. *)
Theorem extract_text_returns_clean_text (L : Libs) (image : ndarray L) :
  exists text,
    returns (extract_text L image) text
    /\ clean_text text = text
    /\ strip text = text
    /\ is_empty text = forallb isspace text.
Proof.
  destruct (extract_text_value L image) as [H | [raw H]].
  - exists []. split; [exact H | ]. repeat split.
  - exists (clean_text raw). split; [exact H | ].
    split; [apply clean_text_fixpoint | ].
    split; [apply clean_text_strip | ].
    rewrite <- (clean_text_fixpoint raw) at 1.
    apply clean_text_is_empty.
Qed.

(** X5. Whatever the upload and the libraries do, the language code that
    [process_uploaded_image] returns is "en" or "es", it is the language
    detected in the returned text, its name by [get_language_name] is
    English or Spanish (never Unknown), and the returned text is clean. *)
Theorem process_uploaded_image_language (L : Libs) (file : upload L) :
  exists text confidence language,
    returns (process_uploaded_image L file) (text, confidence, language)
    /\ clean_text text = text
    /\ language = detect_language text
    /\ (language = lang_en \/ language = lang_es)
    /\ (get_language_name language = u "English"
        \/ get_language_name language = u "Spanish").
Proof.
  assert (Hname : forall text,
             get_language_name (detect_language text) = u "English"
             \/ get_language_name (detect_language text) = u "Spanish").
  { intros text. destruct (detect_language_codes text) as [-> | ->];
      [left | right]; vm_compute; reflexivity. }
  assert (Hfail : value (process_uploaded_image L file) = Ok ([], f0_0, lang_en) ->
                  exists text confidence language,
                    returns (process_uploaded_image L file)
                      (text, confidence, language)
                    /\ clean_text text = text
                    /\ language = detect_language text
                    /\ (language = lang_en \/ language = lang_es)
                    /\ (get_language_name language = u "English"
                        \/ get_language_name language = u "Spanish")).
  { intros H. exists [], f0_0, lang_en. split; [exact H | ].
    split; [reflexivity | ]. split; [reflexivity | ].
    split; [left; reflexivity | left; vm_compute; reflexivity]. }
  destruct (Image_open L file) as [img | e] eqn:Ho.
  - destruct (np_array L img) as [arr | e] eqn:Ha.
    + destruct (extract_text_returns_clean_text_aux L arr) as (text & Ht & Hc).
      destruct (Extractor.get_text_confidence_total L arr) as [c Hcf].
      exists text, c, (detect_language text).
      split; [exact (Extractor.process_uploaded_image_stages L file img arr
                       text c Ho Ha Ht Hcf) | ].
      split; [exact Hc | ]. split; [reflexivity | ].
      split; [apply detect_language_codes | apply Hname].
    + apply Hfail. unfold process_uploaded_image.
      rewrite (value_try_raise _ (e := e)); [reflexivity | ].
      rewrite (value_bind_lift _ Ho). apply value_bind_lift_raise, Ha.
  - apply Hfail. unfold process_uploaded_image.
    rewrite (value_try_raise _ (e := e)); [reflexivity | ].
    apply value_bind_lift_raise, Ho.
Qed.

(** X6. One cell of the confidence column that [int] cannot read is
    enough for [get_text_confidence] to return 0.0, whatever the other
    cells hold. *)
Theorem get_text_confidence_unreadable_cell (L : Libs) (image : ndarray L)
    (col : list (cell L)) (c : cell L) (e : exn)
    (Hcol : value (conf_column L image) = Ok col)
    (Hin : In c col)
    (Hc : py_int L c = Raise e) :
  returns (get_text_confidence L image) f0_0.
Proof.
  destruct (positive_confidences_raise L col c e Hin Hc) as [e' He'].
  apply (Extractor.get_text_confidence_raise L image e').
  unfold confidence_body. rewrite (value_bind_ok _ Hcol).
  apply value_bind_lift_raise, He'.
Qed.

Lemma get_text_confidence_unreadable_cell_witness :
  returns
    (get_text_confidence
       (MoreExamples.ocr_cells (u "hello") [Some 96%Z; None; Some 88%Z]) tt)
    f0_0.
Proof.
  apply (get_text_confidence_unreadable_cell
           (MoreExamples.ocr_cells (u "hello") [Some 96%Z; None; Some 88%Z]) tt
           [Some 96%Z; None; Some 88%Z] None
           (Exn (u "invalid literal for int() with base 10"))).
  - reflexivity.
  - right. left. reflexivity.
  - reflexivity.
Defined.

End ExtractorShape.

(* ================================================================== *)
(** * utils.py: language, upload and confidence helpers *)
(* ================================================================== *)

Module UtilsFacts.

Import Utils UtilsSpec Spec.

Local Open Scope Z_scope.

(** ** detect_language_simple *)

Lemma detect_language_simple_cases (text : str) :
  (detect_language_simple text = code_en
   /\ OCR.detect_language text = OCR.lang_en)
  \/ ((detect_language_simple text = code_es
       \/ detect_language_simple text = code_fr
       \/ detect_language_simple text = code_de)
      /\ OCR.detect_language text = OCR.lang_es).
Proof.
  unfold detect_language_simple, OCR.detect_language.
  destruct text as [ | c text]; [left; split; reflexivity | ].
  cbn [is_empty].
  destruct (Z.of_nat (List.length (c :: text)) =? 0);
    [left; split; reflexivity | ].
  destruct (gtb _ f0_3); [right | left; split; reflexivity].
  split; [ | reflexivity].
  destruct (existsb _ spanish_marks); [left; reflexivity | ].
  destruct (existsb _ french_marks); [right; left; reflexivity | ].
  destruct (existsb _ german_marks); [right; right; reflexivity | ].
  left; reflexivity.
Qed.

(** X7. [detect_language_simple] returns one of "en", "es", "fr", "de",
    and it answers "en" for exactly the texts for which
    [OCRProcessor.detect_language] answers "en". *)
Theorem detect_language_simple_english (text : str) :
  (detect_language_simple text = code_en
   \/ detect_language_simple text = code_es
   \/ detect_language_simple text = code_fr
   \/ detect_language_simple text = code_de)
  /\ (detect_language_simple text = code_en
      <-> OCR.detect_language text = OCR.lang_en).
Proof.
  destruct (detect_language_simple_cases text) as [[Hs Hd] | [Hs Hd]].
  - split; [left; exact Hs | ]. split; intros _; assumption.
  - split; [right; exact Hs | ].
    rewrite Hd. split; intros H.
    + destruct Hs as [Hs | [Hs | Hs]]; rewrite Hs in H; discriminate H.
    + discriminate H.
Qed.

(** No searched mark is an ASCII character or a Latin-1 letter. *)
Lemma marks_outside_latin1 :
  forallb (fun m => negb (ascii_or_latin1_letter m))
    (spanish_marks ++ french_marks ++ german_marks) = true.
Proof. vm_compute. reflexivity. Qed.

Lemma contains_none (text marks : str) :
  forallb ascii_or_latin1_letter text = true ->
  forallb (fun m => negb (ascii_or_latin1_letter m)) marks = true ->
  existsb (fun char => contains text char) marks = false.
Proof.
  intros Ht Hm. induction marks as [ | m marks IH]; [reflexivity | ].
  cbn in Hm. apply andb_prop in Hm as [Hm Hms]. apply negb_true_iff in Hm.
  cbn [existsb]. rewrite (IH Hms), orb_false_r.
  unfold contains. clear IH Hms.
  induction text as [ | c text IH]; [reflexivity | ].
  cbn in Ht. apply andb_prop in Ht as [Hc Ht].
  cbn [existsb]. rewrite (IH Ht), orb_false_r.
  unfold chr_eqb. apply N.eqb_neq. intros ->. congruence.
Qed.

(** X8. On a text whose characters are ASCII or Latin-1 letters
    (U+00C0..U+00FF, where the accented letters of Spanish, French and
    German are), [detect_language_simple] never answers "fr" or "de": it
    answers what [OCRProcessor.detect_language] answers, "en" or "es". *)
Theorem detect_language_simple_latin1 (text : str)
    (Htext : forallb ascii_or_latin1_letter text = true) :
  detect_language_simple text = OCR.detect_language text.
Proof.
  pose proof marks_outside_latin1 as Hm.
  rewrite !forallb_app in Hm.
  apply andb_prop in Hm as [H1 Hm]. apply andb_prop in Hm as [H2 H3].
  unfold detect_language_simple, OCR.detect_language.
  destruct text as [ | c text]; [reflexivity | ].
  cbn [is_empty].
  destruct (Z.of_nat (List.length (c :: text)) =? 0); [reflexivity | ].
  destruct (gtb _ f0_3); [ | reflexivity].
  rewrite (contains_none (c :: text) spanish_marks Htext H1).
  rewrite (contains_none (c :: text) french_marks Htext H2).
  rewrite (contains_none (c :: text) german_marks Htext H3). reflexivity.
Qed.

Lemma detect_language_simple_latin1_witness :
  detect_language_simple (u "très déçu à élève")
  = OCR.detect_language (u "très déçu à élève").
Proof.
  apply (detect_language_simple_latin1 (u "très déçu à élève")).
  vm_compute. reflexivity.
Defined.

Example detect_language_simple_french_text :
  detect_language_simple (u "éèêëàâçùûôîï") = code_es.
Proof. vm_compute. reflexivity. Qed.

(** ** get_language_name *)

(** X9. The prompt of [translate_text] names the target language as
    [get_language_name] does: "Translate the following text to", the name
    of the code (of "en" for a code that the engine does not recognize), a
    colon, and the text between two blank lines before "Translation:". *)
Theorem translate_prompt_names_language (text language : str) :
  Engine.translate_prompt text language
  = Ok (u "Translate the following text to "
        ++ get_language_name
             (if recognized language then language else Engine.k_en)
        ++ u ":" ++ [nl; nl] ++ text ++ [nl; nl] ++ u "Translation:").
Proof.
  unfold Engine.translate_prompt, recognized.
  change (PyDict.index (Engine.translation_prompts text) Engine.k_en)
    with (Ok (u "Translate the following text to English:" ++ [nl; nl]
              ++ text ++ [nl; nl] ++ u "Translation:")).
  cbv beta iota. unfold PyDict.get, Engine.translation_prompts.
  cbn [PyDict.lookup].
  destruct (str_eqb Engine.k_es language) eqn:Ees.
  { apply str_eqb_eq in Ees. subst language. vm_compute. reflexivity. }
  destruct (str_eqb Engine.k_fr language) eqn:Efr.
  { apply str_eqb_eq in Efr. subst language. vm_compute. reflexivity. }
  destruct (str_eqb Engine.k_de language) eqn:Ede.
  { apply str_eqb_eq in Ede. subst language. vm_compute. reflexivity. }
  destruct (str_eqb Engine.k_en language) eqn:Een.
  { apply str_eqb_eq in Een. subst language. vm_compute. reflexivity. }
  cbn [orb]. vm_compute. reflexivity.
Qed.

(** ** validate_image_file and get_file_size_mb *)

Lemma validate_accepts (f : UploadedFile) :
  returns (validate_image_file (Some f)) true ->
  existsb (str_eqb (file_type f)) allowed_types = true
  /\ file_size f <= 10485760.
Proof.
  unfold returns, validate_image_file.
  destruct (existsb (str_eqb (file_type f)) allowed_types); cbn [negb];
    [ | intros H; discriminate H].
  destruct (Z.gtb_spec (file_size f) max_size) as [Hgt | Hle];
    [intros H; discriminate H | ].
  intros _. split; [reflexivity | ]. unfold max_size in Hle. lia.
Qed.

(** X10. A file that [validate_image_file] accepts has one of the five
    image types and at most 10485760 bytes, and [get_file_size_mb] of its
    size is a float between 0.0 and 10.0. *)
Theorem accepted_file_size (f : UploadedFile)
    (Hsize : 0 <= file_size f)
    (Hok : returns (validate_image_file (Some f)) true) :
  existsb (str_eqb (file_type f)) allowed_types = true
  /\ file_size f <= 10 * 1024 * 1024
  /\ in_range f0_0 (of_int 10) (get_file_size_mb (file_size f)) = true.
Proof.
  destruct (validate_accepts f Hok) as [Ht Hs].
  split; [exact Ht | ]. split; [lia | ].
  unfold get_file_size_mb, in_range.
  change (1024 * 1024) with 1048576.
  destruct (Z.eq_dec (file_size f) 0) as [-> | Hne]; [reflexivity | ].
  apply andb_true_intro. split.
  - destruct (truediv_finite (file_size f) 1048576 ltac:(lia) ltac:(lia))
      as (m & e & E).
    rewrite E. reflexivity.
  - change (of_int 10) with (truediv 10485760 1048576).
    apply truediv_mono; lia.
Qed.

Lemma accepted_file_size_witness :
  in_range f0_0 (of_int 10)
    (get_file_size_mb
       (file_size {| file_name := u "page.png"; file_type := u "image/png";
                     file_size := 10485760 |})) = true.
Proof.
  destruct (accepted_file_size
              {| file_name := u "page.png"; file_type := u "image/png";
                 file_size := 10485760 |}) as (_ & _ & H).
  - cbn. lia.
  - reflexivity.
  - exact H.
Defined.

Example oversized_file_rejected :
  value (validate_image_file
           (Some {| file_name := u "page.png"; file_type := u "image/png";
                    file_size := 10485761 |})) = Ok false.
Proof. vm_compute. reflexivity. Qed.

End UtilsFacts.

(* ================================================================== *)
(** * display_confidence_bar *)
(* ================================================================== *)

Module ConfidenceBar.

Import Utils Spec.

Local Open Scope Z_scope.

(** A rounded mantissa and exponent make a double of 53 digits. *)
Lemma normal_canonical (m1 x : Z) :
  2 ^ 52 <= m1 <= 2 ^ 53 ->
  exists m e,
    normal m1 x = S754_finite false m e
    /\ Zpos (digits2_pos m) = 53
    /\ x - 52 <= e <= x - 51.
Proof.
  intros Hm. unfold normal. destruct (Z.eqb_spec m1 (2 ^ 53)) as [-> | Hne].
  - exists (Z.to_pos (2 ^ 52)), (x - 51).
    split; [reflexivity | ]. split; [reflexivity | lia].
  - exists (Z.to_pos m1), (x - 52). split; [reflexivity | ].
    split; [ | lia]. apply digits2_pos_unique.
    rewrite Z2Pos.id by lia. change (53 - 1) with 52. lia.
Qed.

Lemma SFleb_finite (m m' : positive) (e e' : Z) :
  SFleb (S754_finite false m e) (S754_finite false m' e') = true ->
  e < e' \/ (e = e' /\ Z.pos m <= Z.pos m').
Proof.
  unfold SFleb, SFcompare. rewrite Pos.compare_cont_spec. cbn [Pos.switch_Eq].
  destruct (Z.compare_spec e e') as [He | He | He].
  - destruct (Pos.compare_spec m m') as [Hm | Hm | Hm]; intros H;
      try discriminate H; right; split; try assumption; lia.
  - intros _. left. exact He.
  - intros H. discriminate H.
Qed.

(** A mean between 1 and 100, divided by 100, is between 0 and 1. *)
Lemma percent_range (s n : Z) :
  0 < n -> n <= s <= 100 * n -> s < 2 ^ 53 ->
  in_range f0_0 f1_0 (fdiv (truediv s n) (of_int 100)) = true.
Proof.
  intros Hn Hs Hb.
  assert (Hhi : SFleb (truediv s n) (truediv 100 1) = true)
    by (apply truediv_mono; lia).
  assert (Hlo : SFleb (truediv 1 1) (truediv s n) = true)
    by (apply truediv_mono; lia).
  destruct (truediv_normal s n ltac:(lia) ltac:(lia))
    as (ma & mb & ea & eb & m1 & _ & _ & _ & _ & _ & _ & Bm1 & _ & R).
  destruct (normal_canonical m1 (if mb <=? ma then ea - eb else ea - eb - 1) Bm1)
    as (m & e & E & Hd & _).
  rewrite R, E in *. clear R E Bm1 Hn Hs Hb s n ma mb ea eb m1.
  change (truediv 100 1) with (S754_finite false 7036874417766400 (-46)) in Hhi.
  change (truediv 1 1) with (S754_finite false 4503599627370496 (-52)) in Hlo.
  apply SFleb_finite in Hhi. apply SFleb_finite in Hlo.
  change (of_int 100) with (S754_finite false 7036874417766400 (-46)).
  unfold fdiv.
  assert (He : -52 <= e <= 0).
  { clear - Hhi Hlo.
    destruct Hhi as [? | [? _]]; destruct Hlo as [? | [? _]]; lia. }
  assert (Hd100 : Z.pos (digits2_pos 7036874417766400) = 53)
    by (vm_compute; reflexivity).
  assert (He100 : -52 <= -46 <= 0) by (clear; lia).
  pose proof (SFdiv_normal m 7036874417766400 e (-46) Hd Hd100 He He100) as Hq.
  destruct Hq as (q & Bq & Nq & Rq).
  fold prec emax in Rq. rewrite Rq. clear Rq Hd100 He100 Hlo.
  unfold in_range. apply andb_true_intro. split.
  - destruct (normal_canonical q
                (if 7036874417766400 <=? Z.pos m then e - -46 else e - -46 - 1) Bq)
      as (mq & eq & Eq & _). rewrite Eq. reflexivity.
  - change f1_0 with (normal (2 ^ 52) 0).
    apply normal_le; [exact Bq | clear; lia | ].
    destruct (Z.leb_spec 7036874417766400 (Z.pos m)) as [Hle | Hlt].
    + destruct Hhi as [Hlt | [Heq Hm]]; [left; clear - Hlt; lia | ].
      right. split; [clear - Heq; lia | ].
      assert (Em : Z.pos m = 7036874417766400) by (clear - Hle Hm; lia).
      unfold nearest_even in Nq. rewrite Em in Nq.
      clear - Nq. lia.
    + left. clear - Hhi. destruct Hhi as [Hlt | [Heq _]]; lia.
Qed.

(** X11. For a confidence that [get_text_confidence] computes from values
    of at most 100, the progress that [display_confidence_bar] shows is a
    float between 0.0 and 1.0, and nothing is shown when no value is
    positive. *)
Theorem display_confidence_bar_progress (format_1f : float -> str)
    (values : list Z)
    (Hmax : Forall (fun v => v <= 100) values)
    (Hlen : Z.of_nat (List.length values) < 2 ^ 46) :
  (positive_values values = [] ->
   display_confidence_bar format_1f (mean_or_zero (positive_values values))
   = [])
  /\ (forall p,
        In (Progress p)
          (display_confidence_bar format_1f
             (mean_or_zero (positive_values values))) ->
        in_range f0_0 f1_0 p = true).
Proof.
  split; [intros ->; reflexivity | ].
  intros p Hin.
  pose proof (Extractor.positive_values_bounds values Hmax) as Hv.
  pose proof (Extractor.positive_values_length values) as Hl.
  destruct (positive_values values) as [ | v vs] eqn:E; [contradiction Hin | ].
  unfold display_confidence_bar in Hin.
  destruct (gtb (mean_or_zero (v :: vs)) (of_int 0)); [ | contradiction Hin].
  destruct Hin as [Hin | [Hin | []]]; [ | discriminate Hin].
  injection Hin as <-. unfold mean_or_zero, mean.
  pose proof (Extractor.sum_bounds (v :: vs) Hv) as Hs.
  apply percent_range; [cbn [List.length]; lia | exact Hs | lia].
Qed.

Lemma display_confidence_bar_progress_witness :
  in_range f0_0 f1_0 (fdiv (mean [96; 88]) (of_int 100)) = true.
Proof.
  destruct (display_confidence_bar_progress (fun _ => u "92.0")
              [96; -1; 88; 0]) as [_ H].
  - repeat constructor; lia.
  - cbn. lia.
  - apply H. vm_compute. left. reflexivity.
Defined.

End ConfidenceBar.

(* ================================================================== *)
(** * Session data and the interaction log *)
(* ================================================================== *)

Module SessionFacts.

Import Utils UtilsSpec.

Local Open Scope Z_scope.

Lemma str_eqb_neq (a b : str) : a <> b -> str_eqb a b = false.
Proof.
  intros H. destruct (str_eqb a b) eqn:E; [ | reflexivity].
  apply str_eqb_eq in E. contradiction.
Qed.

Lemma str_eqb_sym (a b : str) : str_eqb a b = str_eqb b a.
Proof.
  destruct (str_eqb a b) eqn:E.
  - apply str_eqb_eq in E. subst. symmetry. apply str_eqb_refl.
  - destruct (str_eqb b a) eqn:E'; [ | reflexivity].
    apply str_eqb_eq in E'. subst. rewrite str_eqb_refl in E. discriminate E.
Qed.

Section Dict.

Context {V : Type}.

Lemma lookup_setitem_same (d : PyDict.dict V) (k : str) (v : V) :
  PyDict.lookup (setitem d k v) k = Some v.
Proof.
  induction d as [ | [k' v'] d IH]; cbn.
  - rewrite str_eqb_refl. reflexivity.
  - destruct (str_eqb k' k) eqn:E; cbn; rewrite E; [reflexivity | exact IH].
Qed.

Lemma lookup_setitem_other (d : PyDict.dict V) (k q : str) (v : V) :
  q <> k -> PyDict.lookup (setitem d k v) q = PyDict.lookup d q.
Proof.
  intros Hq. induction d as [ | [k' v'] d IH]; cbn.
  - rewrite str_eqb_neq; [reflexivity | ]. intros ->. apply Hq. reflexivity.
  - destruct (str_eqb k' k) eqn:E; cbn.
    + apply str_eqb_eq in E. subst k'.
      rewrite str_eqb_neq; [reflexivity | ]. intros ->. apply Hq. reflexivity.
    + rewrite IH. reflexivity.
Qed.

Lemma get_setitem_same (d : PyDict.dict V) (k : str) (v default : V) :
  PyDict.get (setitem d k v) k default = v.
Proof. unfold PyDict.get. rewrite lookup_setitem_same. reflexivity. Qed.

Lemma get_setitem_other (d : PyDict.dict V) (k q : str) (v default : V) :
  q <> k -> PyDict.get (setitem d k v) q default = PyDict.get d q default.
Proof.
  intros H. unfold PyDict.get. rewrite lookup_setitem_other by exact H.
  reflexivity.
Qed.

End Dict.

Lemma session_data_frame {V : Type} (key : str) (data : V)
    (state : PyDict.dict V) :
  (forall default,
     load_session_data key default (save_session_data key data state) = data)
  /\ forall key' default, key' <> key ->
       load_session_data key' default (save_session_data key data state)
       = load_session_data key' default state.
Proof.
  unfold load_session_data, save_session_data. split.
  - intros default. apply get_setitem_same.
  - intros key' default H. apply get_setitem_other, H.
Qed.

(** X12. What [save_session_data] stores under a key is what
    [load_session_data] reads back from it, and the other keys read as
    before. *)
Theorem session_data_round_trip (key : str) (data default : pyval)
    (state : session_state) :
  load_session_data key default (save_session_data key data state) = data
  /\ forall key', key' <> key ->
       load_session_data key' default (save_session_data key data state)
       = load_session_data key' default state.
Proof.
  destruct (session_data_frame key data state) as [Hsame Hother].
  split; [apply Hsame | ]. intros key' H. apply Hother, H.
Qed.







(** The counting loop, from any dictionary of counts. *)
Lemma keys_setitem {V} (d : PyDict.dict V) (k : str) (v : V) :
  map fst (setitem d k v)
  = if existsb (str_eqb k) (map fst d) then map fst d
    else map fst d ++ [k].
Proof.
  induction d as [ | [k' v'] d IH]; cbn; [reflexivity | ].
  rewrite (str_eqb_sym k k').
  destruct (str_eqb k' k); cbn; [reflexivity | ].
  rewrite IH. destruct (existsb (str_eqb k) (map fst d)); reflexivity.
Qed.

Lemma total_setitem (d : PyDict.dict Z) (k : str) :
  total (setitem d k (PyDict.get d k 0 + 1)) = total d + 1.
Proof.
  unfold total, PyDict.get.
  induction d as [ | [k' v'] d IH]; cbn; [reflexivity | ].
  destruct (str_eqb k' k); cbn; [lia | ].
  rewrite IH. lia.
Qed.

Lemma existsb_app_one (t k : str) (seen : list str) :
  existsb (str_eqb t) (seen ++ [k]) = existsb (str_eqb t) (k :: seen).
Proof.
  rewrite existsb_app. cbn. rewrite orb_false_r. apply orb_comm.
Qed.

Lemma entry_type (call : str * str * pyval) :
  entry_of call
  = VDict [ (u "timestamp", VStr (fst (fst call)));
            (u "type", VStr (type_of call));
            (u "details", snd call) ].
Proof. destruct call as [[timestamp interaction_type] details]. reflexivity. Qed.

Lemma count_interaction_types_from (calls : list (str * str * pyval)) :
  forall (acc : PyDict.dict Z) (seen : list str),
    (forall t, existsb (str_eqb t) seen
               = existsb (str_eqb t) (map fst acc)) ->
    exists counts,
      count_interaction_types (map entry_of calls) acc = Ok counts
      /\ (forall t, PyDict.get counts t 0
                    = PyDict.get acc t 0 + occurrences t (map type_of calls))
      /\ map fst counts
         = map fst acc ++ first_occurrences (map type_of calls) seen
      /\ total counts = total acc + Z.of_nat (List.length calls).
Proof.
  induction calls as [ | call calls IH]; intros acc seen Hseen.
  - exists acc. split; [reflexivity | ]. split.
    + intros t. unfold occurrences. cbn. lia.
    + split; [cbn; rewrite app_nil_r; reflexivity | cbn; lia].
  - cbn [map]. rewrite entry_type. cbn [count_interaction_types].
    replace (PyDict.get [ (u "timestamp", VStr (fst (fst call)));
                          (u "type", VStr (type_of call));
                          (u "details", snd call) ] (u "type")
               (VStr (u "unknown")))
      with (VStr (type_of call)) by reflexivity.
    set (k := type_of call).
    set (acc1 := setitem acc k (PyDict.get acc k 0 + 1)).
    destruct (existsb (str_eqb k) seen) eqn:Ek.
    + destruct (IH acc1 seen) as (counts & Hrun & Hget & Hkeys & Htotal).
      { intros t. unfold acc1. rewrite keys_setitem, <- (Hseen k), Ek.
        apply Hseen. }
      exists counts. split; [exact Hrun | ]. split; [ | split].
      * intros t. rewrite Hget. unfold acc1, occurrences. cbn [filter].
        destruct (str_eqb t k) eqn:Et.
        -- apply str_eqb_eq in Et. subst t. rewrite get_setitem_same.
           cbn [List.length]. lia.
        -- rewrite get_setitem_other; [reflexivity | ].
           intros ->. rewrite str_eqb_refl in Et. discriminate Et.
      * rewrite Hkeys. unfold acc1. rewrite keys_setitem, <- (Hseen k), Ek.
        cbn [first_occurrences]. fold k. rewrite Ek. reflexivity.
      * rewrite Htotal. unfold acc1. rewrite total_setitem.
        cbn [List.length]. lia.
    + destruct (IH acc1 (k :: seen)) as (counts & Hrun & Hget & Hkeys & Htotal).
      { intros t. unfold acc1. rewrite keys_setitem, <- (Hseen k), Ek.
        rewrite existsb_app_one. cbn [existsb]. rewrite Hseen. reflexivity. }
      exists counts. split; [exact Hrun | ]. split; [ | split].
      * intros t. rewrite Hget. unfold acc1, occurrences. cbn [filter].
        destruct (str_eqb t k) eqn:Et.
        -- apply str_eqb_eq in Et. subst t. rewrite get_setitem_same.
           cbn [List.length]. lia.
        -- rewrite get_setitem_other; [reflexivity | ].
           intros ->. rewrite str_eqb_refl in Et. discriminate Et.
      * rewrite Hkeys. unfold acc1. rewrite keys_setitem, <- (Hseen k), Ek.
        cbn [first_occurrences]. fold k. rewrite Ek.
        rewrite <- app_assoc. reflexivity.
      * rewrite Htotal. unfold acc1. rewrite total_setitem.
        cbn [List.length]. lia.
Qed.

(** X14. The counting loop of the About tab, on a log written by
    [log_interaction]: it does not fail, the count of every type is the
    number of logged interactions of that type (0 for a type that was
    never logged), the types are listed in the order of their first
    occurrence, and the counts add up to the number of entries, the
    "Total Interactions" shown above them. *)
Theorem count_interaction_types_counts (calls : list (str * str * pyval)) :
  exists counts,
    count_interaction_types (map entry_of calls) [] = Ok counts
    /\ (forall t, PyDict.get counts t 0 = occurrences t (map type_of calls))
    /\ map fst counts = first_occurrences (map type_of calls) []
    /\ total counts = Z.of_nat (List.length calls).
Proof.
  destruct (count_interaction_types_from calls [] [])
    as (counts & Hrun & Hget & Hkeys & Htotal); [reflexivity | ].
  exists counts. split; [exact Hrun | ]. split; [ | split].
  - intros t. rewrite Hget. reflexivity.
  - exact Hkeys.
  - rewrite Htotal. reflexivity.
Qed.

End SessionFacts.

(* ================================================================== *)
(** * Deleting the temporary files *)
(* ================================================================== *)

Module CleanupFacts.

Import Utils UtilsSpec.

Section OnFileSystem.

Variable F : FileSystem.





End OnFileSystem.




(** The file is deleted under all its names, listed or not, and the
    file that cannot be deleted gives the one warning. *)
Example cleanup_temp_files_other_name :
  cleanup_temp_files MoreExamples.two_files
    [ u "/tmp/a.txt"; u ""; u "/tmp/a.txt"; u "/tmp/b.txt" ] true
  = (Ok false,
     [ cleanup_warning (u "/tmp/b.txt")
         (Exn (u "[Errno 13] Permission denied: '/tmp/b.txt'")) ])
  /\ path_exists MoreExamples.two_files false (u "/tmp/./a.txt") = false.
Proof. split; vm_compute; reflexivity. Qed.

End CleanupFacts.

(* ================================================================== *)
(** * Loading the model and reporting on it *)
(* ================================================================== *)

Module ModelFacts.

Import Engine Spec Utils UtilsSpec.

Lemma requested_name_self (self : AIEngine) (name : option str) :
  model_name match name with
             | Some n => if is_empty n then self else set_model_name self n
             | None => self
             end
  = requested_name self name.
Proof.
  unfold requested_name.
  destruct name as [n | ]; [destruct (is_empty n) | ]; reflexivity.
Qed.

Lemma load_model_value (L : Libs) (self : AIEngine) (name : option str) :
  let self0 := match name with
               | Some n => if is_empty n then self else set_model_name self n
               | None => self
               end in
  value (load_model L self name)
  = if loadable L (model_name self0) || loadable L fallback_model
    then Ok (set_model_loaded self0 true, true)
    else Ok (self0, false).
Proof.
  intros self0. unfold load_model, loadable, fallback_model. fold self0.
  unfold try_except, bind, lift, tell, ret, value.
  destruct (tokenizer_from_pretrained L (model_name self0)) as [[] | e1];
    [destruct (model_from_pretrained L (model_name self0)) as [[] | e2] | ];
    try reflexivity;
    (destruct (tokenizer_from_pretrained L (u "microsoft/DialoGPT-medium"))
       as [[] | e3];
     [destruct (model_from_pretrained L (u "microsoft/DialoGPT-medium"))
        as [[] | e4] | ];
     reflexivity).
Qed.

(** X16. [load_model] never raises.  It returns [True] exactly when the
    requested model or else the fallback model can be loaded; the loaded
    flag is then set, and is left as it was otherwise (a failed load never
    clears it).  The model name is the requested one afterwards, also when
    it is the fallback model that was loaded, and the generation settings
    are untouched. *)
Theorem load_model_outcome (L : Libs) (self : AIEngine) (name : option str) :
  let requested := requested_name self name in
  let success := loadable L requested || loadable L fallback_model in
  exists self',
    returns (load_model L self name) (self', success)
    /\ model_loaded self' = success || model_loaded self
    /\ model_name self' = requested
    /\ temperature self' = temperature self
    /\ top_p self' = top_p self
    /\ max_length self' = max_length self.
Proof.
  intros requested success. unfold returns.
  rewrite load_model_value. rewrite requested_name_self.
  fold requested. fold success.
  destruct success.
  - eexists. split; [reflexivity | ].
    cbn [set_model_loaded model_loaded model_name temperature top_p max_length orb].
    rewrite requested_name_self.
    destruct name as [n | ]; [destruct (is_empty n) | ];
      repeat split; reflexivity.
  - eexists. split; [reflexivity | ].
    rewrite requested_name_self.
    destruct name as [n | ]; [destruct (is_empty n) | ];
      repeat split; reflexivity.
Qed.

Example load_model_fallback_keeps_requested_name :
  value (load_model MoreExamples.fallback_only_libs init None)
  = Ok (set_model_loaded init true, true)
  /\ PyDict.lookup
       (get_model_info MoreExamples.fallback_only_libs
          (set_model_loaded init true)) (u "model_name")
     = Some (VStr (u "google/gemma-2-9b-it")).
Proof. split; vm_compute; reflexivity. Qed.

Lemma reachable_valid (L : Libs) (calls : list call) :
  settings_valid (fold_left (run_call L) calls init) = true.
Proof.
  assert (H : forall self, settings_valid self = true ->
                           settings_valid (fold_left (run_call L) calls self)
                           = true).
  { induction calls as [ | c calls IH]; intros self Hs; [exact Hs | ].
    cbn [fold_left]. apply IH, Settings.run_call_valid, Hs. }
  apply H. vm_compute. reflexivity.
Qed.

(** X17. [get_model_info] of an engine that was only written by
    [update_settings] and [load_model]: before a successful load it is
    the single entry "status": "Not loaded"; afterwards its status is
    "Loaded" and the temperature, top_p and max_length it reports are the
    engine's and lie in [0.1, 2.0], [0.1, 1.0] and [100, 4096]. *)
Theorem get_model_info_reports (L : Libs) (calls : list call) :
  let self := fold_left (run_call L) calls init in
  let info := get_model_info L self in
  if model_loaded self then
    PyDict.lookup info (u "status") = Some (VStr (u "Loaded"))
    /\ PyDict.lookup info (u "model_name") = Some (VStr (model_name self))
    /\ PyDict.lookup info (u "temperature") = Some (VFloat (temperature self))
    /\ PyDict.lookup info (u "top_p") = Some (VFloat (top_p self))
    /\ PyDict.lookup info (u "max_length") = Some (VInt (max_length self))
    /\ in_range f0_1 f2_0 (temperature self) = true
    /\ in_range f0_1 f1_0 (top_p self) = true
    /\ (100 <= max_length self <= 4096)%Z
  else info = [ (u "status", VStr (u "Not loaded")) ].
Proof.
  intros self info. pose proof (reachable_valid L calls) as Hv.
  fold self in Hv. unfold info, get_model_info.
  destruct (model_loaded self); [ | reflexivity].
  unfold settings_valid in Hv.
  apply andb_prop in Hv as [Hv Hmax]. apply andb_prop in Hv as [Hv Hmin].
  apply andb_prop in Hv as [Ht Hp].
  apply Z.leb_le in Hmin, Hmax.
  cbn [negb].
  repeat split; try reflexivity; try assumption.
Qed.

End ModelFacts.

(* ================================================================== *)
(** * What the tasks hand to the pages *)
(* ================================================================== *)

Module TaskOutputs.

Import Engine Spec Tasks.

Lemma generate_response_value (L : Libs) (self : AIEngine) (prompt : str)
    (max_length' : option Z) :
  exists s,
    value (generate_response L self prompt max_length') = Ok s
    /\ strip s = s.
Proof.
  destruct (model_loaded self) eqn:Hl.
  - destruct (value (model_output L self prompt max_length'))
      as [response | e] eqn:E.
    + exists (strip (skipn (List.length prompt) response)).
      split; [apply generate_response_decoded; assumption | ].
      apply ShapeFacts.strip_idempotent.
    + exists []. split; [ | reflexivity].
      apply (generate_response_raise L self prompt max_length' e E).
    - exists []. split; [ | reflexivity].
      apply generate_response_unloaded, Hl.
Qed.

(** X18. [generate_response] never raises, whatever the tokenizer and the
    model do, and what it returns has no whitespace at either end.  When
    no model is loaded it returns the empty string after the one message
    "Model not loaded. Please load the model first.", whatever the
    libraries are. *)
Theorem generate_response_returns_stripped (L : Libs) (self : AIEngine)
    (prompt : str) (max_length' : option Z) :
  exists s,
    returns (generate_response L self prompt max_length') s
    /\ strip s = s
    /\ (model_loaded self = false ->
        generate_response L self prompt max_length'
        = (Ok [],
           [ CallGenerate prompt max_length';
             StError (u "Model not loaded. Please load the model first.") ])).
Proof.
  destruct (generate_response_value L self prompt max_length')
    as (s & Hs & Hstrip).
  exists s. split; [exact Hs | ]. split; [exact Hstrip | ].
  intros Hl. unfold generate_response. rewrite Hl. reflexivity.
Qed.

Lemma msg_nothing_provided_nonempty (kind : task_kind) :
  is_empty (msg_nothing_provided kind)
  = match kind with Translate => true | _ => false end.
Proof. destruct kind; reflexivity. Qed.

Lemma task_output_nonempty (kind : task_kind) (text generated : str) :
  is_empty (strip text) = false ->
  is_empty (task_output kind text generated) = false.
Proof.
  intros Ht. unfold task_output.
  destruct (is_empty generated) eqn:Eg; [ | exact Eg].
  destruct kind; try reflexivity.
  destruct text; [discriminate Ht | reflexivity].
Qed.

(** X19. The four tasks never raise, whatever the libraries do, and the
    summary, the answer and the explanation are never the empty string
    (so the pages' branch for an empty result is never taken); the
    translation is empty exactly when the text is blank. *)
Theorem task_result_never_empty (L : Libs) (self : AIEngine)
    (kind : task_kind) (text language : str) :
  exists s,
    returns (run_task L self kind text language) s
    /\ is_empty s
       = match kind with
         | Translate => is_empty (strip text)
         | _ => false
         end.
Proof.
  unfold returns. destruct (is_empty (strip text)) eqn:Ht.
  - rewrite run_task_blank by exact Ht.
    exists (msg_nothing_provided kind). split; [reflexivity | ].
    destruct kind; reflexivity.
  - rewrite run_task_generates by exact Ht.
    destruct (generate_response_value L self
                (before_field (template kind language) ++ text
                 ++ after_field (template kind language)) (Some (cap kind)))
      as (g & Hg & _).
    exists (task_output kind text g). split.
    + rewrite EffFacts.value_bind_ret, Hg. reflexivity.
    + rewrite (task_output_nonempty kind text g Ht).
      destruct kind; reflexivity.
Qed.

End TaskOutputs.

(* ================================================================== *)
(** * update_settings keeps what is already valid *)
(* ================================================================== *)

Module SettingsFacts.

Import Engine Spec.

(** [max(lo, min(hi, t))] is [t] itself, [lo] or [hi]. *)
Lemma clamp_cases (lo hi t : float) :
  ltb lo hi = true ->
  py_max lo (py_min hi t)
  = if ltb t hi then (if ltb lo t then t else lo) else hi.
Proof.
  intros Hlh. unfold py_max, py_min, gtb, ltb in *.
  destruct (SFltb t hi); [reflexivity | ]. rewrite Hlh. reflexivity.
Qed.

Lemma clamp_idempotent (lo hi t : float) :
  ltb lo hi = true -> ltb lo lo = false -> ltb hi hi = false ->
  py_max lo (py_min hi (py_max lo (py_min hi t))) = py_max lo (py_min hi t).
Proof.
  intros Hlh Hlo Hhi. rewrite (clamp_cases lo hi t Hlh).
  destruct (ltb t hi) eqn:Eth.
  - destruct (ltb lo t) eqn:Elt.
    + rewrite (clamp_cases lo hi t Hlh), Eth, Elt. reflexivity.
    + rewrite (clamp_cases lo hi lo Hlh), Hlh, Hlo. reflexivity.
  - rewrite (clamp_cases lo hi hi Hlh), Hhi. reflexivity.
Qed.

Lemma clamp_inside (lo hi t : float) :
  ltb lo hi = true -> ltb lo t = true -> ltb t hi = true ->
  py_max lo (py_min hi t) = t.
Proof.
  intros Hlh Hlt Hth. rewrite (clamp_cases lo hi t Hlh), Hth, Hlt.
  reflexivity.
Qed.

Lemma update_settings_keeps (self : AIEngine) (t p : option float)
    (m : option Z) :
  model_loaded (update_settings self t p m) = model_loaded self
  /\ model_name (update_settings self t p m) = model_name self.
Proof. destruct t, p, m; split; reflexivity. Qed.

(** X20. [update_settings] changes the three generation settings only:
    the loaded flag and the model name are kept, and so is a setting
    whose argument is [None].  A temperature strictly between 0.1 and
    2.0, a top_p strictly between 0.1 and 1.0 and a max_length from 100
    to 4096 are stored as given, and a second call with the same
    arguments changes nothing. *)
Theorem update_settings_stores (self : AIEngine) (t p : option float)
    (m : option Z) :
  let self' := update_settings self t p m in
  update_settings self' t p m = self'
  /\ model_loaded self' = model_loaded self
  /\ model_name self' = model_name self
  /\ temperature self'
     = match t with
       | Some x => if ltb f0_1 x && ltb x f2_0 then x else temperature self'
       | None => temperature self
       end
  /\ top_p self'
     = match p with
       | Some x => if ltb f0_1 x && ltb x f1_0 then x else top_p self'
       | None => top_p self
       end
  /\ max_length self'
     = match m with
       | Some z => if (100 <=? z)%Z && (z <=? 4096)%Z then z
                   else max_length self'
       | None => max_length self
       end.
Proof.
  cbv zeta. split; [ | split; [ | split; [ | split; [ | split]]]].
  - unfold update_settings.
    destruct t as [t | ]; destruct p as [p | ]; destruct m as [m | ];
      cbn [model_loaded model_name max_length temperature top_p];
      rewrite ?clamp_idempotent by reflexivity;
      try (replace (Z.max 100 (Z.min 4096 (Z.max 100 (Z.min 4096 m))))
             with (Z.max 100 (Z.min 4096 m)) by lia);
      try reflexivity;
      destruct self; reflexivity.
  - apply update_settings_keeps.
  - apply update_settings_keeps.
  - destruct t as [x | ]; [ | destruct p, m; reflexivity].
    destruct (ltb f0_1 x && ltb x f2_0) eqn:E; [ | reflexivity].
    apply andb_prop in E as [E1 E2].
    rewrite <- (clamp_inside f0_1 f2_0 x eq_refl E1 E2) at 2.
    destruct p, m; reflexivity.
  - destruct p as [x | ]; [ | destruct t, m; reflexivity].
    destruct (ltb f0_1 x && ltb x f1_0) eqn:E; [ | reflexivity].
    apply andb_prop in E as [E1 E2].
    rewrite <- (clamp_inside f0_1 f1_0 x eq_refl E1 E2) at 2.
    destruct t, m; reflexivity.
  - destruct m as [z | ]; [ | destruct t, p; reflexivity].
    destruct ((100 <=? z)%Z && (z <=? 4096)%Z) eqn:E; [ | reflexivity].
    apply andb_prop in E as [E1 E2]. apply Z.leb_le in E1, E2.
    replace z with (Z.max 100 (Z.min 4096 z)) at 2 by lia.
    destruct t, p; reflexivity.
Qed.

End SettingsFacts.

(* ================================================================== *)
(** * The two loaded flags of the application *)
(* ================================================================== *)

Module AppFacts.

Import Spec AppSpec.

Lemma model_settings_consistent (s : App.Session) (w : App.Widgets) :
  consistent s ->
  exists s', value (App.model_settings s w) = Ok s' /\ consistent s'.
Proof.
  intros [Hflag Hvalid]. unfold App.model_settings.
  eexists. split; [reflexivity | ].
  destruct (App.model_loaded s) eqn:Hs; split;
    unfold App.set_ai_engine; cbn [App.ai_engine App.model_loaded].
  - intros _.
    rewrite (proj1 (SettingsFacts.update_settings_keeps _ _ _ _)).
    apply Hflag. reflexivity.
  - apply Settings.update_settings_valid, Hvalid.
  - rewrite Hs. discriminate.
  - exact Hvalid.
Qed.

Lemma sidebar_settings_consistent (L : Engine.Libs) (s : App.Session)
    (w : App.Widgets) :
  consistent s ->
  exists s', value (App.sidebar_settings L s w) = Ok s' /\ consistent s'.
Proof.
  intros Hs. unfold App.sidebar_settings.
  destruct (App.model_loaded s) eqn:Hflag; cbn [negb].
  - rewrite value_tell_then. destruct (App.reload_button w).
    + eexists. split; [reflexivity | ].
      split; [cbn; discriminate | exact (proj2 Hs)].
    + apply model_settings_consistent, Hs.
  - destruct (App.load_button w); [ | apply model_settings_consistent, Hs].
    pose proof (ModelFacts.load_model_value L (App.ai_engine s) None) as Hload.
    cbv zeta in Hload.
    destruct (UtilsSpec.loadable L (Engine.model_name (App.ai_engine s))
              || UtilsSpec.loadable L UtilsSpec.fallback_model).
    + rewrite (value_bind_ok _ Hload). cbn [fst snd].
      rewrite value_tell_then.
      eexists. split; [reflexivity | ].
      split; [reflexivity | exact (proj2 Hs)].
    + rewrite (value_bind_ok _ Hload). cbn [fst snd].
      apply model_settings_consistent.
      split; [cbn; rewrite Hflag; discriminate | exact (proj2 Hs)].
Qed.

(** X21. In every session, whatever the widgets of the sidebar return
    and whatever the libraries do, [sidebar_settings] never raises, the
    flag [st.session_state.model_loaded], which the pages test before
    they call the engine, is set only when the engine's own flag is, and
    the temperature, top_p and max_length of the engine stay in
    [0.1, 2.0], [0.1, 1.0] and [100, 4096]. *)
Theorem session_flag_implies_engine_flag (L : Engine.Libs)
    (ws : list App.Widgets) :
  exists s,
    App.runs L App.initialize_session_state ws = Ok s
    /\ implb (App.model_loaded s) (Engine.model_loaded (App.ai_engine s))
       = true
    /\ settings_valid (App.ai_engine s) = true.
Proof.
  assert (H : forall s0, consistent s0 ->
                         exists s, App.runs L s0 ws = Ok s /\ consistent s).
  { induction ws as [ | w ws IH]; intros s0 Hs0.
    - exists s0. split; [reflexivity | exact Hs0].
    - cbn [App.runs].
      destruct (sidebar_settings_consistent L s0 w Hs0) as (s1 & Hrun & Hs1).
      rewrite Hrun. apply IH, Hs1. }
  destruct (H App.initialize_session_state) as (s & Hrun & Hflag & Hvalid).
  { split; [cbn; discriminate | vm_compute; reflexivity]. }
  exists s. split; [exact Hrun | ]. split; [ | exact Hvalid].
  destruct (App.model_loaded s); [ | reflexivity].
  rewrite Hflag; reflexivity.
Qed.

(** The converse does not hold: "Reload Model" clears the flag of the
    session and leaves the engine loaded. *)
Example reload_button_keeps_engine_loaded :
  let click load reload :=
    {| App.load_button := load; App.reload_button := reload;
       App.temperature := f0_7; App.top_p := f0_9;
       App.selected_language := u "en"; App.audio_checkbox := false |} in
  exists s,
    App.runs MoreExamples.fallback_only_libs App.initialize_session_state
      [click true false; click false true] = Ok s
    /\ App.model_loaded s = false
    /\ Engine.model_loaded (App.ai_engine s) = true.
Proof. eexists. split; [vm_compute; reflexivity | split; reflexivity]. Qed.

End AppFacts.
